(** * MarkdownParser: a shallow embedding of [markdown_parser.py]

    Python strings are sequences of Unicode code points; they are modelled
    as lists of code points ([N]).  The regular expressions of the source
    are kept as syntax trees and run by a small backtracking matcher with
    the priorities of Python's [re] module.  Parser objects live in an
    object store, so that the nested parser created for a blockquote is a
    distinct object from the one that creates it. *)

From Stdlib Require Import ZArith NArith List String Ascii Lia Bool Arith.
From Stdlib Require Import DecimalNat FinFun Sorted.
From stdpp Require Import base list gmap.
Import ListNotations.

Local Open Scope N_scope.
Local Open Scope list_scope.

(** ** Strings of code points *)

Definition str := list N.

(** An ASCII literal as a string of code points. *)
Definition py (x : string) : str :=
  List.map N_of_ascii (list_ascii_of_string x).

(** The double quote, the line feed and the carriage return. *)
Definition dq : str := [34].
Definition LF : N := 10.
Definition CR : N := 13.

Fixpoint str_eqb (a b : str) : bool :=
  match a, b with
  | [], [] => true
  | x :: a', y :: b' => (x =? y) && str_eqb a' b'
  | _, _ => false
  end.

(** [i < len(l)] guarded indexing [l[i]]; the default is never reached by
    the callers, which test the bound first as the source does. *)
Definition get (l : list str) (i : nat) : str := nth i l [].

(** [str.isspace] of CPython for one code point ([_PyUnicode_IsWhitespace]),
    which is also what [str.strip()] and the pattern [\s] use. *)
Definition isspace (c : N) : bool :=
  ((9 <=? c) && (c <=? 13)) || ((28 <=? c) && (c <=? 32)) ||
  (c =? 133) || (c =? 160) || (c =? 5760) ||
  ((8192 <=? c) && (c <=? 8202)) || (c =? 8232) || (c =? 8233) ||
  (c =? 8239) || (c =? 8287) || (c =? 12288).

Definition is_ascii (c : N) : bool := c <? 128.
Definition ascii_upper (c : N) : bool := (65 <=? c) && (c <=? 90).
Definition ascii_lower (c : N) : bool := (97 <=? c) && (c <=? 122).
Definition ascii_digit (c : N) : bool := (48 <=? c) && (c <=? 57).

(** The part of the Unicode character database that the source reaches
    through [\w], [\d] and [str.lower] outside the ASCII range.  It belongs
    to the Python runtime, not to this program, and is a parameter. *)
Record unicode_db := {
  uni_isalnum : N -> bool;      (* str.isalnum for a non-ASCII code point *)
  uni_isdecimal : N -> bool;    (* str.isdecimal for a non-ASCII code point *)
  uni_lower : str -> str        (* str.lower for a string with a non-ASCII code point *)
}.

(** ** String methods *)

Fixpoint lstrip_by (p : N -> bool) (t : str) : str :=
  match t with
  | c :: t' => if p c then lstrip_by p t' else t
  | [] => []
  end.

Definition rstrip_by (p : N -> bool) (t : str) : str :=
  rev (lstrip_by p (rev t)).

Definition strip_by (p : N -> bool) (t : str) : str :=
  rstrip_by p (lstrip_by p t).

(** [t.strip()] *)
Definition strip (t : str) : str := strip_by isspace t.

(** [t.strip('|')] *)
Definition strip_chars (cs : str) (t : str) : str :=
  strip_by (fun c => existsb (N.eqb c) cs) t.

(** [t.startswith(p)] *)
Fixpoint startswith (p t : str) : bool :=
  match p, t with
  | [], _ => true
  | x :: p', y :: t' => (x =? y) && startswith p' t'
  | _ :: _, [] => false
  end.

(** [t.endswith(p)] *)
Definition endswith (p t : str) : bool := startswith (rev p) (rev t).

(** [sep in t] for a one-character [sep]. *)
Definition contains (sep : N) (t : str) : bool := existsb (N.eqb sep) t.

(** [t.split(sep)] for a one-character separator. *)
Fixpoint split (sep : N) (t : str) : list str :=
  match t with
  | [] => [[]]
  | c :: t' =>
      if c =? sep then [] :: split sep t'
      else match split sep t' with
           | h :: r => (c :: h) :: r
           | [] => [[c]]
           end
  end.

(** [sep.join(parts)] *)
Fixpoint join (sep : str) (parts : list str) : str :=
  match parts with
  | [] => []
  | [p] => p
  | p :: rest => p ++ sep ++ join sep rest
  end.

(** [t.replace(old, new)] for a non-empty [old]: leftmost, non-overlapping
    occurrences.  [skip] counts the code points of an occurrence that are
    still to be passed over. *)
Fixpoint replace_from (old new : str) (skip : nat) (t : str) : str :=
  match t with
  | [] => []
  | c :: t' =>
      match skip with
      | S k => replace_from old new k t'
      | O =>
          if startswith old t
          then new ++ replace_from old new (Nat.pred (length old)) t'
          else c :: replace_from old new O t'
      end
  end.

Definition replace (old new t : str) : str := replace_from old new O t.

(** Decimal rendering of a natural number, as an f-string does. *)
Fixpoint str_of_uint (d : Decimal.uint) : str :=
  match d with
  | Decimal.Nil => []
  | Decimal.D0 d' => 48 :: str_of_uint d'
  | Decimal.D1 d' => 49 :: str_of_uint d'
  | Decimal.D2 d' => 50 :: str_of_uint d'
  | Decimal.D3 d' => 51 :: str_of_uint d'
  | Decimal.D4 d' => 52 :: str_of_uint d'
  | Decimal.D5 d' => 53 :: str_of_uint d'
  | Decimal.D6 d' => 54 :: str_of_uint d'
  | Decimal.D7 d' => 55 :: str_of_uint d'
  | Decimal.D8 d' => 56 :: str_of_uint d'
  | Decimal.D9 d' => 57 :: str_of_uint d'
  end.

Definition str_of_nat (n : nat) : str := str_of_uint (Nat.to_uint n).

(** ** Regular expressions *)

(** One item of a bracketed character set. *)
Inductive cset_item :=
| CChar (c : N)            (* a literal *)
| CRange (lo hi : N)       (* lo-hi *)
| CSpace                   (* \s *)
| CWord                    (* \w *)
| CDigit.                  (* \d *)

Inductive regex :=
| Eps
| Lit (c : N)                                   (* a literal character *)
| Dot                                           (* .  (anything but a line feed) *)
| Cls (negated : bool) (items : list cset_item) (* [...] and [^...] *)
| Seq (r1 r2 : regex)
| Rep (greedy : bool) (lo : nat) (hi : option nat) (r : regex)
| Grp (n : nat) (r : regex)                     (* the n-th capturing group *)
| Bol                                           (* ^ *)
| Eol                                           (* $ *)
| NotBehind (items : list cset_item)            (* (?<![...]) *)
| NotAhead (items : list cset_item).            (* (?![...]) *)

Definition cat (rs : list regex) : regex := fold_right Seq Eps rs.

(** The quantifiers of the source. *)
Definition star r := Rep true 0 None r.           (* r*    *)
Definition plus r := Rep true 1 None r.           (* r+    *)
Definition opt r := Rep true 0 (Some 1%nat) r.    (* r?    *)
Definition lazy_plus r := Rep false 1 None r.     (* r+?   *)
Definition exactly n r := Rep true n (Some n) r.  (* r{n}  *)
Definition at_least n r := Rep true n None r.     (* r{n,} *)
Definition between n m r := Rep true n (Some m) r.  (* r{n,m} *)
Definition chr (x : string) : regex :=
  match py x with c :: _ => Lit c | [] => Eps end.
Definition cc (x : string) : cset_item :=
  match py x with c :: _ => CChar c | [] => CChar 0 end.
Definition rng (x y : string) : cset_item :=
  match py x, py y with
  | a :: _, b :: _ => CRange a b
  | _, _ => CRange 1 0
  end.

(** The position of the matcher: the code point before the cursor (none at
    the start of the string), the text from the cursor on, and the groups
    captured so far (the latest binding of a group first). *)
Record mstate := MState {
  prev : option N;
  rest : str;
  caps : list (nat * str)
}.

Definition advance (st : mstate) : option mstate :=
  match rest st with
  | c :: t => Some (MState (Some c) t (caps st))
  | [] => None
  end.

Definition group (n : nat) (cs : list (nat * str)) : str :=
  match List.find (fun p => Nat.eqb (fst p) n) cs with
  | Some p => snd p
  | None => []
  end.

(** The text consumed between two positions of one match. *)
Definition consumed (st st' : mstate) : str :=
  firstn (length (rest st) - length (rest st')) (rest st).

(** ** Parser objects *)

(** A heading record: level, slug, raw text. *)
Definition heading : Type := nat * str * str.

Record MarkdownParser := { headings : list heading }.

(** The object store: a parser object is named by its index. *)
Abbreviation store := (list MarkdownParser) (only parsing).
Abbreviation obj := nat (only parsing).

(** [MarkdownParser()]: a new object, whose [__init__] sets an empty
    heading list. *)
Definition new_parser (σ : store) : obj * store :=
  (length σ, σ ++ [{| headings := [] |}]).

(** [self.headings] *)
Definition get_headings (σ : store) (self : obj) : list heading :=
  match σ !! self with
  | Some p => headings p
  | None => []
  end.

(** [self.headings = hs] *)
Definition set_headings (σ : store) (self : obj) (hs : list heading) : store :=
  <[self := {| headings := hs |}]> σ.

Section Parser.

Variable udb : unicode_db.

Definition isalnum (c : N) : bool :=
  if is_ascii c then ascii_upper c || ascii_lower c || ascii_digit c
  else uni_isalnum udb c.

Definition isdecimal (c : N) : bool :=
  if is_ascii c then ascii_digit c else uni_isdecimal udb c.

(** [t.lower()] *)
Definition lower (t : str) : str :=
  if forallb is_ascii t
  then List.map (fun c => if ascii_upper c then c + 32 else c) t
  else uni_lower udb t.

Definition in_item (c : N) (it : cset_item) : bool :=
  match it with
  | CChar x => c =? x
  | CRange lo hi => (lo <=? c) && (c <=? hi)
  | CSpace => isspace c
  | CWord => isalnum c || (c =? 95)
  | CDigit => isdecimal c
  end.

Definition in_set (c : N) (items : list cset_item) : bool :=
  existsb (in_item c) items.

(** One code point accepted by [p]. *)
Definition step_if (p : N -> bool) (k : mstate -> option mstate)
    (st : mstate) : option mstate :=
  match rest st with
  | c :: _ => if p c then match advance st with Some st' => k st' | None => None end
              else None
  | [] => None
  end.

(** A quantified sub-pattern, [n] iterations done.  A greedy quantifier
    tries one more iteration before it tries to stop, a lazy one stops
    first.  Every quantified sub-pattern of this program consumes at least
    one code point per iteration, so [fuel], one more than the length of
    the remaining text, is never used up. *)
Fixpoint rep_loop (m : (mstate -> option mstate) -> mstate -> option mstate)
    (greedy : bool) (lo : nat) (hi : option nat) (fuel n : nat)
    (k : mstate -> option mstate) (st : mstate) {struct fuel} : option mstate :=
  let may_iterate := match hi with Some h => Nat.ltb n h | None => true end in
  let may_stop := Nat.leb lo n in
  match fuel with
  | O => if may_stop then k st else None
  | S f =>
      if greedy then
        match (if may_iterate
               then m (rep_loop m greedy lo hi f (S n) k) st else None) with
        | Some r => Some r
        | None => if may_stop then k st else None
        end
      else
        match (if may_stop then k st else None) with
        | Some r => Some r
        | None => if may_iterate
                  then m (rep_loop m greedy lo hi f (S n) k) st else None
        end
  end.

(** The backtracking matcher, in continuation-passing style: [k] is the
    rest of the pattern, and the first alternative that lets [k] succeed
    wins, as in Python's [re]. *)
Fixpoint rmatch (r : regex) (k : mstate -> option mstate) (st : mstate)
    {struct r} : option mstate :=
  match r with
  | Eps => k st
  | Lit c => step_if (N.eqb c) k st
  | Dot => step_if (fun x => negb (x =? LF)) k st
  | Cls neg items => step_if (fun x => xorb neg (in_set x items)) k st
  | Seq r1 r2 => rmatch r1 (rmatch r2 k) st
  | Rep greedy lo hi r1 =>
      rep_loop (rmatch r1) greedy lo hi (S (length (rest st))) O k st
  | Grp n r1 =>
      rmatch r1
        (fun st' => k (MState (prev st') (rest st')
                              ((n, consumed st st') :: caps st'))) st
  | Bol => match prev st with None => k st | Some _ => None end
  | Eol => match rest st with
           | [] => k st
           | [c] => if c =? LF then k st else None
           | _ => None
           end
  | NotBehind items =>
      match prev st with
      | Some c => if in_set c items then None else k st
      | None => k st
      end
  | NotAhead items =>
      match rest st with
      | c :: _ => if in_set c items then None else k st
      | [] => k st
      end
  end.

(** [re.match(r, t)]: a match that starts at the start of [t]. *)
Definition re_match (r : regex) (t : str) : option mstate :=
  rmatch r Some (MState None t []).

Definition matches (r : regex) (t : str) : bool :=
  match re_match r t with Some _ => true | None => false end.

(** A replacement template: literal text and group references [\n]. *)
Inductive tpl_item := TLit (t : str) | TGrp (n : nat).

Definition expand (tpl : list tpl_item) (cs : list (nat * str)) : str :=
  flat_map (fun it => match it with TLit t => t | TGrp n => group n cs end) tpl.

(** [pattern.sub(repl, t)]: the leftmost match is replaced and the search
    goes on after it; a code point where no match starts is copied.
    [skip] counts the code points of the last match still to be passed
    over.  No pattern of this program matches the empty string. *)
Fixpoint sub_from (r : regex) (tpl : list tpl_item) (p : option N)
    (skip : nat) (t : str) : str :=
  match t with
  | [] => []
  | c :: t' =>
      match skip with
      | S k => sub_from r tpl (Some c) k t'
      | O =>
          match rmatch r Some (MState p t []) with
          | Some st' =>
              match (length t - length (rest st'))%nat with
              | O => expand tpl (caps st') ++ c :: sub_from r tpl (Some c) O t'
              | S k => expand tpl (caps st') ++ sub_from r tpl (Some c) k t'
              end
          | None => c :: sub_from r tpl (Some c) O t'
          end
      end
  end.

Definition re_sub (r : regex) (tpl : list tpl_item) (t : str) : str :=
  sub_from r tpl None O t.

(** ** The inline transformer *)

Definition alnum_ascii : list cset_item := [rng "a" "z"; rng "A" "Z"; rng "0" "9"].

Definition strong_em : list tpl_item :=
  [TLit (py "<strong><em>"); TGrp 1; TLit (py "</em></strong>")].
Definition strong : list tpl_item :=
  [TLit (py "<strong>"); TGrp 1; TLit (py "</strong>")].
Definition em : list tpl_item := [TLit (py "<em>"); TGrp 1; TLit (py "</em>")].

Definition rule_image : regex * list tpl_item :=
  (cat [chr "!"; chr "["; Grp 1 (star (Cls true [cc "]"])); chr "]"; chr "(";
        Grp 2 (plus (Cls true [cc ")"])); chr ")"],
   [TLit (py "<img src=" ++ dq); TGrp 2; TLit (dq ++ py " alt=" ++ dq); TGrp 1;
    TLit (dq ++ py ">")]).
Definition rule_link : regex * list tpl_item :=
  (cat [chr "["; Grp 1 (plus (Cls true [cc "]"])); chr "]"; chr "(";
        Grp 2 (plus (Cls true [cc ")"])); chr ")"],
   [TLit (py "<a href=" ++ dq); TGrp 2; TLit (dq ++ py ">"); TGrp 1; TLit (py "</a>")]).
Definition rule_code : regex * list tpl_item :=
  (cat [chr "`"; Grp 1 (plus (Cls true [cc "`"])); chr "`"],
   [TLit (py "<code>"); TGrp 1; TLit (py "</code>")]).
Definition rule_star3 : regex * list tpl_item :=
  (cat [exactly 3 (chr "*"); Grp 1 (lazy_plus Dot); exactly 3 (chr "*")], strong_em).
Definition rule_under3 : regex * list tpl_item :=
  (cat [exactly 3 (chr "_"); Grp 1 (lazy_plus Dot); exactly 3 (chr "_")], strong_em).
Definition rule_star2 : regex * list tpl_item :=
  (cat [exactly 2 (chr "*"); Grp 1 (lazy_plus Dot); exactly 2 (chr "*")], strong).
Definition rule_under2 : regex * list tpl_item :=
  (cat [exactly 2 (chr "_"); Grp 1 (lazy_plus Dot); exactly 2 (chr "_")], strong).
Definition rule_star1 : regex * list tpl_item :=
  (cat [chr "*"; Grp 1 (lazy_plus Dot); chr "*"], em).
Definition rule_under1 : regex * list tpl_item :=
  (cat [NotBehind alnum_ascii; chr "_"; Grp 1 (lazy_plus Dot); chr "_";
        NotAhead alnum_ascii], em).
Definition rule_del : regex * list tpl_item :=
  (cat [chr "~"; chr "~"; Grp 1 (lazy_plus Dot); chr "~"; chr "~"],
   [TLit (py "<del>"); TGrp 1; TLit (py "</del>")]).

Definition INLINE_RULES : list (regex * list tpl_item) :=
  [rule_image; rule_link; rule_code; rule_star3; rule_under3;
   rule_star2; rule_under2; rule_star1; rule_under1; rule_del].

Definition parse_inline (text : str) : str :=
  fold_left (fun t rule => re_sub (fst rule) (snd rule) t) INLINE_RULES text.

(** ** The patterns of the block splitter

    Each pattern of the source is quoted with blanks between its parts. *)

Definition ws : regex := Cls false [CSpace].

(** [^ (#{1,6}) \s+ (.+) $] *)
Definition re_heading : regex :=
  cat [Bol; Grp 1 (between 1 6 (chr "#")); plus ws; Grp 2 (plus Dot); Eol].

(** [[^ \w U+4E00-U+9FFF - ]] *)
Definition re_slug : regex := Cls true [CWord; CRange 19968 40959; cc "-"].

(** [^ ( \s* [-*_] \s* ){3,} $] *)
Definition re_hr : regex :=
  cat [Bol;
       at_least 3 (Grp 1 (cat [star ws; Cls false [cc "-"; cc "*"; cc "_"]; star ws]));
       Eol].

(** [^ ( \s* ) ([-*+]) \s+] *)
Definition re_ul : regex :=
  cat [Bol; Grp 1 (star ws); Grp 2 (Cls false [cc "-"; cc "*"; cc "+"]); plus ws].

(** [^ ( \s* ) \d+ \. \s+] *)
Definition re_ol : regex :=
  cat [Bol; Grp 1 (star ws); plus (Cls false [CDigit]); chr "."; plus ws].

(** [^ [\s|:-]+ $] *)
Definition re_delim : regex :=
  cat [Bol; plus (Cls false [CSpace; cc "|"; cc ":"; cc "-"]); Eol].

(** [^ > \s?] *)
Definition re_quote : regex := cat [Bol; chr ">"; opt ws].

Definition fence : str := py "```".

Definition nonempty (t : str) : bool :=
  match t with [] => false | _ :: _ => true end.

(** ** Block handlers *)

(** [_esc] *)
Definition _esc (t : str) : str :=
  replace dq (py "&quot;")
    (replace (py ">") (py "&gt;")
       (replace (py "<") (py "&lt;")
          (replace (py "&") (py "&amp;") t))).

(** The loop of [_code_block] over the lines from [i] on. *)
Fixpoint code_lines (ls : list str) (i : nat) (out : list str) : list str * nat :=
  match ls with
  | [] => (out, i)
  | l :: ls' =>
      if str_eqb (strip l) fence then (out, S i)
      else code_lines ls' (S i) (out ++ [_esc l])
  end.

Definition _code_block (lines : list str) (s : nat) : str * nat :=
  let lang := strip (skipn 3 (strip (get lines s))) in
  let attr := if nonempty lang
              then py " class=" ++ dq ++ py "language-" ++ lang ++ dq else [] in
  let '(out, i) := code_lines (skipn (S s) lines) (S s) [] in
  (py "<pre><code" ++ attr ++ py ">" ++ join [LF] out ++ py "</code></pre>", i).

(** The loop of [_blockquote]. *)
Fixpoint quote_lines (ls : list str) (i : nat) (ql : list str) : list str * nat :=
  match ls with
  | [] => (ql, i)
  | l :: ls' =>
      if startswith (py ">") (strip l)
      then quote_lines ls' (S i) (ql ++ [re_sub re_quote [] l])
      else (ql, i)
  end.

(** [_blockquote]; [nested] is [MarkdownParser().parse], which may touch
    the store and has no result when it does not return. *)
Definition _blockquote (nested : str -> store -> option (str * store))
    (lines : list str) (s : nat) (σ : store) : option (str * nat * store) :=
  let '(ql, i) := quote_lines (skipn s lines) s [] in
  match nested (join [LF] ql) σ with
  | Some (inner, σ') =>
      Some (py "<blockquote>" ++ [LF] ++ inner ++ [LF] ++ py "</blockquote>", i, σ')
  | None => None
  end.

(** The loop shared by [_ul] and [_ol], which differ in the pattern. *)
Fixpoint item_lines (r : regex) (ls : list str) (i : nat) (items : list str)
    : list str * nat :=
  match ls with
  | [] => (items, i)
  | l :: ls' =>
      if matches r l
      then item_lines r ls' (S i) (items ++ [parse_inline (re_sub r [] l)])
      else (items, i)
  end.

Definition li (x : str) : str := py "  <li>" ++ x ++ py "</li>".

Definition _ul (lines : list str) (s : nat) : str * nat :=
  let '(items, i) := item_lines re_ul (skipn s lines) s [] in
  (py "<ul>" ++ [LF] ++ join [LF] (List.map li items) ++ [LF] ++ py "</ul>", i).

Definition _ol (lines : list str) (s : nat) : str * nat :=
  let '(items, i) := item_lines re_ol (skipn s lines) s [] in
  (py "<ol>" ++ [LF] ++ join [LF] (List.map li items) ++ [LF] ++ py "</ol>", i).

(** [sr] and [al], the local functions of [_table]. *)
Definition sr (l : str) : list str :=
  List.map strip (split 124 (strip_chars (py "|") (strip l))).

Definition al (l : str) : list str :=
  List.map (fun c =>
         if startswith (py ":") (strip c) && endswith (py ":") (strip c)
         then py "center"
         else if endswith (py ":") (strip c) then py "right" else py "left")
      (sr l).

(** [aligns[j] if j<len(aligns) else "left"] *)
Definition align_at (aligns : list str) (j : nat) : str :=
  if Nat.ltb j (length aligns) then get aligns j else py "left".

(** One [<th>] or [<td>] element of a row. *)
Definition cell (tag : str) (aligns : list str) (j : nat) (c : str) : str :=
  py "      <" ++ tag ++ py " style=" ++ dq ++ py "text-align:" ++ align_at aligns j
    ++ dq ++ py ">" ++ parse_inline c ++ py "</" ++ tag ++ py ">".

(** The cells of one row, over [enumerate]. *)
Definition row_cells (tag : str) (aligns : list str) (cells : list str) : str :=
  join [LF] (imap (cell tag aligns) cells).

(** The loop of [_table] over the body rows. *)
Fixpoint table_rows (aligns : list str) (ls : list str) (i : nat)
    (rows : list str) : list str * nat :=
  match ls with
  | [] => (rows, i)
  | l :: ls' =>
      if contains 124 l && nonempty (strip l)
      then table_rows aligns ls' (S i)
             (rows ++ [py "    <tr>" ++ [LF] ++ row_cells (py "td") aligns (sr l)
                         ++ [LF] ++ py "    </tr>"])
      else (rows, i)
  end.

(** [_table] reads [lines[s]] and [lines[s+1]] before its loop: an index
    that is not in the list raises IndexError, and there is no result. *)
Definition _table (lines : list str) (s : nat) : option (str * nat) :=
  match lines !! s, lines !! S s with
  | Some header, Some delimiter =>
      let hdr := sr header in
      let aligns := al delimiter in
      let ths := row_cells (py "th") aligns hdr in
      let '(rows, i) := table_rows aligns (skipn (S (S s)) lines) (S (S s)) [] in
      Some (py "<table>" ++ [LF] ++ py "  <thead>" ++ [LF] ++ py "    <tr>" ++ [LF] ++ ths
              ++ [LF] ++ py "    </tr>" ++ [LF] ++ py "  </thead>" ++ [LF]
              ++ py "  <tbody>" ++ [LF] ++ join [LF] rows ++ [LF] ++ py "  </tbody>" ++ [LF]
              ++ py "</table>", i)
  | _, _ => None
  end.

(** The test that ends a paragraph at a non-blank line. *)
Definition para_break (l : str) : bool :=
  startswith (py "#") (strip l) || startswith (py ">") (strip l)
  || startswith fence (strip l)
  || matches re_ul l || matches re_ol l || matches re_hr l.

(** The loop of [_paragraph]. *)
Fixpoint para_lines (ls : list str) (i : nat) (pl : list str) : list str * nat :=
  match ls with
  | [] => (pl, i)
  | l :: ls' =>
      if nonempty (strip l) then
        if para_break l then (pl, i) else para_lines ls' (S i) (pl ++ [l])
      else (pl, i)
  end.

Definition _paragraph (lines : list str) (s : nat) : str * nat :=
  let '(pl, i) := para_lines (skipn s lines) s [] in
  (py "<p>" ++ parse_inline (join (py " ") pl) ++ py "</p>", i).

(** ** Headings *)

(** [slug in ids] *)
Definition mem (x : str) (ids : list str) : bool := existsb (str_eqb x) ids.

(** [while slug in ids: slug = f'{base}-{c}'; c += 1].  The loop ends
    within [length ids] rounds ([uniq_loop_fresh]); [fuel] counts them. *)
Fixpoint uniq_loop (fuel : nat) (base : str) (c : nat) (slug : str)
    (ids : list str) : str :=
  if mem slug ids then
    match fuel with
    | S f => uniq_loop f base (S c) (base ++ py "-" ++ str_of_nat c) ids
    | O => slug
    end
  else slug.

(** The slug before it is made unique. *)
Definition slug_base (raw : str) (hs : list heading) : str :=
  let t := lower (re_sub re_slug [] raw) in
  if nonempty t then t else py "h-" ++ str_of_nat (length hs).

Definition make_slug (raw : str) (hs : list heading) : str :=
  let base := slug_base raw hs in
  let ids := List.map (fun h => snd (fst h)) hs in
  uniq_loop (length ids) base 1 base ids.

(** The heading branch of [parse], for a line that matched as [m]. *)
Definition heading_block (self : obj) (m : mstate) (σ : store) : str * store :=
  let lv := length (group 1 (caps m)) in
  let raw := strip (group 2 (caps m)) in
  let content := parse_inline raw in
  let hs := get_headings σ self in
  let slug := make_slug raw hs in
  (py "<h" ++ str_of_nat lv ++ py " id=" ++ dq ++ slug ++ dq ++ py ">" ++ content
     ++ py "</h" ++ str_of_nat lv ++ py ">",
   set_headings σ self (hs ++ [(lv, slug, raw)])).

(** ** The block splitter *)

(** One round of the loop of [parse] at a cursor [i < len(lines)]: the
    block appended to [html_parts] (none for a blank line), the new cursor
    and the new store.  The round has no result when the nested parse of a
    blockquote has none, or when the table handler has none. *)
Definition block_at (nested : str -> store -> option (str * store))
    (self : obj) (lines : list str) (i : nat) (σ : store)
    : option (option str * nat * store) :=
  let line := get lines i in
  if negb (nonempty (strip line)) then Some (None, S i, σ)
  else if startswith fence (strip line) then
    let '(h, i') := _code_block lines i in Some (Some h, i', σ)
  else match re_match re_heading line with
  | Some m =>
      let '(h, σ') := heading_block self m σ in Some (Some h, S i, σ')
  | None =>
      if matches re_hr line then Some (Some (py "<hr>"), S i, σ)
      else if startswith (py ">") (strip line) then
        match _blockquote nested lines i σ with
        | Some (h, i', σ') => Some (Some h, i', σ')
        | None => None
        end
      else if matches re_ul line then
        let '(h, i') := _ul lines i in Some (Some h, i', σ)
      else if matches re_ol line then
        let '(h, i') := _ol lines i in Some (Some h, i', σ)
      else if contains 124 line && Nat.ltb (S i) (length lines)
              && matches re_delim (get lines (S i)) then
        match _table lines i with
        | Some (h, i') => Some (Some h, i', σ)
        | None => None
        end
      else
        let '(h, i') := _paragraph lines i in Some (Some h, i', σ)
  end.

Definition append_part (html_parts : list str) (h : option str) : list str :=
  match h with
  | Some x => html_parts ++ [x]
  | None => html_parts
  end.

(** [while i < len(lines): ...].  The loop of the source need not end;
    [fuel] bounds the number of rounds, and there is no result when it is
    used up. *)
Fixpoint parse_loop (nested : str -> store -> option (str * store))
    (fuel : nat) (self : obj) (lines : list str) (i : nat)
    (html_parts : list str) (σ : store) : option (list str * store) :=
  if Nat.ltb i (length lines) then
    match fuel with
    | O => None
    | S f =>
        match block_at nested self lines i σ with
        | Some (h, i', σ') =>
            parse_loop nested f self lines i' (append_part html_parts h) σ'
        | None => None
        end
    end
  else Some (html_parts, σ).

(** The lines that [parse] works on. *)
Definition doc_lines (markdown : str) : list str :=
  split LF (replace [CR] [LF] (replace [CR; LF] [LF] markdown)).

(** [parse].  [fuel] bounds the rounds of the loop and the depth of the
    nested parsers of blockquotes. *)
Fixpoint parse (fuel : nat) (self : obj) (markdown : str) (σ : store)
    : option (str * store) :=
  match fuel with
  | O => None
  | S f =>
      let lines := doc_lines markdown in
      let σ0 := set_headings σ self [] in
      let nested := fun inner σ1 =>
        let '(o, σ2) := new_parser σ1 in parse f o inner σ2 in
      match parse_loop nested f self lines 0 [] σ0 with
      | Some (html_parts, σ') => Some (join [LF] html_parts, σ')
      | None => None
      end
  end.

(** ** The table of contents *)

Definition toc_item (h : heading) : str :=
  let '(lv, slug, text) := h in
  List.concat (repeat (py "  ") (lv - 1)%nat) ++ py "<li class=" ++ dq ++ py "toc-h"
    ++ str_of_nat lv ++ dq ++ py "><a href=" ++ dq ++ py "#" ++ slug ++ dq ++ py ">"
    ++ text ++ py "</a></li>".

(** [generate_toc]; it returns the store it was called in. *)
Definition generate_toc (self : obj) (σ : store) : str * store :=
  match get_headings σ self with
  | [] => ([], σ)
  | hs =>
      (py "<ul class=" ++ dq ++ py "toc-list" ++ dq ++ py ">" ++ [LF]
         ++ join [LF] (List.map toc_item hs) ++ [LF] ++ py "</ul>", σ)
  end.

End Parser.

(** * The helpers of [build.py] that work on the text of a post *)

(** [.] under [re.DOTALL]: any code point. *)
Definition any_char : regex := Cls true [].

(** [r*?] *)
Definition lazy_star r := Rep false 0 None r.

(** Every code point of a Python string but the line feed. *)
Definition not_lf : list cset_item := [CRange 0 9; CRange 11 1114111].

(** [^] and [$] under [re.MULTILINE]: at the start of the text or after a
    line feed, and at the end of the text or before a line feed. *)
Definition mbol : regex := NotBehind not_lf.
Definition meol : regex := NotAhead not_lf.

(** [^--- \s* \n (.*?) \n --- \s* \n], with [re.DOTALL] *)
Definition re_frontmatter : regex :=
  cat [Bol; chr "-"; chr "-"; chr "-"; star ws; Lit LF; Grp 1 (lazy_star any_char);
       Lit LF; chr "-"; chr "-"; chr "-"; star ws; Lit LF].

(** [^# \s+ (.+) $], with [re.MULTILINE] *)
Definition re_title : regex :=
  cat [mbol; chr "#"; plus ws; Grp 1 (plus Dot); meol].

(** [^ \d+ \.] *)
Definition re_numbered : regex := cat [Bol; plus (Cls false [CDigit]); chr "."].

(** [[*_~`\[\]()]] *)
Definition re_markup : regex :=
  Cls false [cc "*"; cc "_"; cc "~"; cc "`"; cc "["; cc "]"; cc "("; cc ")"].

(** The starts of the lines that [extract_description] passes over. *)
Definition skipped_starts : list str :=
  [py "#"; py ">"; py "```"; py "|"; py "-"; py "*"; py "!"].

(** The two ellipsis characters put after a shortened description. *)
Definition ellipses : str := [8230; 8230].

(** [line.split(sep, 1)] for a line that holds [sep]: the text before the
    first [sep] and the text after it. *)
Fixpoint split_once (sep : N) (t : str) : str * str :=
  match t with
  | [] => ([], [])
  | c :: t' =>
      if c =? sep then ([], t')
      else let '(a, b) := split_once sep t' in (c :: a, b)
  end.

Section Build.

Variable udb : unicode_db.

(** The body of the loop of [parse_frontmatter] for one line. *)
Definition add_meta (meta : gmap str str) (line : str) : gmap str str :=
  if contains 58 line then
    let '(key, val) := split_once 58 line in
    <[lower udb (strip key) := strip val]> meta
  else meta.

(** [parse_frontmatter]: the dictionary of the metadata and the body. *)
Definition parse_frontmatter (text : str) : gmap str str * str :=
  match re_match udb re_frontmatter text with
  | Some m =>
      (fold_left add_meta (split LF (strip (group 1 (caps m)))) ∅, rest m)
  | None => (∅, text)
  end.

(** [re.search(r, t)]: the first position, from the left, at which [r]
    matches; [p] is the code point before the position. *)
Fixpoint search_from (r : regex) (p : option N) (t : str) : option mstate :=
  match rmatch udb r Some (MState p t []) with
  | Some m => Some m
  | None =>
      match t with
      | [] => None
      | c :: t' => search_from r (Some c) t'
      end
  end.

Definition re_search (r : regex) (t : str) : option mstate := search_from r None t.

(** [extract_title_from_body] *)
Definition extract_title_from_body (md_body : str) : str :=
  match re_search re_title md_body with
  | Some m => strip (group 1 (caps m))
  | None => []
  end.

(** [t[:n]] for an integer [n]: the first [n] characters, or, when [n] is
    negative, all but the last [-n]. *)
Definition slice_to (n : Z) (t : str) : str :=
  if (n <? 0)%Z then firstn (length t - Z.to_nat (- n)) t else firstn (Z.to_nat n) t.

(** The loop of [extract_description] over the lines of the body. *)
Fixpoint describe (max_len : Z) (ls : list str) : str :=
  match ls with
  | [] => []
  | l :: ls' =>
      let line := strip l in
      if negb (nonempty line) then describe max_len ls'
      else if existsb (fun p => startswith p line) skipped_starts then describe max_len ls'
      else if matches udb re_numbered line then describe max_len ls'
      else
        let clean := re_sub udb re_markup [] line in
        if (max_len <? Z.of_nat (length clean))%Z then slice_to max_len clean ++ ellipses
        else clean
  end.

(** [extract_description]; [max_len] is any integer, 120 unless the
    caller says otherwise. *)
Definition extract_description (md_body : str) (max_len : Z) : str :=
  describe max_len (split LF md_body).

(** What [build] does with the body of one post: a new parser, [parse]
    and [generate_toc] on it. *)
Definition render_post (fuel : nat) (body : str) : option (str * str) :=
  let '(parser, σ) := new_parser [] in
  match parse udb fuel parser body σ with
  | Some (html, σ') => Some (html, fst (generate_toc parser σ'))
  | None => None
  end.

End Build.

(** ** Definitions used to state the properties *)

(** A database that knows the CJK unified ideographs (U+4E00 to U+9FFF) as
    letters and nothing else outside ASCII; on the texts of the examples
    below it agrees with CPython's. *)
Definition cjk_db : unicode_db :=
  {| uni_isalnum := fun c => (19968 <=? c) && (c <=? 40959);
     uni_isdecimal := fun _ => false;
     uni_lower := List.map (fun c => if ascii_upper c then c + 32 else c) |}.

(** A store with one parser object, as [parser = MarkdownParser()] makes. *)
Definition one_parser : store := snd (new_parser []).

(** The nested parser of a blockquote, in a parse that has [f] fuel left. *)
Definition nested_parse (udb : unicode_db) (f : nat) (inner : str) (σ1 : store)
    : option (str * store) :=
  let '(o, σ2) := new_parser σ1 in parse udb f o inner σ2.

(** The ten inline rules, applied one after the other. *)
Definition apply_rule (udb : unicode_db) (rule : regex * list tpl_item) (t : str) : str :=
  re_sub udb (fst rule) (snd rule) t.

(** What [_esc] does to one code point: the ampersand, the two angle
    brackets and the double quote become entities. *)
Definition esc_char (c : N) : str :=
  if c =? 38 then py "&amp;"
  else if c =? 60 then py "&lt;"
  else if c =? 62 then py "&gt;"
  else if c =? 34 then py "&quot;"
  else [c].

(** A line that closes a code block: trimmed, it is three backticks. *)
Definition closes (l : str) : bool := str_eqb (strip l) fence.

(** The lines before the first closing line (all of them if there is none). *)
Fixpoint before_fence (ls : list str) : list str :=
  match ls with
  | [] => []
  | l :: ls' => if closes l then [] else l :: before_fence ls'
  end.

(** The alignment that a trimmed cell of the delimiter row stands for. *)
Definition align_of (c : str) : str :=
  if startswith (py ":") c && endswith (py ":") c then py "center"
  else if endswith (py ":") c then py "right"
  else py "left".

(** A cell element with its alignment and its rendered content. *)
Definition styled (tag align content : str) : str :=
  py "      <" ++ tag ++ py " style=" ++ dq ++ py "text-align:" ++ align ++ dq
    ++ py ">" ++ content ++ py "</" ++ tag ++ py ">".

(** A line that continues the body of a table. *)
Definition is_row (l : str) : bool := contains 124 l && nonempty (strip l).

Fixpoint row_run (ls : list str) : list str :=
  match ls with
  | [] => []
  | l :: ls' => if is_row l then l :: row_run ls' else []
  end.

(** One body row of a table. *)
Definition tr (udb : unicode_db) (aligns : list str) (l : str) : str :=
  py "    <tr>" ++ [LF] ++ row_cells udb (py "td") aligns (sr l) ++ [LF] ++ py "    </tr>".

(** A blank line: nothing is left of it when it is trimmed. *)
Definition blank (l : str) : Prop := strip l = [].

(** A document of blank lines: a blank, a line feed, a tab, a carriage
    return and a line feed. *)
Definition blank_doc : str := [32; LF; 9; CR; LF].

(** *** Slugs *)

Definition slug_of (h : heading) : str := snd (fst h).

(** The candidates tried for a slug: the base, then the base with the
    suffixes -1, -2, ... *)
Definition cand (base : str) (c : nat) : str :=
  match c with
  | O => base
  | S _ => base ++ py "-" ++ str_of_nat c
  end.

(** The code points that a slug keeps: word characters (alphanumerics and
    the underscore), CJK ideographs and the hyphen. *)
Definition keep (udb : unicode_db) (c : N) : bool :=
  isalnum udb c || (c =? 95) || ((19968 <=? c) && (c <=? 40959)) || (c =? 45).

(** The base of the slug of the heading number [k] (from 0): the kept code
    points of the raw text in lower case, or h-k when none is left. *)
Definition spec_base (udb : unicode_db) (raw : str) (k : nat) : str :=
  match lower udb (List.filter (keep udb) raw) with
  | [] => py "h-" ++ str_of_nat k
  | t => t
  end.

(** The base of a slug when only the removal and the lower case are
    applied: the kept code points of the raw text in lower case, also when
    none is left. *)
Definition stated_base (udb : unicode_db) (raw : str) : str :=
  lower udb (List.filter (keep udb) raw).

(** A heading whose text keeps no code point. *)
Definition marks_title : str := py "# !!!".

(** The heading text of the example: U+5F15 U+8A00. *)
Definition yinyan : str := [24341; 35328].

(** The document of the example: two headings of level 1 with the same
    text. *)
Definition two_yinyan : str := py "# " ++ yinyan ++ [LF] ++ py "# " ++ yinyan.

(** The documents of the examples: a heading inside a blockquote, and a
    heading with inline markup. *)
Definition quoted_title : str := py "> # Title".
Definition bold_title : str := py "# **A**".

(** A heading element. *)
Definition h_elem (lv : nat) (slug content : str) : str :=
  py "<h" ++ str_of_nat lv ++ py " id=" ++ dq ++ slug ++ dq ++ py ">" ++ content
    ++ py "</h" ++ str_of_nat lv ++ py ">".

(** *** Headings and the lines they come from *)

(** A nested parser that leaves alone every object that exists when it is
    called. *)
Definition frames (nested : str -> store -> option (str * store)) : Prop :=
  forall inner (σ : store) r (σ' : store),
    nested inner σ = Some (r, σ') ->
    (length σ <= length σ')%nat
    /\ forall p, (p < length σ)%nat -> σ' !! p = σ !! p.

(** The record that the heading branch appends for a line matched as [m],
    the list being [hs] before. *)
Definition record_of (udb : unicode_db) (m : mstate) (hs : list heading) : heading :=
  (length (group 1 (caps m)),
   make_slug udb (strip (group 2 (caps m))) hs,
   strip (group 2 (caps m))).

(** [recorded udb lines n hs]: the list [hs] is what the heading branch
    appends, in this order, at some lines before [n] taken from top to
    bottom. *)
Inductive recorded (udb : unicode_db) (lines : list str) : nat -> list heading -> Prop :=
| recorded_nil : recorded udb lines 0 []
| recorded_skip i i' hs :
    recorded udb lines i hs -> (i <= i')%nat -> recorded udb lines i' hs
| recorded_heading i hs m :
    recorded udb lines i hs -> (i < length lines)%nat ->
    re_match udb re_heading (get lines i) = Some m ->
    recorded udb lines (S i) (hs ++ [record_of udb m hs]).

(** The line [i] is a heading line, of the level and the raw text of [h]. *)
Definition heading_line (udb : unicode_db) (lines : list str) (i : nat) (h : heading)
    : Prop :=
  (i < length lines)%nat
  /\ exists m, re_match udb re_heading (get lines i) = Some m
               /\ fst (fst h) = length (group 1 (caps m))
               /\ snd h = strip (group 2 (caps m)).

(** The conclusion of [block_at_inv] for a round that moves the cursor from
    [i] to [i'] and the store from [σ] to [σ']. *)
Definition round_ok (udb : unicode_db) (self : obj) (lines : list str) (i i' : nat) (σ σ' : store) : Prop :=
  (length σ <= length σ')%nat
  /\ (forall p, (p < length σ)%nat -> p <> self -> σ' !! p = σ !! p)
  /\ (recorded udb lines i (get_headings σ self) ->
      recorded udb lines i' (get_headings σ' self)).

(** The state in which a parse of [lines] by [self], started in the store
    [σ], may end. *)
Definition parse_ok (udb : unicode_db) (self : obj) (lines : list str) (σ σ' : store) : Prop :=
  (length σ <= length σ')%nat
  /\ (forall p, (p < length σ)%nat -> p <> self -> σ' !! p = σ !! p)
  /\ exists n, recorded udb lines n (get_headings σ' self).

(** A line at which every round of the loop of [parse] moves on without a
    nested parser: it is no blockquote line, and if its trimmed form starts
    with a hash it is a heading line. *)
Definition plain_line (udb : unicode_db) (l : str) : Prop :=
  startswith (py ">") (strip l) = false
  /\ (startswith (py "#") (strip l) = true -> matches udb re_heading l = true).

(** *** The table of contents *)

(** The entry of the table of contents for a heading of level [lv], slug
    [slug] and link text [text]. *)
Definition toc_entry (lv : nat) (slug text : str) : str :=
  List.concat (repeat (py "  ") (lv - 1)%nat)
    ++ py "<li class=" ++ dq ++ py "toc-h" ++ str_of_nat lv ++ dq ++ py ">"
    ++ py "<a href=" ++ dq ++ py "#" ++ slug ++ dq ++ py ">" ++ text ++ py "</a></li>".

(** The table of contents whose link texts are [text_of] of the headings. *)
Definition toc_with (text_of : heading -> str) (hs : list heading) : str :=
  match hs with
  | [] => []
  | _ => py "<ul class=" ++ dq ++ py "toc-list" ++ dq ++ py ">" ++ [LF]
           ++ join [LF] (List.map (fun h => toc_entry (fst (fst h)) (slug_of h) (text_of h)) hs)
           ++ [LF] ++ py "</ul>"
  end.

(** The link text as recorded (the raw text), and as rendered. *)
Definition raw_text (h : heading) : str := snd h.
Definition rendered_text (udb : unicode_db) (h : heading) : str :=
  parse_inline udb (snd h).

(** *** What a match of a pattern is

    A declarative reading of the patterns, against which the matcher is
    checked: [sem udb r st st'] says that [r] matches the text between the
    positions [st] and [st']. *)

Fixpoint iter_rel {A : Type} (n : nat) (R : A -> A -> Prop) (a b : A) : Prop :=
  match n with
  | O => a = b
  | S n' => exists m, R a m /\ iter_rel n' R m b
  end.

(** One code point accepted by [p] lies between the two positions. *)
Definition one_char (p : N -> bool) (st st' : mstate) : Prop :=
  exists c, p c = true /\ rest st = c :: rest st'
            /\ prev st' = Some c /\ caps st' = caps st.

Fixpoint sem (udb : unicode_db) (r : regex) (st st' : mstate) : Prop :=
  match r with
  | Eps => st' = st
  | Lit c => one_char (N.eqb c) st st'
  | Dot => one_char (fun x => negb (x =? LF)) st st'
  | Cls neg items => one_char (fun x => xorb neg (in_set udb x items)) st st'
  | Seq r1 r2 => exists mid, sem udb r1 st mid /\ sem udb r2 mid st'
  | Rep _ lo hi r1 =>
      exists j, (lo <= j)%nat
                /\ match hi with Some h => (j <= h)%nat | None => True end
                /\ iter_rel j (sem udb r1) st st'
  | Grp n r1 =>
      exists st1, sem udb r1 st st1
                  /\ st' = MState (prev st1) (rest st1) ((n, consumed st st1) :: caps st1)
  | Bol => prev st = None /\ st' = st
  | Eol => (rest st = [] \/ rest st = [LF]) /\ st' = st
  | NotBehind items =>
      match prev st with Some c => in_set udb c items = false | None => True end
      /\ st' = st
  | NotAhead items =>
      match rest st with c :: _ => in_set udb c items = false | [] => True end
      /\ st' = st
  end.

(** A code point with which every match of the pattern starts, when the
    shape of the pattern shows one. *)
Fixpoint leading (r : regex) : option N :=
  match r with
  | Lit c => Some c
  | Seq r1 r2 =>
      match r1 with
      | NotBehind _ | NotAhead _ | Bol => leading r2
      | _ => leading r1
      end
  | Rep _ (S _) _ r1 => leading r1
  | Grp _ r1 => leading r1
  | _ => None
  end.

(** The code point before the cursor once the matcher has passed over [a]. *)
Definition prev_after (pv : option N) (a : str) : option N :=
  fold_left (fun _ c => Some c) a pv.

(** The characters with which the inline rules find their matches: the
    opening bracket, the backtick, the star, the underscore and the tilde. *)
Definition inline_marker (c : N) : bool :=
  (c =? 91) || (c =? 96) || (c =? 42) || (c =? 95) || (c =? 126).

(** The characters that [_esc] replaces. *)
Definition html_special (c : N) : bool :=
  (c =? 38) || (c =? 60) || (c =? 62) || (c =? 34).

(** The lines at the head of [ls] that match the item pattern [r]. *)
Fixpoint item_run (udb : unicode_db) (r : regex) (ls : list str) : list str :=
  match ls with
  | [] => []
  | l :: ls' => if matches udb r l then l :: item_run udb r ls' else []
  end.

(** The lines at the head of [ls] that go into one paragraph: they are
    not blank and do not start another block. *)
Fixpoint para_run (udb : unicode_db) (ls : list str) : list str :=
  match ls with
  | [] => []
  | l :: ls' =>
      if nonempty (strip l) && negb (para_break udb l) then l :: para_run udb ls' else []
  end.

(** The lines at the head of [ls] whose trimmed form starts with the quote
    mark. *)
Fixpoint quote_run (ls : list str) : list str :=
  match ls with
  | [] => []
  | l :: ls' => if startswith (py ">") (strip l) then l :: quote_run ls' else []
  end.

(** A document with its line feeds written as a carriage return and a
    line feed, and as a carriage return alone. *)
Definition with_crlf (md : str) : str :=
  flat_map (fun c => if c =? LF then [CR; LF] else [c]) md.
Definition with_cr (md : str) : str :=
  List.map (fun c => if c =? LF then CR else c) md.

(** *** Two runs of the parser side by side *)

(** Two parser objects, each in its store, with the same heading list. *)
Definition same_view (self1 : obj) (σ1 : store) (self2 : obj) (σ2 : store) : Prop :=
  (self1 < length σ1)%nat /\ (self2 < length σ2)%nat
  /\ get_headings σ1 self1 = get_headings σ2 self2.

(** Two outcomes that agree: both are missing, or both have the same
    value and leave the two parser objects with the same heading list. *)
Definition alike {X : Type} (self1 self2 : obj) (r1 r2 : option (X * store)) : Prop :=
  match r1, r2 with
  | Some (x1, σ1), Some (x2, σ2) => x1 = x2 /\ same_view self1 σ1 self2 σ2
  | None, None => True
  | _, _ => False
  end.

(** Two nested parsers that return the same HTML in whatever stores they
    are called. *)
Definition agree (n1 n2 : str -> store -> option (str * store)) : Prop :=
  forall inner (σa σb : store),
    match n1 inner σa, n2 inner σb with
    | Some (r1, _), Some (r2, _) => r1 = r2
    | None, None => True
    | _, _ => False
    end.

(** What a caller sees of a parse: the HTML and the heading list of the
    parser object. *)
Definition outcome (self : obj) (r : option (str * store)) : option (str * list heading) :=
  option_map (fun x => (fst x, get_headings (snd x) self)) r.

(** The characters that [extract_description] removes from a line. *)
Definition markup_char (c : N) : bool :=
  (c =? 42) || (c =? 95) || (c =? 126) || (c =? 96)
  || (c =? 91) || (c =? 93) || (c =? 40) || (c =? 41).

(** The characters of the slug of a heading whose text is ASCII: small
    letters, digits, the underscore and the hyphen. *)
Definition slug_char (c : N) : bool :=
  ascii_lower c || ascii_digit c || (c =? 95) || (c =? 45).

(** ** Properties *)

Section Properties.

Variable udb : unicode_db.

Lemma parse_S f self markdown σ :
  parse udb (S f) self markdown σ =
  match parse_loop udb (nested_parse udb f) f self (doc_lines markdown) 0 []
          (set_headings σ self []) with
  | Some (html_parts, σ') => Some (join [LF] html_parts, σ')
  | None => None
  end.
Proof. reflexivity. Qed.

(** *** Inline rules *)

(** C5: the inline transformer applies the ten rules in the order image,
    link, code, triple star, triple underscore, double star, double
    underscore, star, underscore, strikethrough, each on the result of the
    one before; it turns three stars around x into strong around em, and
    leaves a_b_c alone, the underscore rule itself finding no match. *)
Theorem C5_inline_rules_in_order :
  (forall text,
     parse_inline udb text =
     apply_rule udb rule_del (apply_rule udb rule_under1 (apply_rule udb rule_star1
       (apply_rule udb rule_under2 (apply_rule udb rule_star2
         (apply_rule udb rule_under3 (apply_rule udb rule_star3
           (apply_rule udb rule_code (apply_rule udb rule_link
             (apply_rule udb rule_image text))))))))))
  /\ parse_inline udb (py "***x***") = py "<strong><em>x</em></strong>"
  /\ parse_inline udb (py "a_b_c") = py "a_b_c"
  /\ apply_rule udb rule_under1 (py "a_b_c") = py "a_b_c".
Proof.
  split; [intros text; reflexivity |].
  repeat split; vm_compute; reflexivity.
Qed.

(** *** The table of contents leaves the store alone *)

(** C10: generate_toc returns the store it was given, heading list
    included, and a second call returns the same string as the first. *)
Theorem C10_generate_toc_keeps_headings (self : obj) (σ : store) :
  snd (generate_toc self σ) = σ
  /\ get_headings (snd (generate_toc self σ)) self = get_headings σ self
  /\ fst (generate_toc self (snd (generate_toc self σ))) = fst (generate_toc self σ).
Proof.
  assert (E : snd (generate_toc self σ) = σ).
  { unfold generate_toc. destruct (get_headings σ self); reflexivity. }
  rewrite E. repeat split.
Qed.

(** *** Inputs on which the parser does not return *)

Lemma paragraph_at_hash :
  _paragraph udb [py "#hello"] 0 = (py "<p></p>", 0%nat).
Proof. vm_compute. reflexivity. Qed.

Lemma block_at_hash nested self σ :
  block_at udb nested self [py "#hello"] 0 σ = Some (Some (py "<p></p>"), 0%nat, σ).
Proof. vm_compute. reflexivity. Qed.

Lemma parse_loop_hash nested fuel self html_parts σ :
  parse_loop udb nested fuel self [py "#hello"] 0 html_parts σ = None.
Proof.
  revert html_parts. induction fuel as [| f IH]; intros html_parts.
  - reflexivity.
  - cbn [parse_loop]. change (Nat.ltb 0 (length [py "#hello"])) with true.
    cbv iota. rewrite block_at_hash. apply IH.
Qed.

(** C1, at the input [#hello]: the line is no heading (no blank after the
    hash), so it goes to the paragraph handler, which stops at once at a
    line that starts with a hash and returns the cursor it was given; the
    loop of parse then runs for ever, whatever the fuel. *)
Theorem C1_hash_line_never_returns (fuel : nat) (self : obj) (σ : store) :
  re_match udb re_heading (py "#hello") = None
  /\ _paragraph udb (doc_lines (py "#hello")) 0 = (py "<p></p>", 0%nat)
  /\ parse udb fuel self (py "#hello") σ = None.
Proof.
  split; [vm_compute; reflexivity |].
  split; [vm_compute; reflexivity |].
  destruct fuel as [| f]; [reflexivity |].
  rewrite parse_S. change (doc_lines (py "#hello")) with [py "#hello"].
  rewrite parse_loop_hash. reflexivity.
Qed.

Lemma block_at_indented_quote nested self σ :
  block_at udb nested self [py " > x"] 0 σ =
  match nested (py " > x") σ with
  | Some (inner, σ') =>
      Some (Some (py "<blockquote>" ++ [LF] ++ inner ++ [LF] ++ py "</blockquote>"),
            1%nat, σ')
  | None => None
  end.
Proof.
  unfold block_at.
  change (negb (nonempty (strip (get [py " > x"] 0)))) with false.
  change (startswith fence (strip (get [py " > x"] 0))) with false.
  change (re_match udb re_heading (get [py " > x"] 0)) with (@None mstate).
  change (matches udb re_hr (get [py " > x"] 0)) with false.
  change (startswith (py ">") (strip (get [py " > x"] 0))) with true.
  cbv iota. unfold _blockquote.
  change (quote_lines udb (skipn 0 [py " > x"]) 0 []) with ([py " > x"], 1%nat).
  cbv iota beta. change (join [LF] [py " > x"]) with (py " > x").
  destruct (nested (py " > x") σ) as [[inner σ'] |]; reflexivity.
Qed.

Lemma sub_from_quote_rest c t : sub_from udb re_quote [] (Some c) 0 t = t.
Proof.
  revert c. induction t as [| x t IH]; intros c; [reflexivity |].
  cbn [sub_from]. unfold re_quote at 1. cbn [cat fold_right rmatch prev].
  f_equal. apply IH.
Qed.

(** A line that starts with the quote mark loses the mark and, if one
    follows, one whitespace character. *)
Lemma quote_mark_stripped t :
  re_sub udb re_quote [] (62 :: t) =
  match t with
  | c :: t' => if isspace c then t' else t
  | [] => []
  end.
Proof.
  unfold re_sub. cbn [sub_from]. unfold re_quote at 1, opt, ws, chr.
  cbn [cat fold_right rmatch prev py List.map list_ascii_of_string].
  unfold step_if at 1. cbn [rest]. change (N_of_ascii ">" =? 62) with true.
  cbv iota. cbn [advance rest caps rmatch length rep_loop Nat.ltb Nat.leb].
  destruct t as [| c t']; [reflexivity |].
  unfold step_if at 1. cbn [rest in_set existsb in_item]. rewrite orb_false_r.
  cbn [xorb]. destruct (isspace c).
  - cbn [advance rest caps prev length rep_loop Nat.ltb Nat.leb].
    replace (S (S (length t')) - length t')%nat with 2%nat by lia.
    cbn [expand flat_map app sub_from]. apply sub_from_quote_rest.
  - cbn [rest length]. replace (S (S (length t')) - S (length t'))%nat with 1%nat by lia.
    cbn [expand flat_map app]. apply sub_from_quote_rest.
Qed.

(** C8: a line that starts with the quote mark is stripped of the mark and
    of one whitespace character after it.  At the line [ > x], whose
    trimmed form starts with the quote mark, so that it is a blockquote
    line, the mark is looked for at the start of the untrimmed line and
    nothing is stripped; the nested parser is given the same text again,
    and the recursion has no end. *)
Theorem C8_indented_quote_not_stripped (fuel : nat) (self : obj) (σ : store) :
  (forall t, re_sub udb re_quote [] (62 :: t) =
             match t with
             | c :: t' => if isspace c then t' else t
             | [] => []
             end)
  /\ startswith (py ">") (strip (py " > x")) = true
  /\ re_sub udb re_quote [] (py " > x") = py " > x"
  /\ quote_lines udb [py " > x"] 0 [] = ([py " > x"], 1%nat)
  /\ parse udb fuel self (py " > x") σ = None.
Proof.
  split; [exact quote_mark_stripped |].
  split; [vm_compute; reflexivity |].
  split; [vm_compute; reflexivity |].
  split; [vm_compute; reflexivity |].
  revert self σ. induction fuel as [| f IH]; intros self σ; [reflexivity |].
  rewrite parse_S. change (doc_lines (py " > x")) with [py " > x"].
  destruct f as [| f']; [reflexivity |].
  cbn [parse_loop]. change (Nat.ltb 0 (length [py " > x"])) with true. cbv iota.
  rewrite block_at_indented_quote.
  unfold nested_parse at 1. unfold new_parser. rewrite IH. reflexivity.
Qed.

(** *** String methods *)

Lemma str_eqb_eq a b : str_eqb a b = true <-> a = b.
Proof.
  revert b. induction a as [| x a IH]; intros [| y b]; simpl; try easy.
  rewrite andb_true_iff, N.eqb_eq, IH. split.
  - intros [-> ->]. reflexivity.
  - intros E. injection E as -> ->. split; reflexivity.
Qed.

Lemma lstrip_by_head p t :
  match lstrip_by p t with c :: _ => p c = false | [] => True end.
Proof.
  induction t as [| c t IH]; simpl; [exact I |].
  destruct (p c) eqn:E; [exact IH | exact E].
Qed.

Lemma lstrip_by_id p t :
  match t with c :: _ => p c = false | [] => True end -> lstrip_by p t = t.
Proof. destruct t as [| c t]; simpl; [reflexivity |]. intros ->. reflexivity. Qed.

Lemma lstrip_by_suffix p t : exists a, t = a ++ lstrip_by p t.
Proof.
  induction t as [| c t [a IH]]; simpl.
  - exists []. reflexivity.
  - destruct (p c).
    + exists (c :: a). simpl. f_equal. exact IH.
    + exists []. reflexivity.
Qed.

Lemma strip_by_idem p t : strip_by p (strip_by p t) = strip_by p t.
Proof.
  unfold strip_by, rstrip_by.
  set (u := lstrip_by p t). set (v := lstrip_by p (rev u)).
  assert (Hu : match u with c :: _ => p c = false | [] => True end)
    by apply lstrip_by_head.
  assert (Hv : match v with c :: _ => p c = false | [] => True end)
    by apply lstrip_by_head.
  assert (E1 : lstrip_by p (rev v) = rev v).
  { apply lstrip_by_id. destruct (lstrip_by_suffix p (rev u)) as [a Ha].
    fold v in Ha. apply (f_equal (@rev N)) in Ha.
    rewrite rev_involutive, rev_app_distr in Ha.
    destruct (rev v) as [| c w]; [exact I |].
    rewrite Ha in Hu. exact Hu. }
  rewrite E1, rev_involutive, (lstrip_by_id p v Hv). reflexivity.
Qed.

Lemma strip_idem t : strip (strip t) = strip t.
Proof. apply strip_by_idem. Qed.

Lemma replace_single a new t :
  replace [a] new t = flat_map (fun c => if a =? c then new else [c]) t.
Proof.
  unfold replace. induction t as [| c t IH]; [reflexivity |].
  cbn [replace_from startswith flat_map length Nat.pred].
  rewrite andb_true_r. destruct (a =? c); rewrite IH; reflexivity.
Qed.

Lemma flat_map_flat_map {A B C} (f : A -> list B) (g : B -> list C) l :
  flat_map g (flat_map f l) = flat_map (fun x => flat_map g (f x)) l.
Proof.
  induction l as [| x l IH]; [reflexivity |].
  cbn [flat_map]. rewrite flat_map_app, IH. reflexivity.
Qed.

Lemma _esc_flat_map t : _esc t = flat_map esc_char t.
Proof.
  unfold _esc, dq. change (py "&") with [38]. change (py "<") with [60].
  change (py ">") with [62]. rewrite !replace_single, !flat_map_flat_map.
  apply flat_map_ext. intros c. unfold esc_char.
  destruct (c =? 38) eqn:E1.
  { apply N.eqb_eq in E1. subst c. reflexivity. }
  destruct (c =? 60) eqn:E2.
  { apply N.eqb_eq in E2. subst c. reflexivity. }
  destruct (c =? 62) eqn:E3.
  { apply N.eqb_eq in E3. subst c. reflexivity. }
  destruct (c =? 34) eqn:E4.
  { apply N.eqb_eq in E4. subst c. reflexivity. }
  rewrite N.eqb_sym in E1. rewrite N.eqb_sym in E2.
  rewrite N.eqb_sym in E3. rewrite N.eqb_sym in E4.
  cbn [flat_map app]. rewrite E1. cbn [flat_map app]. rewrite E2.
  cbn [flat_map app]. rewrite E3. cbn [flat_map app]. rewrite E4. reflexivity.
Qed.

(** *** Fenced code blocks *)

Lemma code_lines_spec ls i out :
  code_lines ls i out =
  (out ++ List.map _esc (before_fence ls),
   (i + length (before_fence ls) + (if existsb closes ls then 1 else 0))%nat).
Proof.
  revert i out. induction ls as [| l ls IH]; intros i out.
  - cbn. rewrite app_nil_r. f_equal. lia.
  - cbn [code_lines before_fence existsb]. unfold closes at 1 2 3.
    destruct (str_eqb (strip l) fence) eqn:E.
    + cbn. rewrite app_nil_r. f_equal. lia.
    + rewrite IH. cbn [orb List.map length]. rewrite <- app_assoc. cbn [app].
      f_equal. lia.
Qed.

Lemma before_fence_open ls : existsb closes ls = false -> before_fence ls = ls.
Proof.
  induction ls as [| l ls IH]; [reflexivity |].
  cbn. destruct (closes l); [discriminate |]. intros H. rewrite IH; auto.
Qed.

Lemma before_fence_closed ls :
  existsb closes ls = true ->
  exists l tl, ls = before_fence ls ++ l :: tl /\ closes l = true.
Proof.
  induction ls as [| l ls IH]; [discriminate |].
  cbn. destruct (closes l) eqn:E.
  - intros _. exists l, ls. split; [reflexivity | exact E].
  - intros H. destruct (IH H) as (l' & tl & E1 & E2).
    exists l', tl. split; [cbn; f_equal; exact E1 | exact E2].
Qed.

Lemma before_fence_no_fence ls : forallb (fun l => negb (closes l)) (before_fence ls) = true.
Proof.
  induction ls as [| l ls IH]; [reflexivity |].
  cbn. destruct (closes l) eqn:E; [reflexivity |]. cbn. rewrite E. exact IH.
Qed.

(** C6: the code block that opens at line [s] holds the lines after it up
    to the first line whose trimmed form is three backticks, each with its
    ampersands, angle brackets and double quotes replaced by entities and
    nothing else changed; the cursor passes the closing line; without a
    closing line the block holds every remaining line and the cursor is the
    end of the document; the class attribute is there exactly when the
    language tag is not empty. *)
Theorem C6_code_block_verbatim (lines : list str) (s : nat) :
  (s < length lines)%nat ->
  let body := skipn (S s) lines in
  let lang := strip (skipn 3 (strip (get lines s))) in
  let attr := match lang with
              | [] => []
              | _ => py " class=" ++ dq ++ py "language-" ++ lang ++ dq
              end in
  _code_block lines s =
    (py "<pre><code" ++ attr ++ py ">"
       ++ join [LF] (List.map (flat_map esc_char) (before_fence body))
       ++ py "</code></pre>",
     (S s + length (before_fence body) + (if existsb closes body then 1 else 0))%nat)
  /\ forallb (fun l => negb (closes l)) (before_fence body) = true
  /\ (if existsb closes body
      then exists l tl, body = before_fence body ++ l :: tl /\ closes l = true
      else before_fence body = body
           /\ snd (_code_block lines s) = length lines).
Proof.
  intros Hs body lang attr.
  assert (E : _code_block lines s =
    (py "<pre><code" ++ attr ++ py ">"
       ++ join [LF] (List.map (flat_map esc_char) (before_fence body))
       ++ py "</code></pre>",
     (S s + length (before_fence body) + (if existsb closes body then 1 else 0))%nat)).
  { unfold _code_block. fold lang. fold body. rewrite code_lines_spec.
    cbn [app]. rewrite (map_ext _ _ _esc_flat_map).
    subst attr. destruct lang; reflexivity. }
  split; [exact E |]. split; [apply before_fence_no_fence |].
  destruct (existsb closes body) eqn:X.
  - apply before_fence_closed, X.
  - split; [apply before_fence_open, X |].
    rewrite E. cbn [snd]. rewrite (before_fence_open _ X).
    subst body. rewrite length_skipn. lia.
Qed.


(** *** Tables *)

Lemma al_spec l : al l = List.map align_of (sr l).
Proof.
  unfold al, sr. rewrite !List.map_map. apply map_ext. intros c.
  rewrite strip_idem. reflexivity.
Qed.

Lemma cell_spec tag aligns j c :
  cell udb tag aligns j c =
  styled tag (nth j aligns (py "left")) (parse_inline udb c).
Proof.
  unfold cell, styled, align_at, get.
  destruct (Nat.ltb_spec j (length aligns)) as [H | H].
  - rewrite (nth_indep aligns [] (py "left") H). reflexivity.
  - rewrite (nth_overflow aligns (py "left") H). reflexivity.
Qed.

Lemma row_cells_spec tag aligns cells :
  row_cells udb tag aligns cells =
  join [LF] (imap (fun j c => styled tag (nth j aligns (py "left")) (parse_inline udb c))
               cells).
Proof.
  unfold row_cells. f_equal. apply imap_ext. intros j c _. apply cell_spec.
Qed.

Lemma table_rows_spec aligns ls i rows :
  table_rows udb aligns ls i rows =
  (rows ++ List.map (tr udb aligns) (row_run ls), (i + length (row_run ls))%nat).
Proof.
  revert i rows. induction ls as [| l ls IH]; intros i rows.
  - cbn. rewrite app_nil_r. f_equal. lia.
  - cbn [table_rows row_run]. unfold is_row.
    destruct (contains 124 l && nonempty (strip l)).
    + rewrite IH. cbn [List.map length]. rewrite <- app_assoc. cbn [app].
      unfold tr. f_equal. lia.
    + cbn. rewrite app_nil_r. f_equal. lia.
Qed.

Lemma lookup_get (lines : list str) i :
  (i < length lines)%nat -> lines !! i = Some (get lines i).
Proof.
  intros Hi. destruct (lookup_lt_is_Some_2 lines i Hi) as [l E].
  rewrite E. unfold get. rewrite (nth_lookup_Some _ _ _ _ E). reflexivity.
Qed.

Lemma _table_in_range lines s :
  (S s < length lines)%nat ->
  _table udb lines s =
  Some (py "<table>" ++ [LF] ++ py "  <thead>" ++ [LF] ++ py "    <tr>" ++ [LF]
          ++ row_cells udb (py "th") (al (get lines (S s))) (sr (get lines s))
          ++ [LF] ++ py "    </tr>" ++ [LF] ++ py "  </thead>" ++ [LF]
          ++ py "  <tbody>" ++ [LF]
          ++ join [LF] (List.map (tr udb (al (get lines (S s))))
                          (row_run (skipn (S (S s)) lines)))
          ++ [LF] ++ py "  </tbody>" ++ [LF] ++ py "</table>",
        (S (S s) + length (row_run (skipn (S (S s)) lines)))%nat).
Proof.
  intros Hs. unfold _table.
  rewrite (lookup_get lines s) by lia. rewrite (lookup_get lines (S s)) by exact Hs.
  rewrite table_rows_spec. cbn [app]. reflexivity.
Qed.

Lemma _table_out_of_range lines s :
  (length lines <= S s)%nat -> _table udb lines s = None.
Proof.
  intros Hs. unfold _table.
  rewrite (proj2 (lookup_ge_None lines (S s))) by lia.
  destruct (lines !! s); reflexivity.
Qed.

(** C7: the alignment list is read off the trimmed cells of the delimiter
    row (colons on both sides: center; a colon at the end only: right;
    anything else: left); a row is rendered as one element per cell, the
    cell at position j taking the j-th alignment, or left when the list has
    no j-th entry; the table handler, at a header line that has a line
    after it, renders the header row with th, every body row with td, and
    returns the cursor after the last body row (without a line after the
    header line it has no result: the index is out of range).  The
    header A, B, C under the delimiter row of the claim comes out left,
    center, right; a fourth body cell comes out left; a row of one cell
    gives one element. *)
Theorem C7_table_alignment :
  (forall l, al l = List.map align_of (sr l))
  /\ (forall tag aligns cells,
        row_cells udb tag aligns cells =
        join [LF] (imap (fun j c => styled tag (nth j aligns (py "left"))
                                      (parse_inline udb c)) cells)
        /\ length (imap (cell udb tag aligns) cells) = length cells)
  /\ (forall lines s,
        (S s < length lines)%nat ->
        let aligns := al (get lines (S s)) in
        let body := row_run (skipn (S (S s)) lines) in
        _table udb lines s =
        Some (py "<table>" ++ [LF] ++ py "  <thead>" ++ [LF] ++ py "    <tr>" ++ [LF]
                ++ row_cells udb (py "th") aligns (sr (get lines s))
                ++ [LF] ++ py "    </tr>" ++ [LF] ++ py "  </thead>" ++ [LF]
                ++ py "  <tbody>" ++ [LF] ++ join [LF] (List.map (tr udb aligns) body)
                ++ [LF] ++ py "  </tbody>" ++ [LF] ++ py "</table>",
              (S (S s) + length body)%nat))
  /\ (forall lines s, (length lines <= S s)%nat -> _table udb lines s = None)
  /\ sr (py "|A|B|C|") = [py "A"; py "B"; py "C"]
  /\ al (py "|:--|:-:|--:|") = [py "left"; py "center"; py "right"]
  /\ row_cells udb (py "th") (al (py "|:--|:-:|--:|")) (sr (py "|A|B|C|")) =
     join [LF] [styled (py "th") (py "left") (py "A");
                styled (py "th") (py "center") (py "B");
                styled (py "th") (py "right") (py "C")]
  /\ row_cells udb (py "td") (al (py "|:--|:-:|--:|")) (sr (py "|1|2|3|4|")) =
     join [LF] [styled (py "td") (py "left") (py "1");
                styled (py "td") (py "center") (py "2");
                styled (py "td") (py "right") (py "3");
                styled (py "td") (py "left") (py "4")]
  /\ row_cells udb (py "td") (al (py "|:--|:-:|--:|")) (sr (py "| x |")) =
     styled (py "td") (py "left") (py "x").
Proof.
  split; [exact al_spec |].
  split; [intros tag aligns cells; split;
          [apply row_cells_spec | apply length_imap] |].
  split.
  { intros lines s Hs aligns body. apply _table_in_range, Hs. }
  split; [exact _table_out_of_range |].
  repeat split; vm_compute; reflexivity.
Qed.

(** *** Blank documents *)

Lemma block_at_blank nested self lines i σ :
  blank (get lines i) -> block_at udb nested self lines i σ = Some (None, S i, σ).
Proof. unfold blank, block_at. intros ->. reflexivity. Qed.

Lemma parse_loop_blank nested fuel self lines i html_parts σ :
  Forall blank lines -> (length lines <= i + fuel)%nat ->
  parse_loop udb nested fuel self lines i html_parts σ = Some (html_parts, σ).
Proof.
  intros Hb. revert i. induction fuel as [| f IH]; intros i Hf.
  - cbn [parse_loop]. destruct (Nat.ltb_spec i (length lines)); [lia | reflexivity].
  - cbn [parse_loop]. destruct (Nat.ltb_spec i (length lines)) as [Hi | Hi];
      [| reflexivity].
    rewrite block_at_blank.
    + cbn [append_part]. apply IH. lia.
    + rewrite List.Forall_forall in Hb. apply Hb. unfold get. apply nth_In, Hi.
Qed.

Lemma get_headings_reset σ self : get_headings (set_headings σ self []) self = [].
Proof.
  unfold get_headings, set_headings.
  destruct (decide (self < length σ)%nat) as [H | H].
  - rewrite list_lookup_insert_eq by exact H. reflexivity.
  - rewrite list_insert_ge by lia.
    rewrite (proj2 (lookup_ge_None σ self)) by lia. reflexivity.
Qed.

(** C9: when every line of the document is blank, parse, given more fuel
    than there are lines, returns the empty string and leaves an empty
    heading list, for which generate_toc returns the empty string; so it is
    for the empty document, which has one empty line. *)
Theorem C9_blank_document (fuel : nat) (self : obj) (md : str) (σ : store) :
  Forall blank (doc_lines md) ->
  (length (doc_lines md) < fuel)%nat ->
  parse udb fuel self md σ = Some ([], set_headings σ self [])
  /\ get_headings (set_headings σ self []) self = []
  /\ fst (generate_toc self (set_headings σ self [])) = []
  /\ forall f, parse udb (S (S f)) self [] σ = Some ([], set_headings σ self []).
Proof.
  intros Hb Hf. split; [| split; [| split]].
  - destruct fuel as [| f]; [lia |].
    rewrite parse_S, parse_loop_blank by (auto; lia). reflexivity.
  - apply get_headings_reset.
  - unfold generate_toc. rewrite get_headings_reset. reflexivity.
  - intros f. rewrite parse_S. change (doc_lines []) with [@nil N].
    rewrite parse_loop_blank; [reflexivity | | cbn; lia].
    constructor; [reflexivity | constructor].
Qed.

(** *** Slugs *)

Lemma mem_In x ids : mem x ids = true <-> In x ids.
Proof.
  unfold mem. rewrite existsb_exists. split.
  - intros (y & Hy & E). apply str_eqb_eq in E. subst y. exact Hy.
  - intros H. exists x. split; [exact H | apply str_eqb_eq; reflexivity].
Qed.

Lemma str_of_uint_inj d d' : str_of_uint d = str_of_uint d' -> d = d'.
Proof.
  revert d'. induction d; intros d' E; destruct d'; cbn in E;
    try discriminate; try reflexivity;
    injection E as E; try discriminate; f_equal; apply IHd; exact E.
Qed.

Lemma str_of_nat_inj n n' : str_of_nat n = str_of_nat n' -> n = n'.
Proof. intros E. apply Unsigned.to_uint_inj, str_of_uint_inj, E. Qed.

Lemma cand_inj base c c' : cand base c = cand base c' -> c = c'.
Proof.
  destruct c as [| c], c' as [| c']; cbn [cand]; intros E.
  - reflexivity.
  - rewrite <- (app_nil_r base) in E at 1. apply app_inv_head in E. discriminate.
  - rewrite <- (app_nil_r base) in E at 2. apply app_inv_head in E. discriminate.
  - apply app_inv_head in E. injection E as E. apply str_of_nat_inj, E.
Qed.

Lemma cands_NoDup base n : List.NoDup (List.map (cand base) (seq 0 n)).
Proof.
  apply Finite.Injective_map_NoDup; [| apply List.seq_NoDup].
  intros c c'. apply cand_inj.
Qed.

(** The loop that makes a slug unique, entered with the candidate number
    [c] while the earlier candidates are all taken: it returns the first
    candidate that is free. *)
Lemma uniq_loop_spec fuel base c ids :
  (forall c', (c' < c)%nat -> In (cand base c') ids) ->
  (length ids <= c + fuel)%nat ->
  exists c1, uniq_loop fuel base (S c) (cand base c) ids = cand base c1
             /\ ~ In (cand base c1) ids
             /\ forall c', (c' < c1)%nat -> In (cand base c') ids.
Proof.
  revert c. induction fuel as [| f IH]; intros c Hc Hlen.
  - cbn [uniq_loop]. destruct (mem (cand base c) ids) eqn:E.
    + exfalso. apply mem_In in E.
      assert (Hincl : incl (List.map (cand base) (seq 0 (S c))) ids).
      { intros x Hx. apply in_map_iff in Hx. destruct Hx as (c' & <- & Hc').
        apply in_seq in Hc'. destruct (Nat.eq_dec c' c) as [-> | Hne];
          [exact E | apply Hc; lia]. }
      pose proof (NoDup_incl_length (cands_NoDup base (S c)) Hincl) as Hl.
      rewrite length_map, length_seq in Hl. lia.
    + exists c. split; [reflexivity |]. split; [| exact Hc].
      intros Hin. apply mem_In in Hin. congruence.
  - cbn [uniq_loop]. destruct (mem (cand base c) ids) eqn:E.
    + apply mem_In in E. change (base ++ py "-" ++ str_of_nat (S c)) with (cand base (S c)).
      apply IH; [| lia].
      intros c' Hc'. destruct (Nat.eq_dec c' c) as [-> | Hne];
        [exact E | apply Hc; lia].
    + exists c. split; [reflexivity |]. split; [| exact Hc].
      intros Hin. apply mem_In in Hin. congruence.
Qed.

Lemma in_set_slug c :
  in_set udb c [CWord; CRange 19968 40959; cc "-"] = keep udb c.
Proof.
  unfold in_set, keep. cbn [existsb in_item cc py]. change (nth 0 _ _) with 45.
  rewrite orb_false_r, !orb_assoc. reflexivity.
Qed.

Lemma sub_from_slug p t : sub_from udb re_slug [] p 0 t = List.filter (keep udb) t.
Proof.
  revert p. induction t as [| c t IH]; intros p; [reflexivity |].
  cbn [sub_from List.filter]. unfold re_slug at 1. cbn [rmatch step_if rest advance].
  rewrite in_set_slug. destruct (keep udb c); cbn [xorb negb].
  - rewrite IH. reflexivity.
  - cbn [rest length]. replace (S (length t) - length t)%nat with 1%nat by lia.
    cbn [expand flat_map app]. apply IH.
Qed.

Lemma slug_base_spec raw hs : slug_base udb raw hs = spec_base udb raw (length hs).
Proof.
  unfold slug_base, spec_base, re_sub. rewrite sub_from_slug.
  destruct (lower udb (List.filter (keep udb) raw)); reflexivity.
Qed.

Lemma make_slug_spec raw hs :
  exists c, make_slug udb raw hs = cand (spec_base udb raw (length hs)) c
            /\ ~ In (cand (spec_base udb raw (length hs)) c) (List.map slug_of hs)
            /\ forall c', (c' < c)%nat ->
                 In (cand (spec_base udb raw (length hs)) c') (List.map slug_of hs).
Proof.
  unfold make_slug. rewrite slug_base_spec.
  change (List.map (fun h : heading => snd (fst h)) hs) with (List.map slug_of hs).
  apply (uniq_loop_spec _ _ 0); [intros c' Hc'; lia | apply Nat.le_refl].
Qed.

Lemma make_slug_fresh raw hs : ~ In (make_slug udb raw hs) (List.map slug_of hs).
Proof. destruct (make_slug_spec raw hs) as (c & -> & H & _). exact H. Qed.

(** *** The cursor never moves back *)

Lemma quote_lines_ge ls i ql : (i <= snd (quote_lines udb ls i ql))%nat.
Proof.
  revert i ql. induction ls as [| l ls IH]; intros i ql; cbn [quote_lines]; [cbn; lia |].
  destruct (startswith (py ">") (strip l)); [| cbn; lia].
  specialize (IH (S i) (ql ++ [re_sub udb re_quote [] l])). lia.
Qed.

Lemma item_lines_ge r ls i items : (i <= snd (item_lines udb r ls i items))%nat.
Proof.
  revert i items. induction ls as [| l ls IH]; intros i items; cbn [item_lines];
    [cbn; lia |].
  destruct (matches udb r l); [| cbn; lia].
  specialize (IH (S i) (items ++ [parse_inline udb (re_sub udb r [] l)])). lia.
Qed.

Lemma para_lines_ge ls i pl : (i <= snd (para_lines udb ls i pl))%nat.
Proof.
  revert i pl. induction ls as [| l ls IH]; intros i pl; cbn [para_lines]; [cbn; lia |].
  destruct (nonempty (strip l)); [| cbn; lia].
  destruct (para_break udb l); [cbn; lia |].
  specialize (IH (S i) (pl ++ [l])). lia.
Qed.

Lemma _code_block_ge lines s : (s <= snd (_code_block lines s))%nat.
Proof. unfold _code_block. rewrite code_lines_spec. cbn. lia. Qed.

Lemma _ul_ge lines s : (s <= snd (_ul udb lines s))%nat.
Proof.
  unfold _ul. pose proof (item_lines_ge re_ul (skipn s lines) s []) as H.
  destruct (item_lines udb re_ul (skipn s lines) s []). exact H.
Qed.

Lemma _ol_ge lines s : (s <= snd (_ol udb lines s))%nat.
Proof.
  unfold _ol. pose proof (item_lines_ge re_ol (skipn s lines) s []) as H.
  destruct (item_lines udb re_ol (skipn s lines) s []). exact H.
Qed.

Lemma _table_ge lines s h i :
  _table udb lines s = Some (h, i) -> (s <= i)%nat.
Proof.
  destruct (Nat.lt_ge_cases (S s) (length lines)) as [Hs | Hs].
  - rewrite (_table_in_range lines s Hs). intros [= <- <-]. lia.
  - rewrite (_table_out_of_range lines s Hs). discriminate.
Qed.

Lemma _paragraph_ge lines s : (s <= snd (_paragraph udb lines s))%nat.
Proof.
  unfold _paragraph. pose proof (para_lines_ge (skipn s lines) s []) as H.
  destruct (para_lines udb (skipn s lines) s []). exact H.
Qed.

(** *** What one round of the loop does to the store *)

Lemma get_headings_set (σ : store) self hs :
  (self < length σ)%nat -> get_headings (set_headings σ self hs) self = hs.
Proof.
  intros H. unfold get_headings, set_headings.
  rewrite list_lookup_insert_eq by exact H. reflexivity.
Qed.

Lemma get_headings_same (σ σ' : store) self :
  σ' !! self = σ !! self -> get_headings σ' self = get_headings σ self.
Proof. unfold get_headings. intros ->. reflexivity. Qed.

Lemma round_ok_same self lines i i' σ : (i <= i')%nat -> round_ok udb self lines i i' σ σ.
Proof.
  intros H. split; [lia |]. split; [reflexivity |].
  intros R. apply (recorded_skip _ _ i); assumption.
Qed.

Lemma block_at_inv nested self lines i (σ : store) h i' (σ' : store) :
  frames nested -> (self < length σ)%nat -> (i < length lines)%nat ->
  block_at udb nested self lines i σ = Some (h, i', σ') ->
  round_ok udb self lines i i' σ σ'.
Proof.
  intros Hn Hself Hi. unfold block_at.
  destruct (negb (nonempty (strip (get lines i)))).
  { intros [= <- <- <-]. apply round_ok_same. lia. }
  destruct (startswith fence (strip (get lines i))).
  { pose proof (_code_block_ge lines i) as G.
    destruct (_code_block lines i) as [h0 i0]. intros [= <- <- <-].
    apply round_ok_same, G. }
  destruct (re_match udb re_heading (get lines i)) as [m |] eqn:Em.
  { unfold heading_block. intros [= <- <- <-].
    split; [unfold set_headings; rewrite length_insert; lia |].
    split.
    - intros p _ Hp. unfold set_headings. apply list_lookup_insert_ne. congruence.
    - intros R. rewrite get_headings_set by exact Hself.
      apply (recorded_heading udb lines i _ m R Hi Em). }
  destruct (matches udb re_hr (get lines i)).
  { intros [= <- <- <-]. apply round_ok_same. lia. }
  destruct (startswith (py ">") (strip (get lines i))).
  { unfold _blockquote. pose proof (quote_lines_ge (skipn i lines) i []) as G.
    destruct (quote_lines udb (skipn i lines) i []) as [ql i0].
    destruct (nested (join [LF] ql) σ) as [[inner σ1] |] eqn:En; [| discriminate].
    intros [= <- <- <-]. destruct (Hn _ _ _ _ En) as [Hl Hp].
    split; [exact Hl |]. split; [intros p Hlt _; apply Hp, Hlt |].
    intros R. rewrite (get_headings_same σ σ1 self (Hp self Hself)).
    apply (recorded_skip _ _ i); [exact R | exact G]. }
  destruct (matches udb re_ul (get lines i)).
  { pose proof (_ul_ge lines i) as G.
    destruct (_ul udb lines i) as [h0 i0]. intros [= <- <- <-].
    apply round_ok_same, G. }
  destruct (matches udb re_ol (get lines i)).
  { pose proof (_ol_ge lines i) as G.
    destruct (_ol udb lines i) as [h0 i0]. intros [= <- <- <-].
    apply round_ok_same, G. }
  destruct (contains 124 (get lines i) && Nat.ltb (S i) (length lines)
            && matches udb re_delim (get lines (S i))).
  { pose proof (_table_ge lines i) as G.
    destruct (_table udb lines i) as [[h0 i0] |]; [| discriminate].
    intros [= <- <- <-]. apply round_ok_same, (G _ _ eq_refl). }
  pose proof (_paragraph_ge lines i) as G.
  destruct (_paragraph udb lines i) as [h0 i0]. intros [= <- <- <-].
  apply round_ok_same, G.
Qed.

Lemma parse_loop_inv nested fuel self lines :
  frames nested ->
  forall i html_parts (σ : store) html_parts' (σ' : store),
    (self < length σ)%nat ->
    parse_loop udb nested fuel self lines i html_parts σ = Some (html_parts', σ') ->
    recorded udb lines i (get_headings σ self) ->
    parse_ok udb self lines σ σ'.
Proof.
  intros Hn. induction fuel as [| f IH]; intros i parts σ parts' σ' Hself;
    cbn [parse_loop]; destruct (Nat.ltb_spec i (length lines)) as [Hi | Hi];
    try discriminate.
  - intros [= <- <-] R. split; [lia |]. split; [reflexivity |]. exists i. exact R.
  - destruct (block_at udb nested self lines i σ) as [[[h i1] σ1] |] eqn:Eb;
      [| discriminate].
    intros Hl R. destruct (block_at_inv _ _ _ _ _ _ _ _ Hn Hself Hi Eb) as (L1 & P1 & R1).
    assert (Hself1 : (self < length σ1)%nat) by lia.
    destruct (IH _ _ _ _ _ Hself1 Hl (R1 R)) as (L2 & P2 & R2).
    split; [lia |]. split; [| exact R2].
    intros p Hp Hne. rewrite P2 by (try lia; exact Hne). apply P1; assumption.
  - intros [= <- <-] R. split; [lia |]. split; [reflexivity |]. exists i. exact R.
Qed.

Lemma nested_parse_frames f :
  (forall self md (σ : store) html (σ' : store),
     (self < length σ)%nat -> parse udb f self md σ = Some (html, σ') ->
     parse_ok udb self (doc_lines md) σ σ') ->
  frames (nested_parse udb f).
Proof.
  intros IH inner σ r σ'. unfold nested_parse, new_parser. intros E.
  apply IH in E; [| rewrite length_app; cbn; lia].
  destruct E as (L & P & _). rewrite length_app in L. cbn in L.
  split; [lia |]. intros p Hp.
  rewrite P by (try (rewrite length_app; cbn); lia).
  apply lookup_app_l, Hp.
Qed.

Lemma parse_inv fuel :
  forall self md (σ : store) html (σ' : store),
    (self < length σ)%nat -> parse udb fuel self md σ = Some (html, σ') ->
    parse_ok udb self (doc_lines md) σ σ'.
Proof.
  induction fuel as [| f IH]; intros self md σ html σ' Hself; [discriminate |].
  rewrite parse_S.
  destruct (parse_loop udb (nested_parse udb f) f self (doc_lines md) 0 []
              (set_headings σ self [])) as [[parts σ1] |] eqn:El; [| discriminate].
  intros [= <- <-].
  apply parse_loop_inv in El.
  - destruct El as (L & P & R). unfold set_headings in L, P.
    rewrite length_insert in L, P. split; [exact L |]. split; [| exact R].
    intros p Hp Hne. rewrite P by assumption.
    apply list_lookup_insert_ne. congruence.
  - apply nested_parse_frames, IH.
  - unfold set_headings. rewrite length_insert. exact Hself.
  - rewrite get_headings_reset. constructor.
Qed.

(** *** What the recorded headings are *)

Lemma recorded_NoDup lines n hs :
  recorded udb lines n hs -> List.NoDup (List.map slug_of hs).
Proof.
  induction 1 as [| i i' hs R IH Hle | i hs m R IH Hi Em]; [constructor | exact IH |].
  rewrite List.map_app. cbn [List.map]. apply List.NoDup_app.
  - exact IH.
  - constructor; [intros [] | constructor].
  - intros x Hx [<- | []]. revert Hx. apply make_slug_fresh.
Qed.

Lemma recorded_slug lines n hs :
  recorded udb lines n hs ->
  forall k h, hs !! k = Some h -> slug_of h = make_slug udb (snd h) (take k hs).
Proof.
  induction 1 as [| i i' hs R IH Hle | i hs m R IH Hi Em]; intros k h Hk.
  - discriminate.
  - apply IH, Hk.
  - destruct (decide (k < length hs)%nat) as [Hlt | Hge].
    + rewrite lookup_app_l in Hk by exact Hlt.
      rewrite take_app_le by lia. apply IH, Hk.
    + assert (k = length hs) as ->.
      { apply lookup_lt_Some in Hk. rewrite length_app in Hk. cbn in Hk. lia. }
      rewrite list_lookup_middle in Hk by reflexivity. injection Hk as <-.
      rewrite take_app_length. reflexivity.
Qed.

Lemma sorted_snoc l a :
  StronglySorted lt l -> Forall (fun x => (x < a)%nat) l -> StronglySorted lt (l ++ [a]).
Proof.
  induction 1 as [| x l S IH F]; intros Fa; cbn [app].
  - constructor; constructor.
  - apply Forall_cons_iff in Fa as [Hx Fa]. constructor; [apply IH, Fa |].
    apply Forall_app. split; [exact F | constructor; [exact Hx | constructor]].
Qed.

Lemma recorded_lines lines n hs :
  recorded udb lines n hs ->
  exists idx, Forall2 (heading_line udb lines) idx hs
              /\ StronglySorted lt idx
              /\ Forall (fun i => (i < n)%nat) idx.
Proof.
  induction 1 as [| i i' hs R IH Hle | i hs m R IH Hi Em].
  - exists []. repeat split; constructor.
  - destruct IH as (idx & F & S & B). exists idx. split; [exact F |].
    split; [exact S |]. eapply List.Forall_impl; [| exact B]. cbn. intros; lia.
  - destruct IH as (idx & F & S & B). exists (idx ++ [i]).
    split; [| split].
    + apply Forall2_app; [exact F |]. constructor; [| constructor].
      split; [exact Hi |]. exists m. split; [exact Em |]. split; reflexivity.
    + apply sorted_snoc; assumption.
    + apply Forall_app. split.
      * eapply List.Forall_impl; [| exact B]. cbn. intros; lia.
      * constructor; [lia | constructor].
Qed.

(** A line that matches the heading pattern starts with a hash, and so does
    its trimmed form: it is no blockquote line. *)
Lemma heading_starts_with_hash l m :
  re_match udb re_heading l = Some m -> exists t, l = 35 :: t.
Proof.
  destruct l as [| c t]; [discriminate |].
  destruct (N.eqb_spec 35 c) as [<- | Hne]; [exists t; reflexivity |].
  apply N.eqb_neq in Hne.
  change re_heading with
    (Seq Bol (Seq (Grp 1 (Rep true 1 (Some 6%nat) (Lit 35)))
                  (cat [plus ws; Grp 2 (plus Dot); Eol]))).
  unfold re_match. cbn [rmatch prev rest length rep_loop Nat.ltb Nat.leb].
  unfold step_if at 1. cbn [rest]. rewrite Hne. discriminate.
Qed.

Lemma lstrip_by_snoc p a x :
  p x = false -> exists a', lstrip_by p (a ++ [x]) = a' ++ [x].
Proof.
  intros Hx. induction a as [| c a [a' IH]]; cbn [app lstrip_by].
  - rewrite Hx. exists []. reflexivity.
  - destruct (p c); [exists a'; exact IH | exists (c :: a); reflexivity].
Qed.

Lemma heading_not_quote l m :
  re_match udb re_heading l = Some m -> startswith (py ">") (strip l) = false.
Proof.
  intros H. destruct (heading_starts_with_hash l m H) as [t ->].
  unfold strip, strip_by, rstrip_by. cbn [lstrip_by]. change (isspace 35) with false.
  cbv iota. cbn [rev].
  destruct (lstrip_by_snoc isspace (rev t) 35 eq_refl) as [a' ->].
  rewrite rev_app_distr. reflexivity.
Qed.

(** *** Documents on which the parser returns *)

Lemma skipn_get (lines : list str) i :
  (i < length lines)%nat -> skipn i lines = get lines i :: skipn (S i) lines.
Proof.
  revert i. induction lines as [| l lines IH]; intros i Hi; [cbn in Hi; lia |].
  destruct i as [| i]; [reflexivity |].
  cbn [skipn get nth]. apply IH. cbn in Hi. lia.
Qed.

Lemma item_lines_gt r l ls i items :
  matches udb r l = true -> (i < snd (item_lines udb r (l :: ls) i items))%nat.
Proof.
  intros H. cbn [item_lines]. rewrite H.
  pose proof (item_lines_ge r ls (S i) (items ++ [parse_inline udb (re_sub udb r [] l)])).
  lia.
Qed.

Lemma para_lines_gt l ls i pl :
  nonempty (strip l) = true -> para_break udb l = false ->
  (i < snd (para_lines udb (l :: ls) i pl))%nat.
Proof.
  intros H1 H2. cbn [para_lines]. rewrite H1, H2.
  pose proof (para_lines_ge ls (S i) (pl ++ [l])). lia.
Qed.

(** A round at a plain line returns and moves the cursor forward. *)
Lemma block_at_plain nested self lines i (σ : store) :
  (i < length lines)%nat -> plain_line udb (get lines i) ->
  exists h i' (σ' : store),
    block_at udb nested self lines i σ = Some (h, i', σ') /\ (i < i')%nat.
Proof.
  intros Hi [Hq Hh]. unfold block_at.
  destruct (nonempty (strip (get lines i))) eqn:Eb; cbn [negb];
    [| eexists _, _, _; split; [reflexivity | lia]].
  destruct (startswith fence (strip (get lines i))) eqn:Ef.
  { unfold _code_block. rewrite code_lines_spec.
    eexists _, _, _. split; [reflexivity | lia]. }
  unfold matches in Hh.
  destruct (re_match udb re_heading (get lines i)) as [m |] eqn:Em.
  { destruct (heading_block udb self m σ) as [h0 σ0].
    eexists _, _, _. split; [reflexivity | lia]. }
  destruct (matches udb re_hr (get lines i)) eqn:Er;
    [eexists _, _, _; split; [reflexivity | lia] |].
  rewrite Hq.
  destruct (matches udb re_ul (get lines i)) eqn:Eu.
  { pose proof (item_lines_gt re_ul _ (skipn (S i) lines) i [] Eu) as G.
    unfold _ul. rewrite (skipn_get lines i Hi).
    destruct (item_lines udb re_ul (get lines i :: skipn (S i) lines) i []).
    eexists _, _, _. split; [reflexivity | exact G]. }
  destruct (matches udb re_ol (get lines i)) eqn:Eo.
  { pose proof (item_lines_gt re_ol _ (skipn (S i) lines) i [] Eo) as G.
    unfold _ol. rewrite (skipn_get lines i Hi).
    destruct (item_lines udb re_ol (get lines i :: skipn (S i) lines) i []).
    eexists _, _, _. split; [reflexivity | exact G]. }
  destruct (contains 124 (get lines i) && Nat.ltb (S i) (length lines)
            && matches udb re_delim (get lines (S i))) eqn:Et.
  { apply andb_true_iff in Et as [Et _]. apply andb_true_iff in Et as [_ Et].
    apply Nat.ltb_lt in Et. rewrite (_table_in_range lines i Et).
    eexists _, _, _. split; [reflexivity | lia]. }
  assert (Hp : para_break udb (get lines i) = false).
  { unfold para_break. rewrite Hq, Ef, Eu, Eo, Er.
    destruct (startswith (py "#") (strip (get lines i))); [| reflexivity].
    specialize (Hh eq_refl). discriminate Hh. }
  pose proof (para_lines_gt _ (skipn (S i) lines) i [] Eb Hp) as G.
  unfold _paragraph. rewrite (skipn_get lines i Hi).
  destruct (para_lines udb (get lines i :: skipn (S i) lines) i []).
  eexists _, _, _. split; [reflexivity | exact G].
Qed.

Lemma parse_loop_plain nested fuel self lines :
  Forall (plain_line udb) lines ->
  forall i html_parts (σ : store),
    (length lines <= i + fuel)%nat ->
    exists html_parts' (σ' : store),
      parse_loop udb nested fuel self lines i html_parts σ = Some (html_parts', σ').
Proof.
  intros Hl. induction fuel as [| f IH]; intros i parts σ Hf; cbn [parse_loop];
    destruct (Nat.ltb_spec i (length lines)) as [Hi | Hi];
    try (eexists _, _; reflexivity); [lia |].
  assert (Hp : plain_line udb (get lines i)).
  { rewrite List.Forall_forall in Hl. apply Hl. unfold get. apply nth_In, Hi. }
  destruct (block_at_plain nested self lines i σ Hi Hp) as (h & i' & σ' & E & Hlt).
  rewrite E. apply IH. lia.
Qed.

(** On a document without blockquote lines in which every line that starts
    with a hash is a heading line, parse returns when it is given more fuel
    than the document has lines. *)
Theorem parse_returns_on_plain_lines (fuel : nat) (self : obj) (md : str) (σ : store) :
  Forall (plain_line udb) (doc_lines md) ->
  (length (doc_lines md) < fuel)%nat ->
  exists html (σ' : store), parse udb fuel self md σ = Some (html, σ').
Proof.
  intros Hl Hf. destruct fuel as [| f]; [lia |]. rewrite parse_S.
  destruct (parse_loop_plain (nested_parse udb f) f self _ Hl 0 []
              (set_headings σ self [])) as (parts & σ' & E); [lia |].
  rewrite E. eexists _, _. reflexivity.
Qed.

(** *** The example of the repeated heading *)

Lemma keep_cjk c : (19968 <=? c) && (c <=? 40959) = true -> keep udb c = true.
Proof. unfold keep. intros ->. rewrite orb_true_r. reflexivity. Qed.

Lemma spec_base_yinyan k : uni_lower udb yinyan = yinyan -> spec_base udb yinyan k = yinyan.
Proof.
  intros Hlow. unfold spec_base, yinyan. cbn [List.filter].
  rewrite !keep_cjk by reflexivity.
  unfold lower. cbn [forallb is_ascii]. change (24341 <? 128) with false.
  cbn [andb]. cbv iota. unfold yinyan in Hlow. rewrite Hlow. reflexivity.
Qed.

Lemma make_slug_yinyan :
  uni_lower udb yinyan = yinyan ->
  make_slug udb yinyan [] = yinyan
  /\ forall lv raw, make_slug udb yinyan [(lv, yinyan, raw)] = yinyan ++ py "-1".
Proof.
  intros Hlow. unfold make_slug.
  split; [| intros lv raw]; rewrite slug_base_spec, spec_base_yinyan by exact Hlow;
    vm_compute; reflexivity.
Qed.

Lemma parse_two_yinyan :
  uni_lower udb yinyan = yinyan ->
  option_map (fun r => get_headings (snd r) 0) (parse udb 4 0 two_yinyan one_parser)
  = Some [(1%nat, yinyan, yinyan); (1%nat, yinyan ++ py "-1", yinyan)].
Proof.
  intros Hlow. destruct (make_slug_yinyan Hlow) as [E1 E2].
  cbv -[make_slug].
  change (Some [(1%nat, make_slug udb yinyan [], yinyan);
                (1%nat, make_slug udb yinyan [(1%nat, make_slug udb yinyan [], yinyan)],
                 yinyan)]
          = Some [(1%nat, yinyan, yinyan); (1%nat, yinyan ++ py "-1", yinyan)]).
  rewrite E1, E2. reflexivity.
Qed.

(** *** The claims about the heading list *)

Lemma recorded_of_parse fuel self md (σ : store) html (σ' : store) :
  (self < length σ)%nat -> parse udb fuel self md σ = Some (html, σ') ->
  exists n, recorded udb (doc_lines md) n (get_headings σ' self).
Proof. intros Hs Hp. destruct (parse_inv _ _ _ _ _ _ Hs Hp) as (_ & _ & R). exact R. Qed.

Lemma generate_toc_spec self (σ : store) :
  fst (generate_toc self σ) = toc_with raw_text (get_headings σ self).
Proof.
  unfold generate_toc, toc_with. destruct (get_headings σ self) as [| h hs];
    [reflexivity |].
  cbn [fst].
  rewrite (map_ext toc_item
             (fun h => toc_entry (fst (fst h)) (slug_of h) (raw_text h)));
    [reflexivity |].
  intros [[lv slug] text]. reflexivity.
Qed.

(** C2, amended: after a parse that returns, the table of contents is the
    list whose entries are, in the order of the heading list, one per
    recorded heading: indented by two blanks per level above the first,
    of class toc-h and the level, linking to the slug, with the raw heading
    text (not the rendered one) as link text; the recorded headings are
    those of heading lines of the document taken from top to bottom, with
    the level and the trimmed text of the line; an empty heading list gives
    the empty string. *)
Theorem C2_toc_links_raw_text (fuel : nat) (self : obj) (md : str) (σ : store)
    (html : str) (σ' : store) :
  (self < length σ)%nat ->
  parse udb fuel self md σ = Some (html, σ') ->
  fst (generate_toc self σ') = toc_with raw_text (get_headings σ' self)
  /\ (exists idx, Forall2 (heading_line udb (doc_lines md)) idx (get_headings σ' self)
                  /\ StronglySorted lt idx)
  /\ (forall p (σ0 : store), get_headings σ0 p = [] -> fst (generate_toc p σ0) = []).
Proof.
  intros Hs Hp. split; [apply generate_toc_spec |]. split.
  - destruct (recorded_of_parse _ _ _ _ _ _ Hs Hp) as [n R].
    destruct (recorded_lines _ _ _ R) as (idx & F & S & _). exists idx. split; assumption.
  - intros p σ0 E. rewrite generate_toc_spec, E. reflexivity.
Qed.

(** C3: after a parse that returns, the slugs of the heading list are
    pairwise different; the slug of the heading number k is the first of
    the candidates base, base-1, base-2, ... that no earlier heading has,
    where base is the raw text without the code points that are neither
    word characters nor CJK ideographs nor hyphens, in lower case (h-k when
    nothing is left); and two headings titled with the two ideographs of
    the example get that text and that text followed by -1. *)
Theorem C3_slugs_pairwise_unique (fuel : nat) (self : obj) (md : str) (σ : store)
    (html : str) (σ' : store) :
  (self < length σ)%nat ->
  uni_lower udb yinyan = yinyan ->
  parse udb fuel self md σ = Some (html, σ') ->
  List.NoDup (List.map slug_of (get_headings σ' self))
  /\ (forall k h, get_headings σ' self !! k = Some h ->
        exists c,
          slug_of h = cand (spec_base udb (snd h) k) c
          /\ ~ In (slug_of h) (List.map slug_of (take k (get_headings σ' self)))
          /\ forall c', (c' < c)%nat ->
               In (cand (spec_base udb (snd h) k) c')
                  (List.map slug_of (take k (get_headings σ' self))))
  /\ option_map (fun r => List.map slug_of (get_headings (snd r) 0))
       (parse udb 4 0 two_yinyan one_parser)
     = Some [yinyan; yinyan ++ py "-1"].
Proof.
  intros Hs Hlow Hp. destruct (recorded_of_parse _ _ _ _ _ _ Hs Hp) as [n R].
  split; [exact (recorded_NoDup _ _ _ R) |]. split.
  - intros k h Hk. rewrite (recorded_slug _ _ _ R k h Hk).
    destruct (make_slug_spec (snd h) (take k (get_headings σ' self))) as (c & E & F & L).
    assert (Hlen : length (take k (get_headings σ' self)) = k).
    { apply lookup_lt_Some in Hk. rewrite length_take. lia. }
    rewrite Hlen in E, F, L. exists c. rewrite E. repeat split; assumption.
  - pose proof (parse_two_yinyan Hlow) as E.
    destruct (parse udb 4 0 two_yinyan one_parser) as [[h1 σ1] |]; [| discriminate].
    cbn [option_map snd] in *. injection E as ->. reflexivity.
Qed.

(** C4: after a parse that returns, every recorded heading of the parser
    comes from a heading line of its own document, and such a line is no
    blockquote line; the blockquote handler makes a new parser object and
    leaves the heading list of every object that existed before as it was;
    for the document with one quoted heading line, the outer parser (object
    0) ends with an empty heading list and an empty table of contents,
    while the heading is in the list of the nested parser (object 1). *)
Theorem C4_blockquote_headings_stay_inside (fuel : nat) (self : obj) (md : str)
    (σ : store) (html : str) (σ' : store) :
  (self < length σ)%nat ->
  parse udb fuel self md σ = Some (html, σ') ->
  (forall h, In h (get_headings σ' self) ->
     exists i, heading_line udb (doc_lines md) i h
               /\ startswith (py ">") (strip (get (doc_lines md) i)) = false)
  /\ (forall f lines s (σ1 : store) h i (σ2 : store),
        _blockquote udb (nested_parse udb f) lines s σ1 = Some (h, i, σ2) ->
        (length σ1 < length σ2)%nat
        /\ forall p, (p < length σ1)%nat -> get_headings σ2 p = get_headings σ1 p)
  /\ parse udb 5 0 quoted_title one_parser
     = Some (py "<blockquote>" ++ [LF] ++ h_elem 1 (py "title") (py "Title") ++ [LF]
               ++ py "</blockquote>",
             [ {| headings := [] |};
               {| headings := [(1%nat, py "title", py "Title")] |} ])
  /\ fst (generate_toc 0 [ {| headings := [] |};
                           {| headings := [(1%nat, py "title", py "Title")] |} ]) = [].
Proof.
  intros Hs Hp. split; [| split; [| split; vm_compute; reflexivity]].
  - intros h Hin. destruct (recorded_of_parse _ _ _ _ _ _ Hs Hp) as [n R].
    destruct (recorded_lines _ _ _ R) as (idx & F & _ & _).
    apply list_elem_of_In, list_elem_of_lookup in Hin. destruct Hin as [k Hk].
    destruct (Forall2_lookup_r _ _ _ _ _ F Hk) as (i & _ & HL).
    exists i. split; [exact HL |].
    destruct HL as (_ & m & Em & _). apply (heading_not_quote _ m Em).
  - intros f lines s σ1 h i σ2. unfold _blockquote.
    destruct (quote_lines udb (skipn s lines) s []) as [ql i0].
    destruct (nested_parse udb f (join [LF] ql) σ1) as [[inner σ3] |] eqn:En;
      [| discriminate].
    intros [= <- <- <-]. unfold nested_parse, new_parser in En.
    apply parse_inv in En; [| rewrite length_app; cbn; lia].
    destruct En as (L & P & _). rewrite length_app in L, P. cbn in L, P.
    split; [lia |]. intros p Hp1. apply get_headings_same.
    rewrite P by lia. apply lookup_app_l, Hp1.
Qed.

End Properties.

(** ** The matcher against the declarative reading of the patterns *)

Section Matcher.

Variable udb : unicode_db.

Lemma step_if_sound p k st res :
  step_if p k st = Some res -> exists st', one_char p st st' /\ k st' = Some res.
Proof.
  unfold step_if, advance. destruct st as [pv [| c t] cs]; cbn [rest caps]; [discriminate |].
  destruct (p c) eqn:E; [| discriminate]. intros H.
  exists (MState (Some c) t cs). split; [| exact H].
  exists c. cbn. repeat split. exact E.
Qed.

Lemma rep_loop_sound (m : (mstate -> option mstate) -> mstate -> option mstate)
    (R : mstate -> mstate -> Prop) greedy lo hi :
  (forall k st res, m k st = Some res -> exists st', R st st' /\ k st' = Some res) ->
  forall fuel n k st res,
    match hi with Some h => (n <= h)%nat | None => True end ->
    rep_loop m greedy lo hi fuel n k st = Some res ->
    exists j st', iter_rel j R st st' /\ (lo <= n + j)%nat
                  /\ match hi with Some h => (n + j <= h)%nat | None => True end
                  /\ k st' = Some res.
Proof.
  intros Hm. induction fuel as [| f IH]; intros n k st res Hn; cbn [rep_loop].
  - destruct (Nat.leb_spec lo n) as [Hlo | Hlo]; [| discriminate].
    intros H. exists 0%nat, st. rewrite Nat.add_0_r. repeat split; assumption.
  - assert (Stop : (if Nat.leb lo n then k st else None) = Some res ->
             exists j st', iter_rel j R st st' /\ (lo <= n + j)%nat
               /\ match hi with Some h => (n + j <= h)%nat | None => True end
               /\ k st' = Some res).
    { destruct (Nat.leb_spec lo n) as [Hlo | Hlo]; [| discriminate].
      intros H. exists 0%nat, st. rewrite Nat.add_0_r. repeat split; assumption. }
    assert (More : (if match hi with Some h => Nat.ltb n h | None => true end
                    then m (rep_loop m greedy lo hi f (S n) k) st else None) = Some res ->
             exists j st', iter_rel j R st st' /\ (lo <= n + j)%nat
               /\ match hi with Some h => (n + j <= h)%nat | None => True end
               /\ k st' = Some res).
    { destruct (match hi with Some h => Nat.ltb n h | None => true end) eqn:Ehi;
        [| discriminate].
      intros H. apply Hm in H. destruct H as (mid & HR & H).
      apply IH in H.
      - destruct H as (j & st' & Hit & Hlo & Hhi & Hk).
        exists (S j), st'. split; [exists mid; split; assumption |].
        split; [lia |]. split; [| exact Hk].
        destruct hi; [lia | exact I].
      - destruct hi as [h |]; [| exact I]. apply Nat.ltb_lt in Ehi. lia. }
    destruct greedy.
    + destruct (if match hi with Some h => Nat.ltb n h | None => true end
                then m (rep_loop m true lo hi f (S n) k) st else None) eqn:E.
      * intros [= <-]. apply More. reflexivity.
      * exact Stop.
    + destruct (if Nat.leb lo n then k st else None) eqn:E.
      * intros [= <-]. apply Stop. reflexivity.
      * exact More.
Qed.

(** Every match that the matcher reports is a match of the pattern. *)
Lemma rmatch_sound r :
  forall k st res,
    rmatch udb r k st = Some res -> exists st', sem udb r st st' /\ k st' = Some res.
Proof.
  induction r as [| c | | neg items | r1 IH1 r2 IH2 | greedy lo hi r1 IH1 | n r1 IH1
                  | | | items | items]; intros k st res; cbn [rmatch sem].
  - intros H. exists st. split; [reflexivity | exact H].
  - apply step_if_sound.
  - apply step_if_sound.
  - apply step_if_sound.
  - intros H. apply IH1 in H. destruct H as (mid & H1 & H). apply IH2 in H.
    destruct H as (st' & H2 & H). exists st'. split; [exists mid; split; assumption | exact H].
  - intros H.
    apply (rep_loop_sound _ (sem udb r1) greedy lo hi IH1) in H.
    + destruct H as (j & st' & Hit & Hlo & Hhi & Hk). exists st'.
      split; [| exact Hk]. exists j. cbn in Hlo, Hhi. repeat split; assumption.
    + destruct hi; [lia | exact I].
  - intros H. apply IH1 in H. destruct H as (st1 & H1 & H).
    eexists. split; [exists st1; split; [exact H1 | reflexivity] | exact H].
  - destruct (prev st) eqn:E; [discriminate |]. intros H.
    exists st. repeat split. exact H.
  - destruct (rest st) as [| c [| c2 t]] eqn:E.
    + intros H. exists st. repeat split; [left; reflexivity | exact H].
    + destruct (N.eqb_spec c LF) as [-> | Hne]; [| discriminate].
      intros H. exists st. repeat split; [right; reflexivity | exact H].
    + discriminate.
  - destruct (prev st) as [c |] eqn:E.
    + destruct (in_set udb c items) eqn:Ei; [discriminate |].
      intros H. exists st. repeat split. exact H.
    + intros H. exists st. repeat split. exact H.
  - destruct (rest st) as [| c t] eqn:E.
    + intros H. exists st. repeat split. exact H.
    + destruct (in_set udb c items) eqn:Ei; [discriminate |].
      intros H. exists st. repeat split. exact H.
Qed.

Lemma re_match_sound r t m :
  re_match udb r t = Some m -> sem udb r (MState None t []) m.
Proof.
  unfold re_match. intros H. apply rmatch_sound in H.
  destruct H as (st' & Hs & [= <-]). exact Hs.
Qed.

End Matcher.

Lemma iter_one_char p j st st' :
  iter_rel j (one_char p) st st' ->
  exists cs, rest st = cs ++ rest st' /\ length cs = j /\ forallb p cs = true
             /\ caps st' = caps st.
Proof.
  revert st. induction j as [| j IH]; intros st; cbn [iter_rel].
  - intros <-. exists []. repeat split.
  - intros (mid & (c & Hc & Hr & _ & Hcap) & Hit).
    destruct (IH _ Hit) as (cs & E & L & F & C).
    exists (c :: cs). cbn [app length forallb]. rewrite Hr, E, L, Hc, F, C, Hcap.
    repeat split.
Qed.

Lemma consumed_app st st' cs : rest st = cs ++ rest st' -> consumed st st' = cs.
Proof.
  intros E. unfold consumed. rewrite E, length_app.
  replace (length cs + length (rest st') - length (rest st'))%nat with (length cs) by lia.
  rewrite firstn_app, Nat.sub_diag, firstn_all. cbn. apply app_nil_r.
Qed.

Lemma forallb_eqb_repeat c cs : forallb (N.eqb c) cs = true -> cs = repeat c (length cs).
Proof.
  induction cs as [| x cs IH]; [reflexivity |]. cbn [forallb length repeat].
  intros H. apply andb_true_iff in H as [H1 H2]. apply N.eqb_eq in H1. subst x.
  f_equal. apply IH, H2.
Qed.

Lemma lstrip_by_all p t : forallb p t = true -> lstrip_by p t = [].
Proof.
  induction t as [| c t IH]; [reflexivity |]. cbn [forallb lstrip_by].
  intros H. apply andb_true_iff in H as [-> H]. apply IH, H.
Qed.

Lemma lstrip_by_app_all p a b : forallb p a = true -> lstrip_by p (a ++ b) = lstrip_by p b.
Proof.
  induction a as [| c a IH]; [reflexivity |]. cbn [forallb app lstrip_by].
  intros H. apply andb_true_iff in H as [-> H]. apply IH, H.
Qed.

Lemma lstrip_by_app_some p t e :
  forallb p t = false -> lstrip_by p (t ++ e) = lstrip_by p t ++ e.
Proof.
  induction t as [| c t IH]; [discriminate |]. cbn [forallb app lstrip_by].
  destruct (p c); [apply IH | reflexivity].
Qed.

(** Trimming does not see characters of the trimmed kind around the text. *)
Lemma strip_by_pad p a t e :
  forallb p a = true -> forallb p e = true ->
  strip_by p (a ++ t ++ e) = strip_by p t.
Proof.
  intros Ha He. unfold strip_by, rstrip_by. rewrite (lstrip_by_app_all p a _ Ha).
  destruct (forallb p t) eqn:Et.
  - rewrite (lstrip_by_app_all p t e Et), (lstrip_by_all p e He), (lstrip_by_all p t Et).
    reflexivity.
  - rewrite (lstrip_by_app_some p t e Et), rev_app_distr.
    rewrite lstrip_by_app_all; [reflexivity |].
    rewrite forallb_forall in *. intros x Hx. apply He. apply in_rev. exact Hx.
Qed.

(** A line that matches the heading pattern: one to six hashes, a
    whitespace character, and the rest; the first group is the hashes and
    the second group, trimmed, is the trimmed rest of the line. *)
Lemma heading_match_shape udb l m :
  re_match udb re_heading l = Some m ->
  (1 <= length (group 1 (caps m)) <= 6)%nat
  /\ exists w t, l = repeat 35 (length (group 1 (caps m))) ++ w :: t
                 /\ isspace w = true
                 /\ strip (group 2 (caps m)) = strip (w :: t).
Proof.
  intros H. apply re_match_sound in H.
  change re_heading with
    (Seq Bol (Seq (Grp 1 (Rep true 1 (Some 6%nat) (Lit 35)))
       (Seq (Rep true 1 None (Cls false [CSpace]))
          (Seq (Grp 2 (Rep true 1 None Dot)) (Seq Eol Eps))))) in H.
  cbn [sem] in H.
  destruct H as (mid0 & [_ ->] & mid1 & (st1 & (j1 & Hlo1 & Hhi1 & It1) & ->)
                 & mid2 & (j2 & Hlo2 & _ & It2)
                 & mid3 & (st3 & (j3 & _ & _ & It3) & ->) & mid4 & [He ->] & ->).
  apply iter_one_char in It1. destruct It1 as (cs1 & E1 & L1 & F1 & C1).
  apply iter_one_char in It2. destruct It2 as (cs2 & E2 & L2 & F2 & C2).
  apply iter_one_char in It3. destruct It3 as (cs3 & E3 & L3 & F3 & C3).
  cbn [rest caps prev] in *.
  rewrite (consumed_app (MState None l []) st1 cs1 E1) in C2.
  rewrite (consumed_app mid2 st3 cs3 E3).
  rewrite C3, C2, C1. cbn [group List.find fst snd Nat.eqb].
  split; [lia |].
  destruct cs2 as [| w cs2]; [cbn in L2; lia |].
  cbn [forallb] in F2. apply andb_true_iff in F2 as [Fw F2].
  exists w, (cs2 ++ cs3 ++ rest st3). split; [| split].
  - rewrite E1, E2, E3, (forallb_eqb_repeat 35 cs1 F1), repeat_length.
    cbn [app]. reflexivity.
  - unfold in_set in Fw. cbn in Fw. rewrite orb_false_r in Fw. exact Fw.
  - unfold strip. symmetry. apply (strip_by_pad isspace (w :: cs2) cs3 (rest st3)).
    + cbn [forallb]. apply andb_true_iff. split.
      * unfold in_set in Fw. cbn in Fw. rewrite orb_false_r in Fw. exact Fw.
      * rewrite forallb_forall in *. intros x Hx. specialize (F2 x Hx).
        unfold in_set in F2. cbn in F2. rewrite orb_false_r in F2. exact F2.
    + destruct He as [-> | ->]; reflexivity.
Qed.

(** A greedy quantifier over single code points runs as far as it can:
    when the run [a] of accepted code points ends (at a code point that is
    not accepted, at the end of the text or at the upper bound) and the
    rest of the pattern succeeds there, that is the match. *)
Lemma greedy_run (m : (mstate -> option mstate) -> mstate -> option mstate) p lo hi :
  (forall k st, m k st = step_if p k st) ->
  forall a fuel n k pv b cs res,
    forallb p a = true ->
    match hi with Some h => (n + length a <= h)%nat | None => True end ->
    (hi = Some (n + length a)%nat
     \/ match b with c :: _ => p c = false | [] => True end) ->
    (length a <= fuel)%nat -> (lo <= n + length a)%nat ->
    k (MState (prev_after pv a) b cs) = Some res ->
    rep_loop m true lo hi fuel n k (MState pv (a ++ b) cs) = Some res.
Proof.
  intros Hm. induction a as [| c a IH]; intros fuel n k pv b cs res Fa Hhi Hstop Hf Hlo Hk.
  - cbn [app prev_after fold_left length] in *. rewrite Nat.add_0_r in *.
    assert (Hl : Nat.leb lo n = true) by (apply Nat.leb_le; exact Hlo).
    destruct fuel as [| f]; cbn [rep_loop]; rewrite Hl; [exact Hk |].
    assert (E : (if match hi with Some h => Nat.ltb n h | None => true end
                 then m (rep_loop m true lo hi f (S n) k) (MState pv b cs) else None)
                = None).
    { destruct Hstop as [-> | Hb].
      - rewrite Nat.ltb_irrefl. reflexivity.
      - destruct (match hi with Some h => Nat.ltb n h | None => true end);
          [| reflexivity].
        rewrite Hm. unfold step_if. cbn [rest]. destruct b as [| x b]; [reflexivity |].
        rewrite Hb. reflexivity. }
    rewrite E. exact Hk.
  - cbn [forallb] in Fa. apply andb_true_iff in Fa as [Fc Fa].
    cbn [length] in *. destruct fuel as [| f]; [lia |].
    cbn [rep_loop app].
    assert (Hi : match hi with Some h => Nat.ltb n h | None => true end = true).
    { destruct hi as [h |]; [apply Nat.ltb_lt; lia | reflexivity]. }
    rewrite Hi, Hm. unfold step_if. cbn [rest advance caps]. rewrite Fc.
    rewrite (IH f (S n) k (Some c) b cs res); [reflexivity | exact Fa | | | lia | lia | exact Hk].
    + destruct hi; [lia | exact I].
    + destruct Hstop as [-> | Hb]; [left; f_equal; lia | right; exact Hb].
Qed.

Lemma greedy_run_end (m : (mstate -> option mstate) -> mstate -> option mstate) p lo :
  (forall k st, m k st = step_if p k st) ->
  forall a fuel k pv cs res,
    forallb p a = true -> (length a <= fuel)%nat -> (lo <= length a)%nat ->
    k (MState (prev_after pv a) [] cs) = Some res ->
    rep_loop m true lo None fuel 0 k (MState pv a cs) = Some res.
Proof.
  intros Hm a fuel k pv cs res Fa Hf Hlo Hk.
  rewrite <- (app_nil_r a) at 1.
  apply (greedy_run m p lo None Hm a fuel 0 k pv [] cs res); auto.
Qed.

Lemma consumed_run pv pv' a b cs cs' :
  consumed (MState pv (a ++ b) cs) (MState pv' b cs') = a.
Proof. apply consumed_app. reflexivity. Qed.

(** A line made of one to six hashes, whitespace and a text that starts
    with a character that is no whitespace and holds no line feed matches
    the heading pattern: the first group is the hashes, the second the
    text. *)
Lemma heading_recognised udb n w text :
  (1 <= n <= 6)%nat -> w <> [] -> forallb isspace w = true ->
  match text with c :: _ => isspace c = false | [] => False end ->
  forallb (fun x => negb (x =? LF)) text = true ->
  exists m, re_match udb re_heading (repeat 35 n ++ w ++ text) = Some m
            /\ group 1 (caps m) = repeat 35 n /\ group 2 (caps m) = text.
Proof.
  intros Hn Hw Fw Ht Ft.
  exists (MState (prev_after (prev_after (Some 35) w) text) []
            [(2%nat, text); (1%nat, repeat 35 n)]).
  split; [| split; reflexivity].
  change re_heading with
    (Seq Bol (Seq (Grp 1 (Rep true 1 (Some 6%nat) (Lit 35)))
       (Seq (Rep true 1 None (Cls false [CSpace]))
          (Seq (Grp 2 (Rep true 1 None Dot)) (Seq Eol Eps))))).
  unfold re_match. cbn [rmatch prev rest].
  assert (Hw0 : match w ++ text with c :: _ => (35 =? c) = false | [] => True end).
  { destruct w as [| c w']; [contradiction |]. cbn [app forallb] in *.
    apply andb_true_iff in Fw as [Fc _].
    destruct (N.eqb_spec 35 c) as [<- | _]; [discriminate Fc | reflexivity]. }
  assert (Hp : prev_after None (repeat 35 n) = Some 35).
  { destruct n as [| n']; [lia |]. cbn [repeat prev_after fold_left].
    clear. induction n' as [| k IH]; [reflexivity | exact IH]. }
  apply (greedy_run _ (N.eqb 35) 1 (Some 6%nat) (fun k st => eq_refl)
           (repeat 35 n) _ 0 _ None (w ++ text) []).
  - clear. induction n as [| k IH]; [reflexivity | exact IH].
  - rewrite repeat_length. lia.
  - right. exact Hw0.
  - rewrite !length_app, repeat_length. lia.
  - rewrite repeat_length. lia.
  - rewrite Hp. cbn [rest prev caps]. rewrite consumed_run.
    apply (greedy_run _ (fun x => xorb false (in_set udb x [CSpace])) 1 None
             (fun k st => eq_refl) w _ 0 _ (Some 35) text).
    + rewrite forallb_forall in *. intros x Hx. unfold in_set. cbn.
      rewrite orb_false_r. apply Fw, Hx.
    + exact I.
    + right. destruct text as [| c t]; [exact I |]. unfold in_set. cbn.
      rewrite orb_false_r. exact Ht.
    + rewrite length_app. lia.
    + destruct w; [contradiction | cbn; lia].
    + apply (greedy_run_end _ (fun x => negb (x =? LF)) 1 (fun k st => eq_refl) text).
      * exact Ft.
      * cbn [rest]. lia.
      * destruct text; [contradiction | cbn; lia].
      * cbn [rest prev caps]. rewrite (consumed_app _ _ text); [reflexivity |].
        cbn [rest]. symmetry. apply app_nil_r.
Qed.

(** ** Headings *)

Section Headings.

Variable udb : unicode_db.

Lemma strip_hash t : exists t', strip (35 :: t) = 35 :: t'.
Proof.
  unfold strip, strip_by, rstrip_by. cbn [lstrip_by]. change (isspace 35) with false.
  cbv iota. cbn [rev].
  destruct (lstrip_by_snoc isspace (rev t) 35 eq_refl) as [a' ->].
  rewrite rev_app_distr. cbn [rev app]. eexists. reflexivity.
Qed.

(** Every heading that a parse records has a level from 1 to 6 and comes
    from a line of the document that consists of that many hashes, a
    whitespace character and the rest of the line; the recorded text is the
    trimmed rest of the line. *)
Theorem headings_have_level_and_text (fuel : nat) (self : obj) (md : str)
    (σ : store) (html : str) (σ' : store) :
  (self < length σ)%nat ->
  parse udb fuel self md σ = Some (html, σ') ->
  forall lv slug raw, In (lv, slug, raw) (get_headings σ' self) ->
    (1 <= lv <= 6)%nat
    /\ exists i w t, (i < length (doc_lines md))%nat
                     /\ get (doc_lines md) i = repeat 35 lv ++ w :: t
                     /\ isspace w = true
                     /\ raw = strip (w :: t).
Proof.
  intros Hs Hp lv slug raw Hin.
  destruct (recorded_of_parse udb _ _ _ _ _ _ Hs Hp) as [n R].
  destruct (recorded_lines udb _ _ _ R) as (idx & F & _ & _).
  apply list_elem_of_In, list_elem_of_lookup in Hin. destruct Hin as [k Hk].
  destruct (Forall2_lookup_r _ _ _ _ _ F Hk) as (i & _ & Hi & m & Em & Elv & Eraw).
  cbn [fst snd] in Elv, Eraw.
  destruct (heading_match_shape udb _ m Em) as (Hlv & w & t & El & Hw & Est).
  rewrite <- Elv in Hlv, El. split; [exact Hlv |].
  exists i, w, t. repeat split; try assumption. rewrite Eraw. exact Est.
Qed.

(** At a line made of one to six hashes, whitespace and a text that
    starts with a character that is no whitespace, one round of the loop of
    parse emits the heading element of that level with the rendered trimmed
    text, records the level, the slug and the trimmed text, and moves the
    cursor by one line. *)
Theorem heading_line_gives_heading nested (self : obj) (lines : list str) (i : nat)
    (σ : store) (n : nat) (w text : str) :
  get lines i = repeat 35 n ++ w ++ text ->
  (1 <= n <= 6)%nat -> w <> [] -> forallb isspace w = true ->
  match text with c :: _ => isspace c = false | [] => False end ->
  forallb (fun x => negb (x =? LF)) text = true ->
  let hs := get_headings σ self in
  let slug := make_slug udb (strip text) hs in
  block_at udb nested self lines i σ
  = Some (Some (h_elem n slug (parse_inline udb (strip text))), S i,
          set_headings σ self (hs ++ [(n, slug, strip text)])).
Proof.
  intros El Hn Hw Fw Ht Ft hs slug.
  destruct (heading_recognised udb n w text Hn Hw Fw Ht Ft) as (m & Em & G1 & G2).
  rewrite <- El in Em.
  assert (Hl : exists t, get lines i = 35 :: t).
  { rewrite El. destruct n as [| n']; [lia |]. cbn [repeat app]. eexists. reflexivity. }
  destruct Hl as [t Hl]. destruct (strip_hash t) as [t' Hst].
  unfold block_at. rewrite Em, Hl, Hst. cbn [nonempty negb].
  change (startswith fence (35 :: t')) with false. cbv iota.
  unfold heading_block. rewrite G1, G2, repeat_length. reflexivity.
Qed.

(** A line that starts with seven hashes is no heading line, and neither
    is a line in which a character that is neither a hash nor whitespace
    follows the hashes. *)
Lemma not_a_heading (l : str) :
  (exists t, l = repeat 35 7 ++ t)
  \/ (exists n c t, l = repeat 35 n ++ c :: t /\ c <> 35 /\ isspace c = false) ->
  re_match udb re_heading l = None.
Proof.
  intros H. destruct (re_match udb re_heading l) as [m |] eqn:Em; [| reflexivity].
  exfalso. destruct (heading_match_shape udb l m Em) as (Hlv & w & t & El & Hw & _).
  set (lv := length (group 1 (caps m))) in *.
  assert (Hw35 : w <> 35) by (intros ->; discriminate Hw).
  assert (Hnth : forall k (x : N) (tl : str) d, nth k (repeat 35 k ++ x :: tl) d = x).
  { intros k x tl d. rewrite app_nth2; rewrite repeat_length; [| lia].
    rewrite Nat.sub_diag. reflexivity. }
  assert (Hlt : forall k j (tl : str) d, (j < k)%nat -> nth j (repeat 35 k ++ tl) d = 35).
  { intros k j tl d Hj. rewrite app_nth1 by (rewrite repeat_length; exact Hj).
    apply nth_repeat_lt. exact Hj. }
  destruct H as [[t7 E7] | (n & c & tc & Ec & Hc & Hcs)].
  - pose proof (Hnth lv w t 0) as E. rewrite <- El, E7 in E.
    rewrite (Hlt 7%nat lv t7 0) in E by lia. congruence.
  - destruct (Nat.lt_trichotomy lv n) as [Hlt1 | [-> | Hgt]].
    + pose proof (Hnth lv w t 0) as E. rewrite <- El, Ec in E.
      rewrite (Hlt n lv _ 0 Hlt1) in E. congruence.
    + pose proof (Hnth n w t 0) as E. rewrite <- El, Ec, (Hnth n c tc 0) in E.
      subst c. congruence.
    + pose proof (Hnth n c tc 0) as E. rewrite <- Ec, El in E.
      rewrite (Hlt lv n _ 0 Hgt) in E. congruence.
Qed.

End Headings.

(** ** Inline text and escaping *)

Section Inline.

Variable udb : unicode_db.

Lemma leading_sound r c :
  leading r = Some c ->
  forall st st', sem udb r st st' -> exists tl, rest st = c :: tl.
Proof.
  revert c. induction r as [| x | | neg items | r1 IH1 r2 IH2 | g lo hi r1 IH1 | n r1 IH1
                            | | | items | items]; intros c; cbn [leading];
    try discriminate.
  - intros [= <-] st st' (y & Hy & Hr & _). apply N.eqb_eq in Hy. subst y.
    eexists. exact Hr.
  - intros Hl st st' (mid & H1 & H2).
    destruct r1; try (apply (IH1 c Hl st mid H1));
      cbn [sem] in H1; destruct H1 as [_ ->]; apply (IH2 c Hl _ _ H2).
  - destruct lo as [| lo]; [discriminate |].
    intros Hl st st' (j & Hj & _ & Hit). destruct j as [| j]; [lia |].
    cbn [iter_rel] in Hit. destruct Hit as (mid & H1 & _). apply (IH1 c Hl _ _ H1).
  - intros Hl st st' (st1 & H1 & _). apply (IH1 c Hl _ _ H1).
Qed.

(** A pattern all of whose matches start at an occurrence of [c] finds
    nothing in a text without [c], and the substitution returns the text. *)
Lemma re_sub_without r tpl c t :
  (forall st st', sem udb r st st' -> In c (rest st)) ->
  ~ In c t -> re_sub udb r tpl t = t.
Proof.
  intros Hr. unfold re_sub. generalize (@None N) as p.
  induction t as [| x t IH]; intros p Hc; [reflexivity |].
  cbn [sub_from].
  destruct (rmatch udb r Some (MState p (x :: t) [])) as [st' |] eqn:E.
  - exfalso. apply rmatch_sound in E. destruct E as (st1 & Hs & _).
    apply Hr in Hs. exact (Hc Hs).
  - f_equal. apply IH. intros H. apply Hc. right. exact H.
Qed.

Lemma rule_without rule c t :
  leading (fst rule) = Some c -> ~ In c t -> re_sub udb (fst rule) (snd rule) t = t.
Proof.
  intros Hl Hc. apply (re_sub_without _ _ c); [| exact Hc].
  intros st st' Hs. destruct (leading_sound _ c Hl st st' Hs) as [tl ->]. left. reflexivity.
Qed.

Lemma image_without t :
  ~ In 91 t -> re_sub udb (fst rule_image) (snd rule_image) t = t.
Proof.
  intros Hc. apply (re_sub_without _ _ 91); [| exact Hc].
  intros st st' Hs.
  change (fst rule_image) with
    (Seq (Lit 33) (Seq (Lit 91)
       (cat [Grp 1 (star (Cls true [cc "]"])); chr "]"; chr "(";
             Grp 2 (plus (Cls true [cc ")"])); chr ")"]))) in Hs.
  cbn [sem] in Hs.
  destruct Hs as (m1 & (c1 & _ & E1 & _) & m2 & (c2 & Hc2 & E2 & _) & _).
  apply N.eqb_eq in Hc2. subst c2. rewrite E1, E2. right. left. reflexivity.
Qed.

Lemma parse_inline_plain (text : str) :
  forallb (fun c => negb (inline_marker c)) text = true ->
  parse_inline udb text = text.
Proof.
  intros H.
  assert (Hc : forall c, inline_marker c = true -> ~ In c text).
  { intros c Hm Hin. rewrite forallb_forall in H. apply H in Hin.
    rewrite Hm in Hin. discriminate Hin. }
  unfold parse_inline, INLINE_RULES. cbn [fold_left].
  rewrite (image_without text) by (apply Hc; reflexivity).
  rewrite (rule_without rule_link 91) by (try reflexivity; apply Hc; reflexivity).
  rewrite (rule_without rule_code 96) by (try reflexivity; apply Hc; reflexivity).
  rewrite (rule_without rule_star3 42) by (try reflexivity; apply Hc; reflexivity).
  rewrite (rule_without rule_under3 95) by (try reflexivity; apply Hc; reflexivity).
  rewrite (rule_without rule_star2 42) by (try reflexivity; apply Hc; reflexivity).
  rewrite (rule_without rule_under2 95) by (try reflexivity; apply Hc; reflexivity).
  rewrite (rule_without rule_star1 42) by (try reflexivity; apply Hc; reflexivity).
  rewrite (rule_without rule_under1 95) by (try reflexivity; apply Hc; reflexivity).
  apply (rule_without rule_del 126); [reflexivity | apply Hc; reflexivity].
Qed.

(** Text without an opening bracket, a backtick, a star, an underscore or a
    tilde passes the inline transformer unchanged, whatever else it holds:
    angle brackets, ampersands and quotes are not escaped. *)
Theorem parse_inline_leaves_plain_text (text : str) :
  forallb (fun c => negb (inline_marker c)) text = true ->
  parse_inline udb text = text.
Proof. exact (parse_inline_plain text). Qed.

End Inline.

(** ** Escaping *)

Lemma esc_char_cases c :
  (c = 38 /\ esc_char c = [38; 97; 109; 112; 59])
  \/ (c = 60 /\ esc_char c = [38; 108; 116; 59])
  \/ (c = 62 /\ esc_char c = [38; 103; 116; 59])
  \/ (c = 34 /\ esc_char c = [38; 113; 117; 111; 116; 59])
  \/ (html_special c = false /\ esc_char c = [c]).
Proof.
  unfold esc_char, html_special.
  destruct (N.eqb_spec c 38) as [-> | H1]; [left; split; reflexivity |].
  destruct (N.eqb_spec c 60) as [-> | H2]; [right; left; split; reflexivity |].
  destruct (N.eqb_spec c 62) as [-> | H3]; [right; right; left; split; reflexivity |].
  destruct (N.eqb_spec c 34) as [-> | H4];
    [right; right; right; left; split; reflexivity |].
  right; right; right; right. split; reflexivity.
Qed.

(** The escaped text holds no angle bracket and no double quote; text
    without the four special characters is returned as it is; escaping
    never shortens a text. *)
Theorem esc_output_is_safe (t : str) :
  Forall (fun c => c <> 60 /\ c <> 62 /\ c <> 34) (_esc t)
  /\ (forallb (fun c => negb (html_special c)) t = true -> _esc t = t)
  /\ (length t <= length (_esc t))%nat.
Proof.
  rewrite _esc_flat_map. split; [| split].
  - apply Forall_flat_map. apply List.Forall_forall. intros c _.
    destruct (esc_char_cases c) as [[_ ->] | [[_ ->] | [[_ ->] | [[_ ->] | [H ->]]]]];
      repeat constructor; try discriminate.
    all: intros ->; discriminate H.
  - induction t as [| c t IH]; [reflexivity |]. cbn [forallb flat_map].
    intros H. apply andb_true_iff in H as [Hc Ht].
    destruct (esc_char_cases c) as [[-> _] | [[-> _] | [[-> _] | [[-> _] | [_ ->]]]]];
      try discriminate Hc.
    cbn [app]. f_equal. apply IH, Ht.
  - induction t as [| c t IH]; [reflexivity |]. cbn [flat_map]. rewrite length_app.
    destruct (esc_char_cases c) as [[_ ->] | [[_ ->] | [[_ ->] | [[_ ->] | [_ ->]]]]];
      cbn [length]; lia.
Qed.

(** Escaping loses nothing: two texts with the same escaped form are the
    same text. *)
Theorem esc_injective (a b : str) : _esc a = _esc b -> a = b.
Proof.
  rewrite !_esc_flat_map. revert b.
  induction a as [| x a IH]; intros [| y b]; cbn [flat_map]; intros E.
  - reflexivity.
  - destruct (esc_char_cases y) as [[_ Ey] | [[_ Ey] | [[_ Ey] | [[_ Ey] | [_ Ey]]]]];
      rewrite Ey in E; discriminate E.
  - destruct (esc_char_cases x) as [[_ Ex] | [[_ Ex] | [[_ Ex] | [[_ Ex] | [_ Ex]]]]];
      rewrite Ex in E; discriminate E.
  - destruct (esc_char_cases x) as [[-> Ex] | [[-> Ex] | [[-> Ex] | [[-> Ex] | [Hx Ex]]]]];
      destruct (esc_char_cases y) as [[-> Ey] | [[-> Ey] | [[-> Ey] | [[-> Ey] | [Hy Ey]]]]];
      rewrite Ex in E; rewrite ?Ey in E; cbn [app] in E; try discriminate E;
      try (injection E as E; f_equal; apply IH; exact E);
      try (injection E as -> _; discriminate Hx);
      try (injection E as <- _; discriminate Hy).
    injection E as -> E. f_equal. apply IH, E.
Qed.

(** ** Lists, paragraphs and the cursor *)

Section Blocks.

Variable udb : unicode_db.

Lemma sem_suffix r :
  forall st st', sem udb r st st' -> exists cs, rest st = cs ++ rest st'.
Proof.
  assert (One : forall p st st', one_char p st st' -> exists cs, rest st = cs ++ rest st').
  { intros p st st' (c & _ & E & _). exists [c]. exact E. }
  induction r as [| c | | neg items | r1 IH1 r2 IH2 | g lo hi r1 IH1 | n r1 IH1
                  | | | items | items]; intros st st'; cbn [sem];
    try (apply One).
  - intros ->. exists []. reflexivity.
  - intros (mid & H1 & H2). destruct (IH1 _ _ H1) as [a Ea].
    destruct (IH2 _ _ H2) as [b Eb]. exists (a ++ b). rewrite Ea, Eb. apply app_assoc.
  - intros (j & _ & _ & Hit). clear -IH1 Hit. revert st Hit.
    induction j as [| j IHj]; intros st; cbn [iter_rel].
    + intros <-. exists []. reflexivity.
    + intros (mid & H1 & H2). destruct (IH1 _ _ H1) as [a Ea].
      destruct (IHj _ H2) as [b Eb]. exists (a ++ b). rewrite Ea, Eb. apply app_assoc.
  - intros (st1 & H1 & ->). cbn [rest]. apply (IH1 _ _ H1).
  - intros [_ ->]. exists []. reflexivity.
  - intros [_ ->]. exists []. reflexivity.
  - intros [_ ->]. exists []. reflexivity.
  - intros [_ ->]. exists []. reflexivity.
Qed.

Lemma lstrip_by_nil p t : lstrip_by p t = [] -> forallb p t = true.
Proof.
  induction t as [| c t IH]; [reflexivity |]. cbn [lstrip_by forallb].
  destruct (p c); [exact IH | discriminate].
Qed.

Lemma lstrip_by_split p t :
  exists a, t = a ++ lstrip_by p t /\ forallb p a = true.
Proof.
  induction t as [| c t (a & E & F)]; cbn [lstrip_by].
  - exists []. split; reflexivity.
  - destruct (p c) eqn:Ec.
    + exists (c :: a). cbn [app forallb]. rewrite Ec, F. split; [f_equal; exact E | reflexivity].
    + exists []. split; reflexivity.
Qed.

(** A text is blank exactly when all its characters are whitespace. *)
Lemma strip_by_nil p t : strip_by p t = [] <-> forallb p t = true.
Proof.
  unfold strip_by, rstrip_by. split.
  - intros H. apply (f_equal (@rev N)) in H. rewrite rev_involutive in H. cbn in H.
    apply lstrip_by_nil in H.
    destruct (lstrip_by_split p t) as (a & E & F). rewrite E, forallb_app, F.
    cbn [andb]. apply forallb_forall. intros x Hx.
    rewrite forallb_forall in H. apply H. apply -> in_rev. exact Hx.
  - intros H. rewrite (lstrip_by_all p t H). reflexivity.
Qed.

Lemma not_blank_with c l : In c l -> isspace c = false -> nonempty (strip l) = true.
Proof.
  intros Hin Hc. destruct (strip l) eqn:E; [| reflexivity]. exfalso.
  apply strip_by_nil in E. rewrite forallb_forall in E. apply E in Hin. congruence.
Qed.

(** A blank line is no list item of either kind. *)
Lemma blank_is_no_item l :
  blank l -> matches udb re_ul l = false /\ matches udb re_ol l = false.
Proof.
  intros Hb. unfold blank in Hb. unfold matches. split.
  - destruct (re_match udb re_ul l) as [m |] eqn:E; [| reflexivity]. exfalso.
    apply re_match_sound in E.
    change re_ul with
      (Seq Bol (Seq (Grp 1 (star ws))
         (Seq (Grp 2 (Cls false [cc "-"; cc "*"; cc "+"])) (Seq (plus ws) Eps)))) in E.
    cbn [sem] in E.
    destruct E as (m0 & [_ ->] & m1 & (s1 & H1 & ->) & m2 & (s2 & (c & Hc & E2 & _) & ->) & _).
    apply (sem_suffix (star ws)) in H1. destruct H1 as [a Ea]. cbn [rest] in *.
    assert (Hs : isspace c = false).
    { cbn [xorb] in Hc. unfold in_set in Hc.
      change [cc "-"; cc "*"; cc "+"] with [CChar 45; CChar 42; CChar 43] in Hc.
      cbn [existsb in_item] in Hc. rewrite !orb_true_iff, !N.eqb_eq in Hc.
      destruct Hc as [-> | [-> | [-> | Hf]]]; try reflexivity. discriminate Hf. }
    assert (Hn : nonempty (strip l) = true).
    { apply (not_blank_with c); [| exact Hs]. rewrite Ea, E2. apply in_or_app. right.
      left. reflexivity. }
    rewrite Hb in Hn. discriminate Hn.
  - destruct (re_match udb re_ol l) as [m |] eqn:E; [| reflexivity]. exfalso.
    apply re_match_sound in E.
    change re_ol with
      (Seq Bol (Seq (Grp 1 (star ws))
         (Seq (plus (Cls false [CDigit])) (Seq (Lit 46) (Seq (plus ws) Eps))))) in E.
    cbn [sem] in E.
    destruct E as (m0 & [_ ->] & m1 & (s1 & H1 & ->) & m2 & H2 & m3 & (c & Hc & E3 & _) & _).
    apply (sem_suffix (star ws)) in H1. destruct H1 as [a Ea].
    apply (sem_suffix (plus (Cls false [CDigit]))) in H2. destruct H2 as [b Eb].
    cbn [rest] in *. apply N.eqb_eq in Hc. subst c.
    assert (Hn : nonempty (strip l) = true).
    { apply (not_blank_with 46); [| reflexivity]. rewrite Ea, Eb, E3.
      apply in_or_app. right. apply in_or_app. right. left. reflexivity. }
    rewrite Hb in Hn. discriminate Hn.
Qed.

Lemma item_lines_spec r ls i items :
  item_lines udb r ls i items =
  (items ++ List.map (fun l => parse_inline udb (re_sub udb r [] l)) (item_run udb r ls),
   (i + length (item_run udb r ls))%nat).
Proof.
  revert i items. induction ls as [| l ls IH]; intros i items.
  - cbn. rewrite app_nil_r. f_equal. lia.
  - cbn [item_lines item_run]. destruct (matches udb r l).
    + rewrite IH. cbn [List.map length]. rewrite <- app_assoc. f_equal. lia.
    + cbn. rewrite app_nil_r. f_equal. lia.
Qed.

Lemma item_run_length r ls : (length (item_run udb r ls) <= length ls)%nat.
Proof.
  induction ls as [| l ls IH]; [reflexivity |]. cbn [item_run].
  destruct (matches udb r l); cbn [length]; lia.
Qed.

Lemma item_run_matches r ls : forallb (matches udb r) (item_run udb r ls) = true.
Proof.
  induction ls as [| l ls IH]; [reflexivity |]. cbn [item_run].
  destruct (matches udb r l) eqn:E; [| reflexivity]. cbn [forallb]. rewrite E. exact IH.
Qed.

(** The list handlers render the lines from [s] on that match their item
    pattern, up to the first line that does not (a blank line never does):
    one [li] element per line, holding the rendered line without what the
    pattern matched; the cursor is the line after the run, within the
    document. *)
Theorem list_handlers_render_the_run (lines : list str) (s : nat) :
  (s <= length lines)%nat ->
  let items r := List.map (fun l => li (parse_inline udb (re_sub udb r [] l)))
                   (item_run udb r (skipn s lines)) in
  _ul udb lines s
  = (py "<ul>" ++ [LF] ++ join [LF] (items re_ul) ++ [LF] ++ py "</ul>",
     (s + length (item_run udb re_ul (skipn s lines)))%nat)
  /\ _ol udb lines s
     = (py "<ol>" ++ [LF] ++ join [LF] (items re_ol) ++ [LF] ++ py "</ol>",
        (s + length (item_run udb re_ol (skipn s lines)))%nat)
  /\ (snd (_ul udb lines s) <= length lines)%nat
  /\ (snd (_ol udb lines s) <= length lines)%nat
  /\ forallb (fun l => nonempty (strip l)) (item_run udb re_ul (skipn s lines)) = true
  /\ forallb (fun l => nonempty (strip l)) (item_run udb re_ol (skipn s lines)) = true.
Proof.
  intros Hs items.
  assert (Hnb : forall r, (r = re_ul \/ r = re_ol) ->
            forallb (fun l => nonempty (strip l)) (item_run udb r (skipn s lines)) = true).
  { intros r Hr. pose proof (item_run_matches r (skipn s lines)) as F.
    rewrite forallb_forall in *. intros l Hl. specialize (F l Hl).
    destruct (nonempty (strip l)) eqn:E; [reflexivity |]. exfalso.
    assert (Hb : blank l) by (unfold blank; destruct (strip l); [reflexivity | discriminate E]).
    destruct (blank_is_no_item l Hb) as [B1 B2].
    destruct Hr as [-> | ->]; congruence. }
  assert (Hlen : forall r, (s + length (item_run udb r (skipn s lines)) <= length lines)%nat).
  { intros r. pose proof (item_run_length r (skipn s lines)) as L.
    rewrite length_skipn in L. lia. }
  unfold _ul, _ol. rewrite !item_lines_spec. cbn [app snd].
  subst items. rewrite !List.map_map.
  repeat split; auto.
Qed.

End Blocks.

Section Items.

Variable udb : unicode_db.

Lemma sub_from_anchored_skip r tpl c k t :
  sub_from udb (Seq Bol r) tpl (Some c) k t = skipn k t.
Proof.
  revert c k. induction t as [| x t IH]; intros c k.
  - destruct k; reflexivity.
  - destruct k as [| k]; cbn [sub_from skipn rmatch prev].
    + f_equal. apply (IH x 0%nat).
    + apply IH.
Qed.

(** A pattern anchored at the start of the line is replaced at most once:
    what is left is the line after the match. *)
Lemma re_sub_anchored r l m :
  re_match udb (Seq Bol r) l = Some m -> re_sub udb (Seq Bol r) [] l = rest m.
Proof.
  intros H. pose proof (re_match_sound udb _ _ _ H) as Hs.
  apply sem_suffix in Hs. destruct Hs as [cs Ecs]. cbn [rest] in Ecs.
  unfold re_sub. destruct l as [| x t].
  - destruct cs; [| discriminate Ecs]. cbn in Ecs. rewrite <- Ecs. reflexivity.
  - cbn [sub_from]. unfold re_match in H. rewrite H.
    assert (Hlen : length (x :: t) = (length cs + length (rest m))%nat).
    { rewrite Ecs at 1. apply length_app. }
    destruct (length (x :: t) - length (rest m))%nat as [| k] eqn:En.
    + assert (cs = []) by (destruct cs; [reflexivity | cbn [length] in *; lia]). subst cs.
      cbn [expand flat_map app]. rewrite (sub_from_anchored_skip r [] x 0 t).
      cbn [skipn]. exact Ecs.
    + cbn [expand flat_map app]. rewrite sub_from_anchored_skip.
      assert (Hk : length cs = S k) by lia.
      change (skipn k t) with (skipn (S k) (x :: t)). rewrite Ecs, <- Hk.
      rewrite skipn_app, Nat.sub_diag, skipn_all. reflexivity.
Qed.

Lemma ascii_digit_facts d :
  ascii_digit d = true -> isdecimal udb d = true /\ isspace d = false.
Proof.
  unfold ascii_digit, isdecimal, is_ascii, isspace. intros H.
  apply andb_true_iff in H as [H1 H2]. apply N.leb_le in H1. apply N.leb_le in H2.
  split.
  - destruct (N.ltb_spec d 128); [| lia]. unfold ascii_digit.
    apply andb_true_iff. split; apply N.leb_le; assumption.
  - repeat match goal with
           | |- context [?a <=? ?b] => destruct (N.leb_spec a b)
           | |- context [?a =? ?b] => destruct (N.eqb_spec a b)
           end; cbn; try reflexivity; lia.
Qed.

Lemma ws_class_forall w :
  forallb isspace w = true ->
  forallb (fun x => xorb false (in_set udb x [CSpace])) w = true.
Proof.
  intros F. rewrite forallb_forall in *. intros x Hx. unfold in_set. cbn.
  rewrite orb_false_r. apply F, Hx.
Qed.

Lemma ws_class_stop (b : str) :
  match b with c :: _ => isspace c = false | [] => True end ->
  match b with c :: _ => xorb false (in_set udb c [CSpace]) = false | [] => True end.
Proof.
  destruct b as [| c b]; [auto |]. intros H. unfold in_set. cbn.
  rewrite orb_false_r. exact H.
Qed.

(** A line made of whitespace (or none), a bullet (a hyphen, a star or a
    plus sign), whitespace and a text that does not start with whitespace
    is an unordered list item, and its item text is that text. *)
Theorem bullet_line_item (w1 : str) (c : N) (w2 item : str) :
  forallb isspace w1 = true -> (c = 45 \/ c = 42 \/ c = 43) ->
  w2 <> [] -> forallb isspace w2 = true ->
  match item with x :: _ => isspace x = false | [] => True end ->
  matches udb re_ul (w1 ++ c :: w2 ++ item) = true
  /\ re_sub udb re_ul [] (w1 ++ c :: w2 ++ item) = item.
Proof.
  intros F1 Hc Hw2 F2 Hi.
  assert (Hcs : isspace c = false) by (destruct Hc as [-> | [-> | ->]]; reflexivity).
  assert (Hcm : in_set udb c [CChar 45; CChar 42; CChar 43] = true).
  { destruct Hc as [-> | [-> | ->]]; reflexivity. }
  assert (E : re_match udb re_ul (w1 ++ c :: w2 ++ item)
              = Some (MState (prev_after (Some c) w2) item [(2%nat, [c]); (1%nat, w1)])).
  { change re_ul with
      (Seq Bol (Seq (Grp 1 (Rep true 0 None (Cls false [CSpace])))
         (Seq (Grp 2 (Cls false [CChar 45; CChar 42; CChar 43]))
            (Seq (Rep true 1 None (Cls false [CSpace])) Eps)))).
    unfold re_match. cbn [rmatch prev rest].
    apply (greedy_run _ (fun x => xorb false (in_set udb x [CSpace])) 0 None
             (fun k st => eq_refl) w1).
    - apply ws_class_forall, F1.
    - exact I.
    - right. unfold in_set. cbn. rewrite orb_false_r. exact Hcs.
    - rewrite length_app. lia.
    - lia.
    - cbn [rest prev caps]. rewrite consumed_run.
      unfold step_if. cbn [rest advance caps xorb]. rewrite Hcm.
      cbn [rest prev caps length].
      rewrite (consumed_app _ _ [c]) by reflexivity.
      apply (greedy_run _ (fun x => xorb false (in_set udb x [CSpace])) 1 None
               (fun k st => eq_refl) w2).
      + apply ws_class_forall, F2.
      + exact I.
      + right. apply ws_class_stop, Hi.
      + rewrite length_app. lia.
      + destruct w2; [contradiction | cbn; lia].
      + reflexivity. }
  split; [unfold matches; rewrite E; reflexivity |].
  change re_ul with (Seq Bol (cat [Grp 1 (star ws);
                                   Grp 2 (Cls false [cc "-"; cc "*"; cc "+"]); plus ws])) in *.
  rewrite (re_sub_anchored _ _ _ E). reflexivity.
Qed.

(** A line made of whitespace (or none), ASCII digits, a full stop,
    whitespace and a text that does not start with whitespace is an ordered
    list item, and its item text is that text. *)
Theorem numbered_line_item (w1 digits w2 item : str) :
  forallb isspace w1 = true -> digits <> [] -> forallb ascii_digit digits = true ->
  w2 <> [] -> forallb isspace w2 = true ->
  match item with x :: _ => isspace x = false | [] => True end ->
  matches udb re_ol (w1 ++ digits ++ 46 :: w2 ++ item) = true
  /\ re_sub udb re_ol [] (w1 ++ digits ++ 46 :: w2 ++ item) = item.
Proof.
  intros F1 Hd Fd Hw2 F2 Hi.
  assert (Fd1 : forallb (fun x => xorb false (in_set udb x [CDigit])) digits = true).
  { rewrite forallb_forall in *. intros x Hx. unfold in_set. cbn.
    rewrite orb_false_r. apply ascii_digit_facts, Fd, Hx. }
  assert (E : exists pv, re_match udb re_ol (w1 ++ digits ++ 46 :: w2 ++ item)
              = Some (MState pv item [(1%nat, w1)])).
  { eexists.
    change re_ol with
      (Seq Bol (Seq (Grp 1 (Rep true 0 None (Cls false [CSpace])))
         (Seq (Rep true 1 None (Cls false [CDigit]))
            (Seq (Lit 46) (Seq (Rep true 1 None (Cls false [CSpace])) Eps))))).
    unfold re_match. cbn [rmatch prev rest].
    apply (greedy_run _ (fun x => xorb false (in_set udb x [CSpace])) 0 None
             (fun k st => eq_refl) w1).
    - apply ws_class_forall, F1.
    - exact I.
    - right. destruct digits as [| d ds]; [contradiction |]. cbn [app forallb] in *.
      apply andb_true_iff in Fd as [Fd _]. unfold in_set. cbn.
      rewrite orb_false_r. apply ascii_digit_facts, Fd.
    - rewrite length_app. lia.
    - lia.
    - cbn [rest prev caps]. rewrite consumed_run.
      apply (greedy_run _ (fun x => xorb false (in_set udb x [CDigit])) 1 None
               (fun k st => eq_refl) digits).
      + exact Fd1.
      + exact I.
      + right. reflexivity.
      + rewrite length_app. lia.
      + destruct digits; [contradiction | cbn; lia].
      + unfold step_if. cbn [rest advance caps]. rewrite N.eqb_refl.
        cbn [rest prev caps length].
        apply (greedy_run _ (fun x => xorb false (in_set udb x [CSpace])) 1 None
                 (fun k st => eq_refl) w2).
        * apply ws_class_forall, F2.
        * exact I.
        * right. apply ws_class_stop, Hi.
        * rewrite length_app. lia.
        * destruct w2; [contradiction | cbn; lia].
        * reflexivity. }
  destruct E as [pv E].
  split; [unfold matches; rewrite E; reflexivity |].
  change re_ol with (Seq Bol (cat [Grp 1 (star ws); plus (Cls false [CDigit]);
                                   chr "."; plus ws])) in *.
  rewrite (re_sub_anchored _ _ _ E). reflexivity.
Qed.

End Items.

(** ** Paragraphs, the cursor and the lines of a document *)

Section Lines.

Variable udb : unicode_db.

Lemma para_lines_spec ls i pl :
  para_lines udb ls i pl = (pl ++ para_run udb ls, (i + length (para_run udb ls))%nat).
Proof.
  revert i pl. induction ls as [| l ls IH]; intros i pl.
  - cbn. rewrite app_nil_r. f_equal. lia.
  - cbn [para_lines para_run]. destruct (nonempty (strip l)); cbn [andb].
    + destruct (para_break udb l); cbn [negb].
      * cbn. rewrite app_nil_r. f_equal. lia.
      * rewrite IH. cbn [length]. rewrite <- app_assoc. f_equal. lia.
    + cbn. rewrite app_nil_r. f_equal. lia.
Qed.

Lemma para_run_length ls : (length (para_run udb ls) <= length ls)%nat.
Proof.
  induction ls as [| l ls IH]; [reflexivity |]. cbn [para_run].
  destruct (nonempty (strip l) && negb (para_break udb l)); cbn [length]; lia.
Qed.

Lemma join_forallb (q : N -> bool) sep parts :
  forallb q sep = true -> forallb (forallb q) parts = true ->
  forallb q (join sep parts) = true.
Proof.
  intros Hs. induction parts as [| p parts IH]; [reflexivity |].
  cbn [forallb]. intros H. apply andb_true_iff in H as [Hp Hr].
  destruct parts as [| p2 parts]; [exact Hp |].
  change (join sep (p :: p2 :: parts)) with (p ++ sep ++ join sep (p2 :: parts)).
  rewrite !forallb_app, Hp, Hs, (IH Hr). reflexivity.
Qed.

(** The paragraph handler takes the lines from [s] on up to the first
    blank line or line that starts another block, joins them with one blank
    and renders the result inside a [p] element; the cursor is the line
    after them, within the document.  When none of the lines holds a
    character that the inline rules look for, the element holds the joined
    lines as they are. *)
Theorem paragraph_joins_its_lines (lines : list str) (s : nat) :
  (s <= length lines)%nat ->
  let run := para_run udb (skipn s lines) in
  _paragraph udb lines s
  = (py "<p>" ++ parse_inline udb (join (py " ") run) ++ py "</p>", (s + length run)%nat)
  /\ (s + length run <= length lines)%nat
  /\ (forallb (forallb (fun c => negb (inline_marker c))) run = true ->
      fst (_paragraph udb lines s) = py "<p>" ++ join (py " ") run ++ py "</p>").
Proof.
  intros Hs run.
  assert (E : _paragraph udb lines s
              = (py "<p>" ++ parse_inline udb (join (py " ") run) ++ py "</p>",
                 (s + length run)%nat)).
  { unfold _paragraph. rewrite para_lines_spec. reflexivity. }
  split; [exact E |]. split.
  - subst run. pose proof (para_run_length (skipn s lines)) as L.
    rewrite length_skipn in L. lia.
  - intros F. rewrite E. cbn [fst].
    rewrite (parse_inline_plain udb); [reflexivity |].
    apply join_forallb; [reflexivity | exact F].
Qed.







End Lines.

(** ** Line ends *)

Section LineEnds.

Variable udb : unicode_db.

Lemma split_nonempty sep t : split sep t <> [].
Proof.
  destruct t as [| c t]; cbn [split]; [discriminate |].
  destruct (c =? sep); [discriminate |]. destruct (split sep t); discriminate.
Qed.

Lemma join_split sep t : join [sep] (split sep t) = t.
Proof.
  induction t as [| c t IH]; [reflexivity |]. cbn [split].
  pose proof (split_nonempty sep t) as Hn.
  destruct (N.eqb_spec c sep) as [-> | Hne].
  - destruct (split sep t) as [| h r]; [contradiction |].
    change (join [sep] ([] :: h :: r)) with ([] ++ [sep] ++ join [sep] (h :: r)).
    rewrite IH. reflexivity.
  - destruct (split sep t) as [| h r]; [contradiction |].
    destruct r as [| h2 r].
    + cbn [join] in *. rewrite IH. reflexivity.
    + change (join [sep] ((c :: h) :: h2 :: r))
        with (c :: (h ++ [sep] ++ join [sep] (h2 :: r))).
      f_equal. exact IH.
Qed.

Lemma split_lines_chars sep t :
  Forall (fun l => ~ In sep l /\ forall c, In c l -> In c t) (split sep t).
Proof.
  induction t as [| c t IH]; cbn [split].
  - constructor; [| constructor]. split; [intros [] | intros c []].
  - pose proof (split_nonempty sep t) as Hn.
    destruct (N.eqb_spec c sep) as [-> | Hne].
    + constructor; [split; [intros [] | intros c []] |].
      eapply List.Forall_impl; [| exact IH]. cbn. intros l [H1 H2].
      split; [exact H1 | intros x Hx; right; apply H2, Hx].
    + destruct (split sep t) as [| h r]; [contradiction |].
      apply Forall_cons_iff in IH as [[H1 H2] IH]. constructor.
      * split.
        -- intros [E | Hin]; [congruence | exact (H1 Hin)].
        -- intros x [<- | Hx]; [left; reflexivity | right; apply H2, Hx].
      * eapply List.Forall_impl; [| exact IH]. cbn. intros l [H3 H4].
        split; [exact H3 | intros x Hx; right; apply H4, Hx].
Qed.

Lemma replace_cr_no_cr t : ~ In CR (replace [CR] [LF] t).
Proof.
  rewrite replace_single. intros H. apply in_flat_map in H.
  destruct H as (x & _ & Hx). revert Hx.
  destruct (N.eqb_spec CR x) as [E | Hne]; intros [E2 | []].
  - discriminate E2.
  - congruence.
Qed.

Lemma replace_absent a old new t : ~ In a t -> replace (a :: old) new t = t.
Proof.
  unfold replace. induction t as [| c t IH]; [reflexivity |]. intros H.
  cbn [replace_from startswith].
  destruct (N.eqb_spec a c) as [-> | Hne]; [exfalso; apply H; left; reflexivity |].
  cbn [andb]. f_equal. apply IH. intros Hin. apply H. right. exact Hin.
Qed.

Lemma replace_crlf_no_lf t : ~ In LF t -> replace [CR; LF] [LF] t = t.
Proof.
  unfold replace. induction t as [| c t IH]; [reflexivity |]. intros H.
  cbn [replace_from startswith].
  assert (E : (CR =? c) && startswith [LF] t = false).
  { destruct t as [| y t]; [apply andb_false_r |]. cbn [startswith].
    destruct (N.eqb_spec LF y) as [<- | _];
      [exfalso; apply H; right; left; reflexivity |].
    cbn [andb]. apply andb_false_r. }
  cbn [startswith] in E. rewrite E. f_equal. apply IH. intros Hin. apply H. right. exact Hin.
Qed.

Lemma replace_with_crlf md : ~ In CR md -> replace [CR; LF] [LF] (with_crlf md) = md.
Proof.
  unfold replace, with_crlf. induction md as [| c md IH]; [reflexivity |]. intros H.
  assert (Hmd : ~ In CR md) by (intros Hin; apply H; right; exact Hin).
  cbn [flat_map]. destruct (N.eqb_spec c LF) as [-> | Hne].
  - cbn [app replace_from startswith length Nat.pred]. rewrite !N.eqb_refl.
    cbn [andb app]. f_equal. apply IH, Hmd.
  - cbn [app replace_from startswith].
    destruct (N.eqb_spec CR c) as [<- | _]; [exfalso; apply H; left; reflexivity |].
    cbn [andb]. f_equal. apply IH, Hmd.
Qed.

Lemma replace_with_cr md : ~ In CR md -> replace [CR] [LF] (with_cr md) = md.
Proof.
  rewrite replace_single. unfold with_cr.
  induction md as [| c md IH]; [reflexivity |]. intros H.
  assert (Hmd : ~ In CR md) by (intros Hin; apply H; right; exact Hin).
  cbn [List.map flat_map]. rewrite (IH Hmd).
  destruct (N.eqb_spec c LF) as [-> | Hne]; [reflexivity |].
  destruct (N.eqb_spec CR c) as [<- | _]; [exfalso; apply H; left; reflexivity |].
  reflexivity.
Qed.

Lemma with_cr_no_lf md : ~ In LF (with_cr md).
Proof.
  unfold with_cr. intros H. apply in_map_iff in H. destruct H as (x & E & _).
  destruct (N.eqb_spec x LF); [discriminate E | congruence].
Qed.

Lemma doc_lines_no_cr md : ~ In CR md -> doc_lines md = split LF md.
Proof.
  intros H. unfold doc_lines. rewrite (replace_absent CR [LF] [LF] md H).
  rewrite (replace_absent CR [] [LF] md H). reflexivity.
Qed.

Lemma doc_lines_clean md :
  Forall (fun l => ~ In LF l /\ ~ In CR l) (doc_lines md).
Proof.
  unfold doc_lines. eapply List.Forall_impl; [| apply split_lines_chars].
  cbn. intros l [H1 H2]. split; [exact H1 |].
  intros Hin. apply H2 in Hin. exact (replace_cr_no_cr _ Hin).
Qed.

(** The lines of a document: there is at least one, none holds a line
    feed or a carriage return, and joined by line feeds they are the
    document with its line ends normalised (the document itself when it
    holds no carriage return). *)
Theorem doc_lines_are_the_lines (md : str) :
  doc_lines md <> []
  /\ Forall (fun l => ~ In LF l /\ ~ In CR l) (doc_lines md)
  /\ join [LF] (doc_lines md) = replace [CR] [LF] (replace [CR; LF] [LF] md)
  /\ (~ In CR md -> join [LF] (doc_lines md) = md).
Proof.
  split; [apply split_nonempty |]. split; [apply doc_lines_clean |].
  split; [apply join_split |].
  intros H. rewrite (doc_lines_no_cr md H). apply join_split.
Qed.

(** A document parses alike whether its lines end in a line feed, in a
    carriage return and a line feed, or in a carriage return. *)
Theorem line_ends_are_alike (md : str) (fuel : nat) (self : obj) (σ : store) :
  ~ In CR md ->
  doc_lines (with_crlf md) = doc_lines md
  /\ doc_lines (with_cr md) = doc_lines md
  /\ parse udb fuel self (with_crlf md) σ = parse udb fuel self md σ
  /\ parse udb fuel self (with_cr md) σ = parse udb fuel self md σ.
Proof.
  intros H.
  assert (E1 : doc_lines (with_crlf md) = doc_lines md).
  { unfold doc_lines at 1. rewrite (replace_with_crlf md H).
    rewrite (replace_absent CR [] [LF] md H). symmetry. apply doc_lines_no_cr, H. }
  assert (E2 : doc_lines (with_cr md) = doc_lines md).
  { unfold doc_lines at 1. rewrite (replace_crlf_no_lf _ (with_cr_no_lf md)).
    rewrite (replace_with_cr md H). symmetry. apply doc_lines_no_cr, H. }
  split; [exact E1 |]. split; [exact E2 |].
  destruct fuel as [| f]; [split; reflexivity |].
  rewrite !parse_S, E1, E2. split; reflexivity.
Qed.

End LineEnds.

(** ** The parser object between two parses *)

Section Reuse.

Variable udb : unicode_db.

Lemma same_view_refl_step self1 (σ1 : store) self2 (σ2 : store) hs :
  same_view self1 σ1 self2 σ2 ->
  same_view self1 (set_headings σ1 self1 hs) self2 (set_headings σ2 self2 hs).
Proof.
  intros (H1 & H2 & _). unfold same_view.
  rewrite (get_headings_set σ1 self1 hs H1), (get_headings_set σ2 self2 hs H2).
  unfold set_headings. rewrite !length_insert. repeat split; assumption.
Qed.

Lemma block_at_alike n1 n2 self1 self2 lines i (σ1 σ2 : store) :
  frames n1 -> frames n2 -> agree n1 n2 ->
  same_view self1 σ1 self2 σ2 ->
  alike self1 self2 (block_at udb n1 self1 lines i σ1) (block_at udb n2 self2 lines i σ2).
Proof.
  intros F1 F2 Ag V. pose proof V as (V1 & V2 & Vh).
  assert (Same : forall (x : option str * nat),
            alike self1 self2 (Some (x, σ1)) (Some (x, σ2))).
  { intros x. cbn. split; [reflexivity | exact V]. }
  unfold block_at.
  destruct (negb (nonempty (strip (get lines i)))); [apply Same |].
  destruct (startswith fence (strip (get lines i))).
  { destruct (_code_block lines i) as [h0 i0]. apply Same. }
  destruct (re_match udb re_heading (get lines i)) as [m |].
  { unfold heading_block. rewrite Vh. cbn. split; [reflexivity |].
    apply same_view_refl_step, V. }
  destruct (matches udb re_hr (get lines i)); [apply Same |].
  destruct (startswith (py ">") (strip (get lines i))).
  { unfold _blockquote. destruct (quote_lines udb (skipn i lines) i []) as [ql i0].
    specialize (Ag (join [LF] ql) σ1 σ2).
    destruct (n1 (join [LF] ql) σ1) as [[r1 σ1'] |] eqn:E1;
      destruct (n2 (join [LF] ql) σ2) as [[r2 σ2'] |] eqn:E2; try contradiction;
      [| exact I].
    subst r2. destruct (F1 _ _ _ _ E1) as [L1 P1]. destruct (F2 _ _ _ _ E2) as [L2 P2].
    cbn. split; [reflexivity |]. unfold same_view. split; [lia |]. split; [lia |].
    rewrite (get_headings_same σ1 σ1' self1 (P1 self1 V1)).
    rewrite (get_headings_same σ2 σ2' self2 (P2 self2 V2)). exact Vh. }
  destruct (matches udb re_ul (get lines i)).
  { destruct (_ul udb lines i) as [h0 i0]. apply Same. }
  destruct (matches udb re_ol (get lines i)).
  { destruct (_ol udb lines i) as [h0 i0]. apply Same. }
  destruct (contains 124 (get lines i) && Nat.ltb (S i) (length lines)
            && matches udb re_delim (get lines (S i))).
  { destruct (_table udb lines i) as [[h0 i0] |]; [apply Same | exact I]. }
  destruct (_paragraph udb lines i) as [h0 i0]. apply Same.
Qed.

Lemma parse_loop_alike n1 n2 self1 self2 lines fuel :
  frames n1 -> frames n2 -> agree n1 n2 ->
  forall i html_parts (σ1 σ2 : store),
    same_view self1 σ1 self2 σ2 ->
    alike self1 self2 (parse_loop udb n1 fuel self1 lines i html_parts σ1)
                      (parse_loop udb n2 fuel self2 lines i html_parts σ2).
Proof.
  intros F1 F2 Ag. induction fuel as [| f IH]; intros i parts σ1 σ2 V;
    cbn [parse_loop]; destruct (Nat.ltb i (length lines));
    try (cbn; split; [reflexivity | exact V]); [exact I |].
  pose proof (block_at_alike n1 n2 self1 self2 lines i σ1 σ2 F1 F2 Ag V) as B.
  destruct (block_at udb n1 self1 lines i σ1) as [[[h1 i1] σ1'] |];
    destruct (block_at udb n2 self2 lines i σ2) as [[[h2 i2] σ2'] |];
    cbn in B; try contradiction; [| exact I].
  destruct B as [[= <- <-] V']. apply IH, V'.
Qed.

Lemma parse_alike fuel :
  forall self1 self2 md (σ1 σ2 : store),
    (self1 < length σ1)%nat -> (self2 < length σ2)%nat ->
    alike self1 self2 (parse udb fuel self1 md σ1) (parse udb fuel self2 md σ2).
Proof.
  induction fuel as [| f IH]; intros self1 self2 md σ1 σ2 H1 H2; [exact I |].
  rewrite !(parse_S udb).
  assert (Fr : frames (nested_parse udb f)).
  { apply nested_parse_frames. intros. eapply parse_inv; eassumption. }
  assert (Ag : agree (nested_parse udb f) (nested_parse udb f)).
  { intros inner σa σb. unfold nested_parse, new_parser.
    specialize (IH (length σa) (length σb) inner
                  (σa ++ [{| headings := [] |}]) (σb ++ [{| headings := [] |}])).
    rewrite !length_app in IH. cbn [length] in IH.
    specialize (IH ltac:(lia) ltac:(lia)).
    destruct (parse udb f (length σa) inner _) as [[r1 s1] |];
      destruct (parse udb f (length σb) inner _) as [[r2 s2] |];
      cbn in IH; try contradiction; [apply IH | exact I]. }
  assert (V : same_view self1 (set_headings σ1 self1 []) self2 (set_headings σ2 self2 [])).
  { unfold same_view. rewrite !get_headings_reset.
    unfold set_headings. rewrite !length_insert. repeat split; assumption. }
  pose proof (parse_loop_alike _ _ self1 self2 (doc_lines md) f Fr Fr Ag 0 [] _ _ V) as L.
  destruct (parse_loop udb (nested_parse udb f) f self1 (doc_lines md) 0 []
              (set_headings σ1 self1 [])) as [[p1 s1] |];
    destruct (parse_loop udb (nested_parse udb f) f self2 (doc_lines md) 0 []
                (set_headings σ2 self2 [])) as [[p2 s2] |];
    cbn in L; try contradiction; [| exact I].
  destruct L as [<- V']. cbn. split; [reflexivity | exact V'].
Qed.

(** What parse returns and the heading list it leaves depend on the
    document only: not on the headings that the parser object held before,
    not on which object it is, not on the other objects of the store.  A
    parser object can be used for one document after another. *)
Theorem parse_starts_afresh (fuel : nat) (self1 self2 : obj) (md : str)
    (σ1 σ2 : store) :
  (self1 < length σ1)%nat -> (self2 < length σ2)%nat ->
  outcome self1 (parse udb fuel self1 md σ1) = outcome self2 (parse udb fuel self2 md σ2).
Proof.
  intros H1 H2. pose proof (parse_alike fuel self1 self2 md σ1 σ2 H1 H2) as A.
  unfold outcome.
  destruct (parse udb fuel self1 md σ1) as [[h1 s1] |];
    destruct (parse udb fuel self2 md σ2) as [[h2 s2] |];
    cbn in A; try contradiction; [| reflexivity].
  destruct A as (<- & _ & _ & E). cbn. rewrite E. reflexivity.
Qed.

End Reuse.

(** ** Lines at which the parser does not return *)

Section Stuck.

Variable udb : unicode_db.

Lemma rstrip_by_prefix p u : exists b, u = rstrip_by p u ++ b.
Proof.
  unfold rstrip_by. destruct (lstrip_by_suffix p (rev u)) as [a E].
  exists (rev a). apply (f_equal (@rev N)) in E.
  rewrite rev_involutive, rev_app_distr in E. exact E.
Qed.

(** The first character of the trimmed line is the first character of the
    line that is no whitespace. *)
Lemma first_char_of_strip x l t0 :
  strip l = x :: t0 -> exists a t, l = a ++ x :: t /\ forallb isspace a = true.
Proof.
  intros H. destruct (lstrip_by_split isspace l) as (a & E & F).
  destruct (rstrip_by_prefix isspace (lstrip_by isspace l)) as [b Eb].
  unfold strip, strip_by in H. rewrite H in Eb.
  exists a, (t0 ++ b). split; [| exact F]. rewrite E at 1. rewrite Eb. reflexivity.
Qed.

Lemma startswith_one x l : startswith [x] l = true -> exists t, l = x :: t.
Proof.
  destruct l as [| y t]; [discriminate |]. cbn [startswith].
  rewrite andb_true_r. intros H. apply N.eqb_eq in H. subst y. exists t. reflexivity.
Qed.

Lemma first_nonspace_in (q : N -> bool) a x t cs y tl :
  a ++ x :: t = cs ++ y :: tl ->
  forallb isspace a = true -> isspace y = false ->
  forallb q cs = true -> q x = false -> x = y.
Proof.
  revert cs. induction a as [| w a IH]; intros [| c cs] E Fa Hy Fq Hx; cbn [app] in E.
  - congruence.
  - cbn [forallb] in Fq. apply andb_true_iff in Fq as [Fc _]. congruence.
  - cbn [forallb] in Fa. apply andb_true_iff in Fa as [Fw _]. congruence.
  - cbn [forallb] in Fa, Fq. apply andb_true_iff in Fa as [_ Fa].
    apply andb_true_iff in Fq as [_ Fq]. injection E as _ E.
    apply (IH cs E Fa Hy Fq Hx).
Qed.

Lemma ws_class_is_space cs :
  forallb (fun x => xorb false (in_set udb x [CSpace])) cs = true ->
  forallb isspace cs = true.
Proof.
  intros F. rewrite forallb_forall in *. intros x Hx. specialize (F x Hx).
  unfold in_set in F. cbn in F. rewrite orb_false_r in F. exact F.
Qed.

(** A line whose first character that is no whitespace is a hash or the
    quote mark is no horizontal rule and no list item. *)
Lemma no_rule_no_item l a x t :
  l = a ++ x :: t -> forallb isspace a = true -> (x = 35 \/ x = 62) ->
  matches udb re_hr l = false /\ matches udb re_ul l = false
  /\ matches udb re_ol l = false.
Proof.
  intros El Fa Hx.
  assert (Hxs : isspace x = false) by (destruct Hx as [-> | ->]; reflexivity).
  unfold matches. split; [| split].
  - destruct (re_match udb re_hr l) as [m |] eqn:E; [| reflexivity]. exfalso.
    apply re_match_sound in E.
    change re_hr with
      (Seq Bol (Seq (Rep true 3 None
                       (Grp 1 (Seq (star ws)
                                 (Seq (Cls false [CChar 45; CChar 42; CChar 95])
                                    (Seq (star ws) Eps)))))
                  (Seq Eol Eps))) in E.
    cbn [sem] in E. destruct E as (m0 & [_ ->] & m1 & (j & Hj & _ & It) & _).
    destruct j as [| j]; [lia |]. cbn [iter_rel] in It.
    destruct It as (m2 & (s1 & (m3 & (j1 & _ & _ & It1) & m4 & (c & Hc & Ec & _) & _) & _) & _).
    apply iter_one_char in It1. destruct It1 as (cs & Ecs & _ & Fcs & _).
    cbn [rest] in Ecs. rewrite Ec, El in Ecs.
    assert (Hcs : isspace c = false).
    { cbn [xorb] in Hc. unfold in_set in Hc. cbn [existsb in_item] in Hc.
      rewrite !orb_true_iff, !N.eqb_eq in Hc.
      destruct Hc as [-> | [-> | [-> | Hf]]]; try reflexivity. discriminate Hf. }
    pose proof (first_nonspace_in isspace a x t cs c _ Ecs Fa Hcs
                  (ws_class_is_space cs Fcs) Hxs) as <-.
    destruct Hx as [-> | ->]; discriminate Hc.
  - destruct (re_match udb re_ul l) as [m |] eqn:E; [| reflexivity]. exfalso.
    apply re_match_sound in E.
    change re_ul with
      (Seq Bol (Seq (Grp 1 (star ws))
         (Seq (Grp 2 (Cls false [CChar 45; CChar 42; CChar 43])) (Seq (plus ws) Eps)))) in E.
    cbn [sem] in E.
    destruct E as (m0 & [_ ->] & m1 & (s1 & (j1 & _ & _ & It1) & ->)
                   & m2 & (s2 & (c & Hc & Ec & _) & _) & _).
    apply iter_one_char in It1. destruct It1 as (cs & Ecs & _ & Fcs & _).
    cbn [rest] in Ecs, Ec. rewrite Ec, El in Ecs.
    assert (Hcs : isspace c = false).
    { cbn [xorb] in Hc. unfold in_set in Hc. cbn [existsb in_item] in Hc.
      rewrite !orb_true_iff, !N.eqb_eq in Hc.
      destruct Hc as [-> | [-> | [-> | Hf]]]; try reflexivity. discriminate Hf. }
    pose proof (first_nonspace_in isspace a x t cs c _ Ecs Fa Hcs
                  (ws_class_is_space cs Fcs) Hxs) as <-.
    destruct Hx as [-> | ->]; discriminate Hc.
  - destruct (re_match udb re_ol l) as [m |] eqn:E; [| reflexivity]. exfalso.
    apply re_match_sound in E.
    change re_ol with
      (Seq Bol (Seq (Grp 1 (star ws))
         (Seq (plus (Cls false [CDigit])) (Seq (Lit 46) (Seq (plus ws) Eps))))) in E.
    cbn [sem] in E.
    destruct E as (m0 & [_ ->] & m1 & (s1 & (j1 & _ & _ & It1) & ->)
                   & m2 & (j2 & _ & _ & It2) & m3 & (c & Hc & Ec & _) & _).
    apply iter_one_char in It1. destruct It1 as (cs & Ecs & _ & Fcs & _).
    apply iter_one_char in It2. destruct It2 as (ds & Eds & _ & Fds & _).
    cbn [rest] in Ecs, Eds. apply N.eqb_eq in Hc. subst c.
    rewrite Eds, Ec, El, app_assoc in Ecs.
    assert (Fq : forallb (fun y => isspace y || isdecimal udb y) (cs ++ ds) = true).
    { rewrite forallb_app. apply andb_true_iff. split.
      - apply ws_class_is_space in Fcs. rewrite forallb_forall in *.
        intros y Hy. rewrite (Fcs y Hy). reflexivity.
      - rewrite forallb_forall in *. intros y Hy. specialize (Fds y Hy).
        unfold in_set in Fds. cbn in Fds. rewrite orb_false_r in Fds.
        rewrite Fds. apply orb_true_r. }
    assert (Hq : isspace x || isdecimal udb x = false).
    { destruct Hx as [-> | ->]; reflexivity. }
    pose proof (first_nonspace_in _ a x t (cs ++ ds) 46 _ Ecs Fa eq_refl Fq Hq) as ->.
    destruct Hx as [Hx | Hx]; discriminate Hx.
Qed.

Lemma block_at_stuck nested self l tl (σ : store) :
  startswith (py "#") (strip l) = true ->
  re_match udb re_heading l = None ->
  contains 124 l = false ->
  block_at udb nested self (l :: tl) 0 σ = Some (Some (py "<p></p>"), 0%nat, σ).
Proof.
  intros Hs Hh Hp. destruct (startswith_one _ _ Hs) as [t0 Est].
  destruct (first_char_of_strip _ _ _ Est) as (a & t & El & Fa).
  destruct (no_rule_no_item l a 35 t El Fa (or_introl eq_refl)) as (Hr & Hu & Ho).
  unfold block_at. cbn [get nth]. rewrite Est. cbn [nonempty negb].
  change (startswith fence (35 :: t0)) with false.
  change (startswith (py ">") (35 :: t0)) with false. cbv iota.
  rewrite Hh, Hr, Hu, Ho, Hp. cbn [andb].
  unfold _paragraph. cbn [skipn para_lines]. rewrite Est. cbn [nonempty].
  unfold para_break. rewrite Est. change (startswith (py "#") (35 :: t0)) with true.
  cbn [orb]. reflexivity.
Qed.

Lemma parse_loop_stuck nested fuel self l tl html_parts (σ : store) :
  startswith (py "#") (strip l) = true ->
  re_match udb re_heading l = None ->
  contains 124 l = false ->
  parse_loop udb nested fuel self (l :: tl) 0 html_parts σ = None.
Proof.
  intros Hs Hh Hp. revert html_parts.
  induction fuel as [| f IH]; intros html_parts; [reflexivity |].
  cbn [parse_loop length Nat.ltb Nat.leb].
  rewrite (block_at_stuck nested self l tl σ Hs Hh Hp). apply IH.
Qed.

(** When the first line of a document, trimmed, starts with a hash
    without being a heading line, and holds no pipe, the paragraph handler
    returns an empty paragraph and the cursor it was given, and parse does
    not return, whatever the fuel. *)
Theorem first_line_hash_no_heading (md l : str) (tl : list str) (fuel : nat)
    (self : obj) (σ : store) :
  doc_lines md = l :: tl ->
  startswith (py "#") (strip l) = true ->
  re_match udb re_heading l = None ->
  contains 124 l = false ->
  _paragraph udb (doc_lines md) 0 = (py "<p></p>", 0%nat)
  /\ parse udb fuel self md σ = None.
Proof.
  intros Ed Hs Hh Hp. split.
  - rewrite Ed. unfold _paragraph. cbn [skipn para_lines].
    destruct (startswith_one _ _ Hs) as [t0 Est]. rewrite Est. cbn [nonempty].
    unfold para_break. rewrite Est. change (startswith (py "#") (35 :: t0)) with true.
    cbn [orb]. reflexivity.
  - destruct fuel as [| f]; [reflexivity |].
    rewrite (parse_S udb), Ed, (parse_loop_stuck _ f self l tl [] _ Hs Hh Hp). reflexivity.
Qed.

End Stuck.

Section StuckQuote.

Variable udb : unicode_db.

Lemma quote_lines_spec ls i ql :
  quote_lines udb ls i ql =
  (ql ++ List.map (re_sub udb re_quote []) (quote_run ls),
   (i + length (quote_run ls))%nat).
Proof.
  revert i ql. induction ls as [| l ls IH]; intros i ql.
  - cbn. rewrite app_nil_r. f_equal. lia.
  - cbn [quote_lines quote_run]. destruct (startswith (py ">") (strip l)).
    + rewrite IH. cbn [List.map length]. rewrite <- app_assoc. f_equal. lia.
    + cbn. rewrite app_nil_r. f_equal. lia.
Qed.

(** A line that does not start with the quote mark is left as it is by
    the substitution that should strip the mark. *)
Lemma quote_mark_not_found l :
  startswith (py ">") l = false -> re_sub udb re_quote [] l = l.
Proof.
  intros H. unfold re_sub. destruct l as [| x t]; [reflexivity |].
  cbn [sub_from]. 
  assert (E : rmatch udb re_quote Some (MState None (x :: t) []) = None).
  { change (py ">") with [62] in H. cbn [startswith] in H. rewrite andb_true_r in H.
    change re_quote with (Seq Bol (Seq (Lit 62) (Seq (opt ws) Eps))).
    cbn [rmatch prev]. unfold step_if at 1. cbn [rest]. rewrite H. reflexivity. }
  rewrite E. f_equal.
  change re_quote with (Seq Bol (cat [chr ">"; opt ws])).
  apply (sub_from_anchored_skip udb _ [] x 0 t).
Qed.

Lemma replace_from_app_absent a old new l r :
  ~ In a l ->
  replace_from (a :: old) new 0 (l ++ r) = l ++ replace_from (a :: old) new 0 r.
Proof.
  induction l as [| c l IH]; [reflexivity |]. intros H. cbn [app].
  cbn [replace_from startswith].
  destruct (N.eqb_spec a c) as [-> | Hne]; [exfalso; apply H; left; reflexivity |].
  cbn [andb app]. f_equal. apply IH. intros Hin. apply H. right. exact Hin.
Qed.

Lemma split_app_sep sep l r : ~ In sep l -> split sep (l ++ sep :: r) = l :: split sep r.
Proof.
  induction l as [| c l IH]; intros H.
  - cbn [app split]. rewrite N.eqb_refl. reflexivity.
  - cbn [app split].
    destruct (N.eqb_spec c sep) as [-> | Hne]; [exfalso; apply H; left; reflexivity |].
    rewrite IH; [reflexivity |]. intros Hin. apply H. right. exact Hin.
Qed.

Lemma split_single sep l : ~ In sep l -> split sep l = [l].
Proof.
  induction l as [| c l IH]; intros H; [reflexivity |]. cbn [split].
  destruct (N.eqb_spec c sep) as [-> | Hne]; [exfalso; apply H; left; reflexivity |].
  rewrite IH; [reflexivity |]. intros Hin. apply H. right. exact Hin.
Qed.

(** The first line of lines joined by line feeds is the first of them. *)
Lemma doc_lines_join_head l xs :
  ~ In LF l -> ~ In CR l -> exists tl, doc_lines (join [LF] (l :: xs)) = l :: tl.
Proof.
  intros Hlf Hcr. destruct xs as [| x xs].
  - exists []. cbn [join]. rewrite (doc_lines_no_cr l Hcr). apply split_single, Hlf.
  - change (join [LF] (l :: x :: xs)) with (l ++ LF :: join [LF] (x :: xs)).
    set (r := join [LF] (x :: xs)). unfold doc_lines, replace.
    rewrite (replace_from_app_absent CR [LF] [LF] l _ Hcr).
    cbn [replace_from startswith]. change (CR =? LF) with false. cbn [andb].
    rewrite (replace_from_app_absent CR [] [LF] l _ Hcr).
    cbn [replace_from startswith]. change (CR =? LF) with false. cbn [andb].
    rewrite (split_app_sep LF l _ Hlf). eexists. reflexivity.
Qed.

Lemma block_at_stuck_quote nested self l tl (σ : store) :
  startswith (py ">") (strip l) = true -> startswith (py ">") l = false ->
  block_at udb nested self (l :: tl) 0 σ =
  match nested (join [LF] (l :: List.map (re_sub udb re_quote []) (quote_run tl))) σ with
  | Some (inner, σ') =>
      Some (Some (py "<blockquote>" ++ [LF] ++ inner ++ [LF] ++ py "</blockquote>"),
            S (length (quote_run tl)), σ')
  | None => None
  end.
Proof.
  intros Hs Hl. destruct (startswith_one _ _ Hs) as [t0 Est].
  destruct (first_char_of_strip _ _ _ Est) as (a & t & El & Fa).
  destruct (no_rule_no_item udb l a 62 t El Fa (or_intror eq_refl)) as (Hr & _ & _).
  assert (Hh : re_match udb re_heading l = None).
  { destruct (re_match udb re_heading l) as [m |] eqn:E; [| reflexivity]. exfalso.
    destruct (heading_starts_with_hash udb l m E) as [t1 E1].
    rewrite El in E1. destruct a as [| w a]; cbn [app] in E1.
    - discriminate E1.
    - cbn [forallb] in Fa. apply andb_true_iff in Fa as [Fw _].
      injection E1 as -> _. discriminate Fw. }
  unfold block_at. cbn [get nth]. rewrite Est. cbn [nonempty negb].
  change (startswith fence (62 :: t0)) with false.
  change (startswith (py ">") (62 :: t0)) with true. cbv iota.
  rewrite Hh, Hr. unfold _blockquote. cbn [skipn]. rewrite quote_lines_spec.
  cbn [quote_run]. rewrite Hs. cbn [List.map app length].
  rewrite (quote_mark_not_found l Hl).
  destruct (nested _ σ) as [[inner σ'] |]; reflexivity.
Qed.

Lemma parse_stuck_quote l :
  startswith (py ">") (strip l) = true -> startswith (py ">") l = false ->
  ~ In LF l -> ~ In CR l ->
  forall fuel md self (σ : store),
    (exists tl, doc_lines md = l :: tl) -> parse udb fuel self md σ = None.
Proof.
  intros Hs Hl Hlf Hcr. induction fuel as [| f IH]; intros md self σ [tl Ed];
    [reflexivity |].
  rewrite (parse_S udb), Ed. destruct f as [| f']; [reflexivity |].
  cbn [parse_loop length Nat.ltb Nat.leb].
  rewrite (block_at_stuck_quote _ self l tl _ Hs Hl).
  unfold nested_parse at 1. unfold new_parser.
  rewrite IH; [reflexivity |]. apply doc_lines_join_head; assumption.
Qed.

(** When the trimmed first line of a document starts with the quote mark
    and the line itself does not (whitespace comes before the mark), the
    blockquote handler hands the line unchanged to the nested parser, and
    parse does not return, whatever the fuel. *)
Theorem first_line_indented_quote (md l : str) (tl : list str) (fuel : nat)
    (self : obj) (σ : store) :
  doc_lines md = l :: tl ->
  startswith (py ">") (strip l) = true ->
  startswith (py ">") l = false ->
  re_sub udb re_quote [] l = l
  /\ parse udb fuel self md σ = None.
Proof.
  intros Ed Hs Hl. split; [apply quote_mark_not_found, Hl |].
  pose proof (doc_lines_clean md) as C. rewrite Ed in C.
  apply Forall_cons_iff in C as [[Hlf Hcr] _].
  apply (parse_stuck_quote l Hs Hl Hlf Hcr). exists tl. exact Ed.
Qed.

End StuckQuote.

(** ** The helpers of [build.py] *)

Section BuildProperties.

Variable udb : unicode_db.

Lemma sub_from_class neg items p t :
  sub_from udb (Cls neg items) [] p 0 t
  = List.filter (fun c => negb (xorb neg (in_set udb c items))) t.
Proof.
  revert p. induction t as [| c t IH]; intros p; [reflexivity |].
  cbn [sub_from List.filter rmatch step_if rest advance].
  destruct (xorb neg (in_set udb c items)); cbn [negb].
  - cbn [rest length]. replace (S (length t) - length t)%nat with 1%nat by lia.
    cbn [expand flat_map app]. apply IH.
  - rewrite IH. reflexivity.
Qed.

Lemma in_set_markup c :
  in_set udb c [cc "*"; cc "_"; cc "~"; cc "`"; cc "["; cc "]"; cc "("; cc ")"]
  = markup_char c.
Proof.
  unfold in_set, markup_char.
  change [cc "*"; cc "_"; cc "~"; cc "`"; cc "["; cc "]"; cc "("; cc ")"]
    with [CChar 42; CChar 95; CChar 126; CChar 96; CChar 91; CChar 93; CChar 40; CChar 41].
  cbn [existsb in_item]. rewrite orb_false_r, !orb_assoc. reflexivity.
Qed.

Lemma clean_spec line :
  re_sub udb re_markup [] line = List.filter (fun c => negb (markup_char c)) line.
Proof.
  unfold re_sub, re_markup. rewrite sub_from_class. apply filter_ext.
  intros c. rewrite in_set_markup. reflexivity.
Qed.

Lemma lstrip_by_incl p t c : In c (lstrip_by p t) -> In c t.
Proof.
  destruct (lstrip_by_suffix p t) as [a E]. intros H. rewrite E.
  apply in_or_app. right. exact H.
Qed.

Lemma strip_incl t c : In c (strip t) -> In c t.
Proof.
  unfold strip, strip_by, rstrip_by. intros H. apply in_rev in H.
  apply lstrip_by_incl in H. apply in_rev in H. apply lstrip_by_incl in H. exact H.
Qed.

Lemma split_lengths sep t :
  Forall (fun l => (length l <= length t)%nat) (split sep t).
Proof.
  induction t as [| c t IH]; cbn [split].
  - constructor; [cbn; lia | constructor].
  - pose proof (split_nonempty sep t) as Hn.
    destruct (c =? sep).
    + constructor; [cbn; lia |].
      eapply List.Forall_impl; [| exact IH]. cbn. intros l H. lia.
    + destruct (split sep t) as [| h r]; [contradiction |].
      apply Forall_cons_iff in IH as [H IH]. constructor; [cbn; lia |].
      eapply List.Forall_impl; [| exact IH]. cbn. intros l H0. lia.
Qed.

Lemma lstrip_by_length p t : (length (lstrip_by p t) <= length t)%nat.
Proof.
  destruct (lstrip_by_suffix p t) as [a E]. rewrite E at 2. rewrite length_app. lia.
Qed.

Lemma strip_length t : (length (strip t) <= length t)%nat.
Proof.
  unfold strip, strip_by, rstrip_by. rewrite length_rev.
  etransitivity; [apply lstrip_by_length |]. rewrite length_rev. apply lstrip_by_length.
Qed.

Lemma slice_to_length n t : (length (slice_to n t) <= length t)%nat.
Proof.
  unfold slice_to. destruct (n <? 0)%Z; rewrite length_firstn; lia.
Qed.

Lemma slice_to_bound n t :
  (0 <= n)%Z -> (Z.of_nat (length (slice_to n t)) <= n)%Z.
Proof.
  intros Hn. unfold slice_to. destruct (Z.ltb_spec n 0) as [H | H]; [lia |].
  rewrite length_firstn. lia.
Qed.

Lemma slice_to_incl n t c : In c (slice_to n t) -> In c t.
Proof.
  unfold slice_to. destruct (n <? 0)%Z; intros H.
  - rewrite <- (firstn_skipn (length t - Z.to_nat (- n)) t). apply in_or_app. left. exact H.
  - rewrite <- (firstn_skipn (Z.to_nat n) t). apply in_or_app. left. exact H.
Qed.

(** What [describe] returns is made of characters of one of the lines,
    none of them a markup character, and perhaps the two ellipses; it is
    no longer than one of the lines and the two ellipses, and for a bound
    that is not negative no longer than the bound and the two ellipses. *)
Lemma describe_spec max_len ls :
  ((0 <= max_len)%Z -> (Z.of_nat (length (describe udb max_len ls)) <= max_len + 2)%Z)
  /\ (forall n, Forall (fun l => (length l <= n)%nat) ls ->
                (length (describe udb max_len ls) <= n + 2)%nat)
  /\ Forall (fun c => markup_char c = false
                      /\ (c = 8230 \/ exists l, In l ls /\ In c l))
       (describe udb max_len ls).
Proof.
  induction ls as [| l ls (IH1 & IH2 & IH3)].
  { split; [cbn; lia |]. split; [intros n _; cbn; lia | constructor]. }
  assert (Rec : ((0 <= max_len)%Z ->
                 (Z.of_nat (length (describe udb max_len ls)) <= max_len + 2)%Z)
                /\ (forall n, Forall (fun l0 => (length l0 <= n)%nat) (l :: ls) ->
                              (length (describe udb max_len ls) <= n + 2)%nat)
                /\ Forall (fun c => markup_char c = false
                                    /\ (c = 8230 \/ exists l0, In l0 (l :: ls) /\ In c l0))
                     (describe udb max_len ls)).
  { split; [exact IH1 |]. split.
    - intros n Hn. apply Forall_cons_iff in Hn as [_ Hn]. apply IH2, Hn.
    - eapply List.Forall_impl; [| exact IH3]. cbn.
      intros c [H1 [H2 | (l0 & H3 & H4)]]; (split; [exact H1 |]);
        [left; exact H2 | right; exists l0; split; [right; exact H3 | exact H4]]. }
  cbn [describe].
  destruct (negb (nonempty (strip l))); [exact Rec |].
  destruct (existsb (fun p => startswith p (strip l)) skipped_starts); [exact Rec |].
  destruct (matches udb re_numbered (strip l)); [exact Rec |].
  rewrite clean_spec.
  set (clean := List.filter (fun c => negb (markup_char c)) (strip l)).
  assert (Hc : Forall (fun c => markup_char c = false
                                /\ (c = 8230 \/ exists l0, In l0 (l :: ls) /\ In c l0)) clean).
  { apply List.Forall_forall. intros c Hin. subst clean. apply filter_In in Hin as [Hin Hm].
    split; [destruct (markup_char c); [discriminate Hm | reflexivity] |].
    right. exists l. split; [left; reflexivity | apply strip_incl, Hin]. }
  assert (Hl : (length clean <= length l)%nat).
  { subst clean. etransitivity; [apply List.filter_length_le | apply strip_length]. }
  destruct (Z.ltb_spec max_len (Z.of_nat (length clean))) as [Hlt | Hge].
  - split; [| split].
    + intros H0. pose proof (slice_to_bound max_len clean H0) as B.
      rewrite length_app. cbn [length ellipses]. lia.
    + intros n Hn. apply Forall_cons_iff in Hn as [Hn _].
      pose proof (slice_to_length max_len clean) as B.
      rewrite length_app. cbn [length ellipses]. lia.
    + apply Forall_app. split.
      * apply List.Forall_forall. intros c Hin. rewrite List.Forall_forall in Hc.
        apply Hc. apply (slice_to_incl max_len), Hin.
      * repeat constructor; left; reflexivity.
  - split; [intros _; lia |]. split; [| exact Hc].
    intros n Hn. apply Forall_cons_iff in Hn as [Hn _]. lia.
Qed.

(** The description taken from the body of a post, for a bound that is
    not negative, is no longer than the bound and the two ellipses; for
    every bound it is no longer than the body and the two ellipses, holds
    no line feed and none of the markup characters that are removed, and
    apart from the ellipses is made of characters of the body. *)
Theorem description_is_short_and_plain (md_body : str) (max_len : Z) :
  ((0 <= max_len)%Z ->
   (Z.of_nat (length (extract_description udb md_body max_len)) <= max_len + 2)%Z)
  /\ (length (extract_description udb md_body max_len) <= length md_body + 2)%nat
  /\ Forall (fun c => markup_char c = false /\ c <> LF /\ (c = 8230 \/ In c md_body))
       (extract_description udb md_body max_len).
Proof.
  unfold extract_description.
  destruct (describe_spec max_len (split LF md_body)) as (H1 & H2 & H3).
  split; [exact H1 |]. split; [apply H2, split_lengths |].
  eapply List.Forall_impl; [| exact H3]. cbn.
  intros c [Hm [-> | (l & Hl & Hc)]].
  - split; [exact Hm |]. split; [discriminate | left; reflexivity].
  - pose proof (split_lines_chars LF md_body) as F. rewrite List.Forall_forall in F.
    destruct (F l Hl) as [Hno Hin].
    split; [exact Hm |]. split; [intros -> ; exact (Hno Hc) | right; apply Hin, Hc].
Qed.

Lemma add_meta_values (meta : gmap str str) line :
  (forall k v, meta !! k = Some v -> strip v = v) ->
  forall k v, add_meta udb meta line !! k = Some v -> strip v = v.
Proof.
  intros H k v. unfold add_meta. destruct (contains 58 line); [| apply H].
  destruct (split_once 58 line) as [key val].
  destruct (decide (lower udb (strip key) = k)) as [<- | Hne].
  - rewrite lookup_insert_eq. intros [= <-]. apply strip_idem.
  - rewrite lookup_insert_ne by exact Hne. apply H.
Qed.

Lemma fold_add_meta_values (ls : list str) (meta : gmap str str) :
  (forall k v, meta !! k = Some v -> strip v = v) ->
  forall k v, fold_left (add_meta udb) ls meta !! k = Some v -> strip v = v.
Proof.
  revert meta. induction ls as [| l ls IH]; intros meta H; [exact H |].
  cbn [fold_left]. apply IH. apply add_meta_values, H.
Qed.

(** The body that [parse_frontmatter] returns is the end of the text: the
    text is some front part followed by the body.  A text that does not
    start with three hyphens has no front matter: the dictionary is empty
    and the body is the whole text.  Every value of the dictionary is
    trimmed. *)
Theorem frontmatter_splits_the_text (text : str) :
  (exists pre, text = pre ++ snd (parse_frontmatter udb text))
  /\ (startswith (py "---") text = false -> parse_frontmatter udb text = (∅, text))
  /\ (forall k v, fst (parse_frontmatter udb text) !! k = Some v -> strip v = v).
Proof.
  unfold parse_frontmatter.
  destruct (re_match udb re_frontmatter text) as [m |] eqn:E.
  - pose proof (re_match_sound udb _ _ _ E) as Hs. split; [| split].
    + apply sem_suffix in Hs. exact Hs.
    + intros Hn. exfalso.
      change re_frontmatter with
        (Seq Bol (Seq (Lit 45) (Seq (Lit 45) (Seq (Lit 45)
           (cat [star ws; Lit LF; Grp 1 (lazy_star any_char); Lit LF;
                 chr "-"; chr "-"; chr "-"; star ws; Lit LF]))))) in Hs.
      cbn [sem] in Hs.
      destruct Hs as (m0 & [_ ->] & m1 & (c1 & H1 & E1 & _) & m2 & (c2 & H2 & E2 & _)
                      & m3 & (c3 & H3 & E3 & _) & _).
      apply N.eqb_eq in H1, H2, H3. subst c1 c2 c3. cbn [rest] in E1.
      rewrite E1, E2, E3 in Hn. discriminate Hn.
    + cbn [fst]. apply fold_add_meta_values. intros k v Hk.
      rewrite lookup_empty in Hk. discriminate Hk.
  - split; [exists []; reflexivity |]. split; [reflexivity |].
    intros k v Hk. cbn [fst] in Hk. rewrite lookup_empty in Hk. discriminate Hk.
Qed.

Lemma search_from_sound r p t m :
  search_from udb r p t = Some m ->
  exists p' t', rmatch udb r Some (MState p' t' []) = Some m
                /\ exists a, t = a ++ t'.
Proof.
  revert p. induction t as [| c t IH]; intros p; cbn [search_from].
  - destruct (rmatch udb r Some (MState p [] [])) eqn:E; [| discriminate].
    intros [= <-]. exists p, []. split; [exact E | exists []; reflexivity].
  - destruct (rmatch udb r Some (MState p (c :: t) [])) eqn:E.
    + intros [= <-]. exists p, (c :: t). split; [exact E | exists []; reflexivity].
    + intros H. destruct (IH _ H) as (p' & t' & H1 & a & Ea).
      exists p', t'. split; [exact H1 |]. exists (c :: a). cbn. f_equal. exact Ea.
Qed.

Lemma search_from_without r c p t :
  leading r = Some c -> ~ In c t -> search_from udb r p t = None.
Proof.
  intros Hl Hc. destruct (search_from udb r p t) as [m |] eqn:E; [| reflexivity].
  exfalso. destruct (search_from_sound _ _ _ _ E) as (p' & t' & H & a & Ea).
  apply rmatch_sound in H. destruct H as (st' & Hs & _).
  destruct (leading_sound udb r c Hl _ _ Hs) as [tl Et]. cbn [rest] in Et.
  apply Hc. rewrite Ea, Et. apply in_or_app. right. left. reflexivity.
Qed.

Lemma title_match_no_lf p t m :
  rmatch udb re_title Some (MState p t []) = Some m ->
  forallb (fun x => negb (x =? LF)) (group 1 (caps m)) = true.
Proof.
  intros H. apply rmatch_sound in H. destruct H as (st' & Hs & [= <-]).
  change re_title with
    (Seq mbol (Seq (Lit 35) (Seq (Rep true 1 None (Cls false [CSpace]))
       (Seq (Grp 1 (Rep true 1 None Dot)) (Seq meol Eps))))) in Hs.
  unfold mbol, meol in Hs. cbn [sem] in Hs.
  destruct Hs as (m0 & [_ ->] & m1 & _ & m2 & _
                  & m3 & (s3 & (j & _ & _ & It) & ->) & m4 & [_ ->] & ->).
  apply iter_one_char in It. destruct It as (cs & E & _ & F & _).
  cbn [caps group List.find fst snd Nat.eqb]. rewrite (consumed_app _ _ cs E). exact F.
Qed.

(** The title taken from the body of a post is trimmed and holds no line
    feed; a body without a hash has no title; and when the body starts
    with a hash, whitespace and a text that starts with a character that
    is no whitespace and runs to the end of its line, the title is that
    text, trimmed. *)
Theorem title_of_the_body (md_body : str) :
  strip (extract_title_from_body udb md_body) = extract_title_from_body udb md_body
  /\ ~ In LF (extract_title_from_body udb md_body)
  /\ (~ In 35 md_body -> extract_title_from_body udb md_body = [])
  /\ (forall w text more,
        md_body = 35 :: w ++ text ++ more ->
        w <> [] -> forallb isspace w = true ->
        match text with c :: _ => isspace c = false | [] => False end ->
        forallb (fun x => negb (x =? LF)) text = true ->
        match more with c :: _ => c = LF | [] => True end ->
        extract_title_from_body udb md_body = strip text).
Proof.
  unfold extract_title_from_body, re_search. split; [| split; [| split]].
  - destruct (search_from udb re_title None md_body); [apply strip_idem | reflexivity].
  - destruct (search_from udb re_title None md_body) as [m |] eqn:E; [| intros []].
    destruct (search_from_sound _ _ _ _ E) as (p' & t' & H & _).
    apply title_match_no_lf in H. intros Hin. apply strip_incl in Hin.
    rewrite forallb_forall in H. apply H in Hin. discriminate Hin.
  - intros Hn. rewrite (search_from_without re_title 35); [reflexivity | reflexivity | exact Hn].
  - intros w text more -> Hw Fw Ht Ft Hr.
    assert (E : rmatch udb re_title Some (MState None (35 :: w ++ text ++ more) [])
                = Some (MState (prev_after (prev_after (Some 35) w) text) more
                          [(1%nat, text)])).
    { change re_title with
        (Seq mbol (Seq (Lit 35) (Seq (Rep true 1 None (Cls false [CSpace]))
           (Seq (Grp 1 (Rep true 1 None Dot)) (Seq meol Eps))))).
      unfold mbol, meol. cbn [rmatch prev]. unfold step_if at 1.
      cbn [rest advance caps]. rewrite N.eqb_refl. cbn [rest length].
      apply (greedy_run _ (fun x => xorb false (in_set udb x [CSpace])) 1 None
               (fun k st => eq_refl) w).
      - apply ws_class_forall, Fw.
      - exact I.
      - right. destruct text as [| c t]; [contradiction |]. cbn [app].
        unfold in_set. cbn. rewrite orb_false_r. exact Ht.
      - rewrite length_app. lia.
      - destruct w; [contradiction | cbn; lia].
      - cbn [rmatch rest]. 
        apply (greedy_run _ (fun x => negb (x =? LF)) 1 None (fun k st => eq_refl) text).
        + exact Ft.
        + exact I.
        + right. destruct more as [| c r]; [exact I |]. subst c. reflexivity.
        + rewrite length_app. lia.
        + destruct text; [contradiction | cbn; lia].
        + cbn [rest prev caps]. rewrite consumed_run.
          destruct more as [| c r]; [reflexivity |]. subst c. reflexivity. }
    cbn [search_from]. rewrite E. reflexivity.
Qed.

(** A post in which no line starts with a hash gets an empty table of
    contents; in any case the table of contents of a post is the one of
    the headings that the parse of its own body recorded. *)
Theorem post_toc_is_of_its_own_headings (fuel : nat) (body html toc : str) :
  render_post udb fuel body = Some (html, toc) ->
  (exists σ', parse udb fuel 0 body one_parser = Some (html, σ')
              /\ toc = toc_with raw_text (get_headings σ' 0))
  /\ (Forall (fun l => startswith (py "#") l = false) (doc_lines body) -> toc = []).
Proof.
  unfold render_post, new_parser. cbn [length app].
  change [{| headings := [] |}] with one_parser.
  destruct (parse udb fuel 0 body one_parser) as [[h σ'] |] eqn:E; [| discriminate].
  intros [= <- <-].
  split; [exists σ'; split; [reflexivity | apply generate_toc_spec] |].
  intros Hn. rewrite generate_toc_spec.
  assert (H0 : (0 < length one_parser)%nat) by (cbn; lia).
  destruct (recorded_of_parse udb _ _ _ _ _ _ H0 E) as [n R].
  destruct (recorded_lines udb _ _ _ R) as (idx & F & _ & _).
  destruct (get_headings σ' 0) as [| hd hs]; [reflexivity |]. exfalso.
  inversion F as [| i x idx' hs' (Hi & m & Em & _) _]; subst.
  destruct (heading_starts_with_hash udb _ m Em) as [t Et].
  rewrite List.Forall_forall in Hn.
  assert (Hin : In (get (doc_lines body) i) (doc_lines body)) by (apply nth_In, Hi).
  apply Hn in Hin. rewrite Et in Hin. discriminate Hin.
Qed.

End BuildProperties.

(** ** Whole documents, table cells and slugs *)

Section Whole.

Variable udb : unicode_db.

Lemma para_run_all ls :
  Forall (fun l => nonempty (strip l) = true /\ para_break udb l = false) ls ->
  para_run udb ls = ls.
Proof.
  induction 1 as [| l ls [H1 H2] _ IH]; [reflexivity |].
  cbn [para_run]. rewrite H1, H2. cbn. f_equal. exact IH.
Qed.

(** A document whose lines are all text (none is blank, none starts
    another kind of block) and whose first line holds no pipe is one
    paragraph: parse returns the [p] element of the rendered lines joined by
    blanks, and records no heading. *)
Theorem text_lines_are_one_paragraph (f : nat) (self : obj) (md : str) (σ : store) :
  Forall (fun l => nonempty (strip l) = true /\ para_break udb l = false) (doc_lines md) ->
  contains 124 (get (doc_lines md) 0) = false ->
  parse udb (S (S f)) self md σ
  = Some (py "<p>" ++ parse_inline udb (join (py " ") (doc_lines md)) ++ py "</p>",
          set_headings σ self []).
Proof.
  intros Hall Hpipe. rewrite (parse_S udb).
  set (lines := doc_lines md) in *.
  assert (Hlen : (0 < length lines)%nat).
  { pose proof (split_nonempty LF (replace [CR] [LF] (replace [CR; LF] [LF] md))) as Hn.
    subst lines. unfold doc_lines. destruct (split LF _); [contradiction | cbn; lia]. }
  assert (H0 : nonempty (strip (get lines 0)) = true /\ para_break udb (get lines 0) = false).
  { rewrite List.Forall_forall in Hall. apply Hall. apply nth_In, Hlen. }
  destruct H0 as [Hne Hpb]. unfold para_break in Hpb.
  repeat (apply orb_false_iff in Hpb; destruct Hpb as [Hpb ?]).
  assert (Hh : re_match udb re_heading (get lines 0) = None).
  { destruct (re_match udb re_heading (get lines 0)) as [m |] eqn:E; [| reflexivity].
    exfalso. destruct (heading_starts_with_hash udb _ m E) as [t Et].
    destruct (strip_hash t) as [t' Est]. rewrite Et, Est in Hpb. discriminate Hpb. }
  cbn [parse_loop]. destruct (Nat.ltb_spec 0 (length lines)) as [_ | Hc]; [| lia].
  assert (B : block_at udb (nested_parse udb (S f)) self lines 0 (set_headings σ self [])
              = Some (Some (py "<p>" ++ parse_inline udb (join (py " ") lines) ++ py "</p>"),
                      length lines, set_headings σ self [])).
  { unfold block_at. rewrite Hne. cbn [negb].
    repeat match goal with H : _ = false |- _ => rewrite H end.
    rewrite Hh. rewrite ?Hpipe. cbn [andb].
    unfold _paragraph. rewrite para_lines_spec.
    change (skipn 0 lines) with lines. rewrite (para_run_all lines Hall). reflexivity. }
  rewrite B. cbn [append_part app].
  destruct f as [| f']; cbn [parse_loop]; rewrite Nat.ltb_irrefl; reflexivity.
Qed.

(** The cells of a table row are trimmed and hold no pipe. *)
Theorem table_cells_are_trimmed (l : str) :
  sr l <> [] /\ Forall (fun c => strip c = c /\ ~ In 124 c) (sr l).
Proof.
  unfold sr. split.
  - pose proof (split_nonempty 124 (strip_chars (py "|") (strip l))) as Hn.
    destruct (split 124 _); [contradiction | discriminate].
  - apply Forall_map. eapply List.Forall_impl; [| apply split_lines_chars].
    cbn. intros c [Hc _]. split; [apply strip_idem |].
    intros Hin. apply Hc. apply strip_incl, Hin.
Qed.

Lemma str_of_uint_digits d : forallb ascii_digit (str_of_uint d) = true.
Proof. induction d; cbn [str_of_uint forallb]; try reflexivity; exact IHd. Qed.

Lemma keep_ascii c :
  is_ascii c = true -> keep udb c = true ->
  slug_char (if ascii_upper c then c + 32 else c) = true.
Proof.
  unfold keep, isalnum. intros Ha. rewrite Ha. intros Hk.
  assert (Hc : (65 <= c <= 90) \/ (97 <= c <= 122) \/ (48 <= c <= 57)
               \/ c = 95 \/ c = 45).
  { unfold ascii_upper, ascii_lower, ascii_digit in Hk. unfold is_ascii in Ha.
    apply N.ltb_lt in Ha.
    rewrite !orb_true_iff, !andb_true_iff, !N.leb_le, !N.eqb_eq in Hk. lia. }
  destruct Hc as [Hu | Hc].
  - assert (U : ascii_upper c = true).
    { unfold ascii_upper. apply andb_true_iff. split; apply N.leb_le; lia. }
    rewrite U. unfold slug_char.
    assert (L : ascii_lower (c + 32) = true).
    { unfold ascii_lower. apply andb_true_iff. split; apply N.leb_le; lia. }
    rewrite L. reflexivity.
  - assert (U : ascii_upper c = false).
    { unfold ascii_upper. apply andb_false_iff.
      destruct Hc as [H | [H | [H | H]]]; first [right; apply N.leb_gt; lia
                                                   | left; apply N.leb_gt; lia]. }
    rewrite U. unfold slug_char.
    destruct Hc as [H | [H | [-> | ->]]]; [| | reflexivity | reflexivity].
    + assert (L : ascii_lower c = true).
      { unfold ascii_lower. apply andb_true_iff. split; apply N.leb_le; lia. }
      rewrite L. reflexivity.
    + assert (D : ascii_digit c = true).
      { unfold ascii_digit. apply andb_true_iff. split; apply N.leb_le; lia. }
      rewrite D. rewrite orb_true_r. reflexivity.
Qed.

Lemma spec_base_ascii raw k :
  forallb is_ascii raw = true ->
  spec_base udb raw k <> [] /\ forallb slug_char (spec_base udb raw k) = true.
Proof.
  intros Ha. unfold spec_base.
  assert (Hf : forallb is_ascii (List.filter (keep udb) raw) = true).
  { rewrite forallb_forall in *. intros c Hc. apply filter_In in Hc as [Hc _].
    apply Ha, Hc. }
  unfold lower. rewrite Hf.
  assert (Hs : forallb slug_char
                 (List.map (fun c => if ascii_upper c then c + 32 else c)
                    (List.filter (keep udb) raw)) = true).
  { apply forallb_forall. intros x Hx. apply in_map_iff in Hx.
    destruct Hx as (c & <- & Hc). apply filter_In in Hc as [Hc Hk].
    apply keep_ascii; [| exact Hk]. rewrite forallb_forall in Ha. apply Ha, Hc. }
  destruct (List.map _ (List.filter (keep udb) raw)) as [| x t] eqn:E.
  - split; [discriminate |]. change (py "h-") with [104; 45]. cbn [app forallb].
    change (slug_char 104 && (slug_char 45 && forallb slug_char (str_of_nat k)) = true).
    cbn [andb]. change (slug_char 104) with true. change (slug_char 45) with true.
    cbn [andb]. pose proof (str_of_uint_digits (Nat.to_uint k)) as D.
    unfold str_of_nat. rewrite forallb_forall in *. intros x Hx.
    unfold slug_char. rewrite (D x Hx). rewrite orb_true_r. reflexivity.
  - split; [discriminate | exact Hs].
Qed.

Lemma spec_base_nonempty raw k : spec_base udb raw k <> [].
Proof.
  unfold spec_base. destruct (lower udb (List.filter (keep udb) raw)); discriminate.
Qed.

Lemma cand_nonempty base c : base <> [] -> cand base c <> [].
Proof.
  intros Hb. destruct c; cbn [cand]; [exact Hb |].
  destruct base; [contradiction | discriminate].
Qed.

Lemma cand_slug_chars base c :
  forallb slug_char base = true -> forallb slug_char (cand base c) = true.
Proof.
  intros Hb. destruct c as [| c]; cbn [cand]; [exact Hb |].
  rewrite !forallb_app, Hb. cbn [andb]. change (forallb slug_char (py "-")) with true.
  cbn [andb]. pose proof (str_of_uint_digits (Nat.to_uint (S c))) as D.
  unfold str_of_nat. rewrite forallb_forall in *. intros x Hx.
  unfold slug_char. rewrite (D x Hx), orb_true_r. reflexivity.
Qed.

(** Every heading that a parse records has a slug that is not empty, so
    that every heading element has an anchor; when the text of the heading
    is ASCII, the slug is made of small letters, digits, underscores and
    hyphens only. *)
Theorem slugs_are_anchors (fuel : nat) (self : obj) (md : str) (σ : store)
    (html : str) (σ' : store) :
  (self < length σ)%nat ->
  parse udb fuel self md σ = Some (html, σ') ->
  forall h, In h (get_headings σ' self) ->
    slug_of h <> []
    /\ (forallb is_ascii (snd h) = true -> forallb slug_char (slug_of h) = true).
Proof.
  intros Hs Hp h Hin.
  destruct (recorded_of_parse udb _ _ _ _ _ _ Hs Hp) as [n R].
  apply list_elem_of_In, list_elem_of_lookup in Hin. destruct Hin as [k Hk].
  rewrite (recorded_slug udb _ _ _ R k h Hk).
  destruct (make_slug_spec udb (snd h) (take k (get_headings σ' self))) as (c & -> & _).
  split.
  - apply cand_nonempty, spec_base_nonempty.
  - intros Ha. apply cand_slug_chars. apply spec_base_ascii, Ha.
Qed.

End Whole.

(** ** The properties at concrete inputs *)

(** The table of contents of the document with a bold heading has the
    raw text, stars included, as link text, while the heading element has
    the rendered text; the table of contents with the rendered text as link
    text is another string. *)
Lemma C2_toc_not_rendered :
  parse cjk_db 3 0 bold_title one_parser
  = Some (h_elem 1 (py "a") (py "<strong>A</strong>"),
          [ {| headings := [(1%nat, py "a", py "**A**")] |} ])
  /\ fst (generate_toc 0 [ {| headings := [(1%nat, py "a", py "**A**")] |} ])
     = py "<ul class=" ++ dq ++ py "toc-list" ++ dq ++ py ">" ++ [LF]
         ++ toc_entry 1 (py "a") (py "**A**") ++ [LF] ++ py "</ul>"
  /\ fst (generate_toc 0 [ {| headings := [(1%nat, py "a", py "**A**")] |} ])
     <> toc_with (rendered_text cjk_db) [(1%nat, py "a", py "**A**")].
Proof.
  split; [vm_compute; reflexivity |]. split; [vm_compute; reflexivity |].
  intros H. vm_compute in H. discriminate H.
Qed.

Lemma C2_toc_links_raw_text_witness :
  (0 < length one_parser)%nat
  /\ parse cjk_db 3 0 bold_title one_parser
     = Some (h_elem 1 (py "a") (py "<strong>A</strong>"),
             [ {| headings := [(1%nat, py "a", py "**A**")] |} ])
  /\ fst (generate_toc 0 [ {| headings := [(1%nat, py "a", py "**A**")] |} ])
     = toc_with raw_text [(1%nat, py "a", py "**A**")].
Proof.
  assert (H0 : (0 < length one_parser)%nat) by (vm_compute; lia).
  assert (H1 : parse cjk_db 3 0 bold_title one_parser
               = Some (h_elem 1 (py "a") (py "<strong>A</strong>"),
                       [ {| headings := [(1%nat, py "a", py "**A**")] |} ]))
    by (vm_compute; reflexivity).
  split; [exact H0 |]. split; [exact H1 |].
  exact (proj1 (C2_toc_links_raw_text cjk_db 3 0 bold_title one_parser _ _ H0 H1)).
Defined.

Lemma C3_slugs_pairwise_unique_witness :
  (0 < length one_parser)%nat
  /\ uni_lower cjk_db yinyan = yinyan
  /\ parse cjk_db 4 0 two_yinyan one_parser
     = Some (h_elem 1 yinyan yinyan ++ [LF] ++ h_elem 1 (yinyan ++ py "-1") yinyan,
             [ {| headings := [(1%nat, yinyan, yinyan);
                               (1%nat, yinyan ++ py "-1", yinyan)] |} ])
  /\ List.NoDup [yinyan; yinyan ++ py "-1"].
Proof.
  assert (H0 : (0 < length one_parser)%nat) by (vm_compute; lia).
  assert (H1 : uni_lower cjk_db yinyan = yinyan) by reflexivity.
  assert (H2 : parse cjk_db 4 0 two_yinyan one_parser
     = Some (h_elem 1 yinyan yinyan ++ [LF] ++ h_elem 1 (yinyan ++ py "-1") yinyan,
             [ {| headings := [(1%nat, yinyan, yinyan);
                               (1%nat, yinyan ++ py "-1", yinyan)] |} ]))
    by (vm_compute; reflexivity).
  split; [exact H0 |]. split; [exact H1 |]. split; [exact H2 |].
  exact (proj1 (C3_slugs_pairwise_unique cjk_db 4 0 two_yinyan one_parser _ _ H0 H1 H2)).
Defined.

(** The heading whose text is three exclamation marks keeps no code
    point: its slug is h-0, which is none of the candidates made from the
    empty base. *)
Lemma C3_slug_of_marks :
  parse cjk_db 2 0 marks_title one_parser
  = Some (h_elem 1 (py "h-0") (py "!!!"),
          [ {| headings := [(1%nat, py "h-0", py "!!!")] |} ])
  /\ stated_base cjk_db (py "!!!") = []
  /\ forall c, cand (stated_base cjk_db (py "!!!")) c <> py "h-0".
Proof.
  split; [vm_compute; reflexivity |]. split; [vm_compute; reflexivity |].
  intros c. change (stated_base cjk_db (py "!!!")) with (@nil N).
  destruct c as [| c]; cbn [cand app]; intros H.
  - discriminate H.
  - apply (f_equal (fun t => hd 0 t)) in H. cbn in H. discriminate H.
Qed.

Lemma C4_blockquote_headings_stay_inside_witness :
  (0 < length one_parser)%nat
  /\ parse cjk_db 5 0 quoted_title one_parser
     = Some (py "<blockquote>" ++ [LF] ++ h_elem 1 (py "title") (py "Title") ++ [LF]
               ++ py "</blockquote>",
             [ {| headings := [] |};
               {| headings := [(1%nat, py "title", py "Title")] |} ])
  /\ forall h, ~ In h (get_headings [ {| headings := [] |};
                                      {| headings := [(1%nat, py "title", py "Title")] |} ] 0).
Proof.
  assert (H0 : (0 < length one_parser)%nat) by (vm_compute; lia).
  assert (H1 : parse cjk_db 5 0 quoted_title one_parser
     = Some (py "<blockquote>" ++ [LF] ++ h_elem 1 (py "title") (py "Title") ++ [LF]
               ++ py "</blockquote>",
             [ {| headings := [] |};
               {| headings := [(1%nat, py "title", py "Title")] |} ]))
    by (vm_compute; reflexivity).
  split; [exact H0 |]. split; [exact H1 |].
  intros h Hin.
  destruct (proj1 (C4_blockquote_headings_stay_inside cjk_db 5 0 quoted_title
                     one_parser _ _ H0 H1) h Hin) as (i & (Hi & _) & _).
  exact Hin.
Defined.

Lemma C9_blank_document_witness :
  Forall blank (doc_lines blank_doc)
  /\ (length (doc_lines blank_doc) < 4)%nat
  /\ parse cjk_db 4 0 blank_doc one_parser = Some ([], one_parser)
  /\ fst (generate_toc 0 one_parser) = [].
Proof.
  assert (H0 : Forall blank (doc_lines blank_doc)).
  { vm_compute. repeat constructor. }
  assert (H1 : (length (doc_lines blank_doc) < 4)%nat) by (vm_compute; lia).
  split; [exact H0 |]. split; [exact H1 |].
  destruct (C9_blank_document cjk_db 4 0 blank_doc one_parser H0 H1)
    as (E1 & _ & E2 & _).
  split; [exact E1 | exact E2].
Defined.

Lemma C7_table_alignment_witness :
  (1 < length [py "|A|B|"; py "|:-|-:|"; py "|1|2|3|"; py "end"])%nat
  /\ _table cjk_db [py "|A|B|"; py "|:-|-:|"; py "|1|2|3|"; py "end"] 0
     = Some (py "<table>" ++ [LF] ++ py "  <thead>" ++ [LF] ++ py "    <tr>" ++ [LF]
               ++ styled (py "th") (py "left") (py "A") ++ [LF]
               ++ styled (py "th") (py "right") (py "B") ++ [LF]
               ++ py "    </tr>" ++ [LF] ++ py "  </thead>" ++ [LF]
               ++ py "  <tbody>" ++ [LF] ++ py "    <tr>" ++ [LF]
               ++ styled (py "td") (py "left") (py "1") ++ [LF]
               ++ styled (py "td") (py "right") (py "2") ++ [LF]
               ++ styled (py "td") (py "left") (py "3") ++ [LF]
               ++ py "    </tr>" ++ [LF] ++ py "  </tbody>" ++ [LF] ++ py "</table>",
             3%nat)
  /\ _table cjk_db [py "|A|B|"] 0 = None.
Proof.
  assert (H : (1 < length [py "|A|B|"; py "|:-|-:|"; py "|1|2|3|"; py "end"])%nat)
    by (vm_compute; lia).
  split; [exact H |].
  destruct (C7_table_alignment cjk_db) as (_ & _ & T & E & _).
  split.
  - rewrite (T [py "|A|B|"; py "|:-|-:|"; py "|1|2|3|"; py "end"] 0%nat H).
    vm_compute. reflexivity.
  - apply E. vm_compute. lia.
Defined.

Lemma C6_code_block_verbatim_witness :
  (0 < length [py "```py"; py "<b>&"; py "```"; py "x"])%nat
  /\ _code_block [py "```py"; py "<b>&"; py "```"; py "x"] 0 =
     (py "<pre><code class=" ++ dq ++ py "language-py" ++ dq
        ++ py ">&lt;b&gt;&amp;</code></pre>", 3%nat).
Proof.
  assert (H : (0 < length [py "```py"; py "<b>&"; py "```"; py "x"])%nat)
    by (vm_compute; lia).
  split; [exact H |].
  destruct (C6_code_block_verbatim [py "```py"; py "<b>&"; py "```"; py "x"] 0 H)
    as [E _].
  rewrite E. vm_compute. reflexivity.
Defined.

(** ** Further properties at concrete inputs *)

Lemma parse_returns_on_plain_lines_witness :
  Forall (plain_line cjk_db) (doc_lines (py "# A" ++ [LF] ++ py "text"))
  /\ (length (doc_lines (py "# A" ++ [LF] ++ py "text")) < 3)%nat
  /\ exists html (σ' : store),
       parse cjk_db 3 0 (py "# A" ++ [LF] ++ py "text") one_parser = Some (html, σ').
Proof.
  assert (H0 : Forall (plain_line cjk_db) (doc_lines (py "# A" ++ [LF] ++ py "text"))).
  { change (doc_lines (py "# A" ++ [LF] ++ py "text")) with [py "# A"; py "text"].
    constructor; [split; [vm_compute; reflexivity | intros _; vm_compute; reflexivity] |].
    constructor; [split; [vm_compute; reflexivity |] | constructor].
    intros H. vm_compute in H. discriminate H. }
  assert (H1 : (length (doc_lines (py "# A" ++ [LF] ++ py "text")) < 3)%nat)
    by (vm_compute; lia).
  split; [exact H0 |]. split; [exact H1 |].
  exact (parse_returns_on_plain_lines cjk_db 3 0 _ one_parser H0 H1).
Defined.

Lemma headings_have_level_and_text_witness :
  (0 < length one_parser)%nat
  /\ parse cjk_db 2 0 (py "## Two  words") one_parser
     = Some (h_elem 2 (py "twowords") (py "Two  words"),
             [ {| headings := [(2%nat, py "twowords", py "Two  words")] |} ])
  /\ forall lv slug raw,
       In (lv, slug, raw)
          (get_headings [ {| headings := [(2%nat, py "twowords", py "Two  words")] |} ] 0) ->
       (1 <= lv <= 6)%nat
       /\ exists i w t, (i < length (doc_lines (py "## Two  words")))%nat
                        /\ get (doc_lines (py "## Two  words")) i = repeat 35 lv ++ w :: t
                        /\ isspace w = true
                        /\ raw = strip (w :: t).
Proof.
  assert (H0 : (0 < length one_parser)%nat) by (vm_compute; lia).
  assert (H1 : parse cjk_db 2 0 (py "## Two  words") one_parser
     = Some (h_elem 2 (py "twowords") (py "Two  words"),
             [ {| headings := [(2%nat, py "twowords", py "Two  words")] |} ]))
    by (vm_compute; reflexivity).
  split; [exact H0 |]. split; [exact H1 |].
  exact (headings_have_level_and_text cjk_db 2 0 _ one_parser _ _ H0 H1).
Defined.

Lemma heading_line_gives_heading_witness :
  get [py "### Hi"] 0 = repeat 35 3 ++ py " " ++ py "Hi"
  /\ (1 <= 3 <= 6)%nat
  /\ py " " <> []
  /\ forallb isspace (py " ") = true
  /\ isspace 72 = false
  /\ forallb (fun x => negb (x =? LF)) (py "Hi") = true
  /\ block_at cjk_db (nested_parse cjk_db 1) 0 [py "### Hi"] 0 one_parser
     = Some (Some (h_elem 3 (py "hi") (py "Hi")), 1%nat,
             [ {| headings := [(3%nat, py "hi", py "Hi")] |} ]).
Proof.
  assert (H0 : get [py "### Hi"] 0 = repeat 35 3 ++ py " " ++ py "Hi") by reflexivity.
  assert (H1 : (1 <= 3 <= 6)%nat) by lia.
  assert (H2 : py " " <> []) by discriminate.
  assert (H3 : forallb isspace (py " ") = true) by reflexivity.
  assert (H4 : isspace 72 = false) by reflexivity.
  assert (H5 : forallb (fun x => negb (x =? LF)) (py "Hi") = true) by reflexivity.
  split; [exact H0 |]. split; [exact H1 |]. split; [exact H2 |]. split; [exact H3 |]. split; [exact H4 |]. split; [exact H5 |].
  rewrite (heading_line_gives_heading cjk_db (nested_parse cjk_db 1) 0 [py "### Hi"] 0
             one_parser 3 (py " ") (py "Hi") H0 H1 H2 H3 H4 H5).
  vm_compute. reflexivity.
Defined.

Lemma parse_inline_leaves_plain_text_witness :
  forallb (fun c => negb (inline_marker c)) (py "<b>Tom & Jerry</b>") = true
  /\ parse_inline cjk_db (py "<b>Tom & Jerry</b>") = py "<b>Tom & Jerry</b>".
Proof.
  assert (H0 : forallb (fun c => negb (inline_marker c)) (py "<b>Tom & Jerry</b>") = true)
    by (vm_compute; reflexivity).
  split; [exact H0 |].
  exact (parse_inline_leaves_plain_text cjk_db _ H0).
Defined.

Lemma esc_injective_witness :
  _esc (py "a<b") = _esc (py "a" ++ py "<b") /\ py "a<b" = py "a" ++ py "<b".
Proof.
  assert (H0 : _esc (py "a<b") = _esc (py "a" ++ py "<b")) by (vm_compute; reflexivity).
  split; [exact H0 |].
  exact (esc_injective _ _ H0).
Defined.

Lemma list_handlers_render_the_run_witness :
  (0 <= length [py "- a"; py "* b"; []; py "- c"])%nat
  /\ _ul cjk_db [py "- a"; py "* b"; []; py "- c"] 0
     = (py "<ul>" ++ [LF] ++ py "  <li>a</li>" ++ [LF] ++ py "  <li>b</li>" ++ [LF]
          ++ py "</ul>", 2%nat).
Proof.
  assert (H0 : (0 <= length [py "- a"; py "* b"; []; py "- c"])%nat) by (vm_compute; lia).
  split; [exact H0 |].
  rewrite (proj1 (list_handlers_render_the_run cjk_db
                    [py "- a"; py "* b"; []; py "- c"] 0 H0)).
  vm_compute. reflexivity.
Defined.

Lemma bullet_line_item_witness :
  forallb isspace (py "  ") = true
  /\ (45 = 45 \/ 45 = 42 \/ 45 = 43)
  /\ py " " <> []
  /\ forallb isspace (py " ") = true
  /\ isspace 120 = false
  /\ matches cjk_db re_ul (py "  - x y") = true
  /\ re_sub cjk_db re_ul [] (py "  - x y") = py "x y".
Proof.
  assert (H0 : forallb isspace (py "  ") = true) by reflexivity.
  assert (H1 : 45 = 45 \/ 45 = 42 \/ 45 = 43) by (left; reflexivity).
  assert (H2 : py " " <> []) by discriminate.
  assert (H3 : forallb isspace (py " ") = true) by reflexivity.
  assert (H4 : isspace 120 = false) by reflexivity.
  split; [exact H0 |]. split; [exact H1 |]. split; [exact H2 |]. split; [exact H3 |]. split; [exact H4 |].
  exact (bullet_line_item cjk_db (py "  ") 45 (py " ") (py "x y") H0 H1 H2 H3 H4).
Defined.

Lemma numbered_line_item_witness :
  forallb isspace [] = true
  /\ py "12" <> []
  /\ forallb ascii_digit (py "12") = true
  /\ py " " <> []
  /\ forallb isspace (py " ") = true
  /\ isspace 105 = false
  /\ matches cjk_db re_ol (py "12. item") = true
  /\ re_sub cjk_db re_ol [] (py "12. item") = py "item".
Proof.
  assert (H0 : forallb isspace [] = true) by reflexivity.
  assert (H1 : py "12" <> []) by discriminate.
  assert (H2 : forallb ascii_digit (py "12") = true) by reflexivity.
  assert (H3 : py " " <> []) by discriminate.
  assert (H4 : forallb isspace (py " ") = true) by reflexivity.
  assert (H5 : isspace 105 = false) by reflexivity.
  split; [exact H0 |]. split; [exact H1 |]. split; [exact H2 |]. split; [exact H3 |]. split; [exact H4 |]. split; [exact H5 |].
  exact (numbered_line_item cjk_db [] (py "12") (py " ") (py "item") H0 H1 H2 H3 H4 H5).
Defined.

Lemma paragraph_joins_its_lines_witness :
  (0 <= length [py "a <b"; py "c"; []; py "d"])%nat
  /\ _paragraph cjk_db [py "a <b"; py "c"; []; py "d"] 0 = (py "<p>a <b c</p>", 2%nat).
Proof.
  assert (H0 : (0 <= length [py "a <b"; py "c"; []; py "d"])%nat) by (vm_compute; lia).
  split; [exact H0 |].
  rewrite (proj1 (paragraph_joins_its_lines cjk_db [py "a <b"; py "c"; []; py "d"] 0 H0)).
  vm_compute. reflexivity.
Defined.


Lemma line_ends_are_alike_witness :
  ~ In CR (py "# A" ++ [LF] ++ py "b")
  /\ doc_lines (with_crlf (py "# A" ++ [LF] ++ py "b")) = doc_lines (py "# A" ++ [LF] ++ py "b")
  /\ doc_lines (with_cr (py "# A" ++ [LF] ++ py "b")) = doc_lines (py "# A" ++ [LF] ++ py "b")
  /\ parse cjk_db 3 0 (with_crlf (py "# A" ++ [LF] ++ py "b")) one_parser
     = parse cjk_db 3 0 (py "# A" ++ [LF] ++ py "b") one_parser
  /\ parse cjk_db 3 0 (with_cr (py "# A" ++ [LF] ++ py "b")) one_parser
     = parse cjk_db 3 0 (py "# A" ++ [LF] ++ py "b") one_parser.
Proof.
  assert (H0 : ~ In CR (py "# A" ++ [LF] ++ py "b")).
  { intros H. vm_compute in H. intuition discriminate. }
  split; [exact H0 |].
  exact (line_ends_are_alike cjk_db _ 3 0 one_parser H0).
Defined.

Lemma parse_starts_afresh_witness :
  (0 < length [ {| headings := [(1%nat, py "old", py "Old")] |} ])%nat
  /\ (1 < length [ {| headings := [] |}; {| headings := [(2%nat, py "x", py "X")] |} ])%nat
  /\ outcome 0 (parse cjk_db 3 0 (py "# A")
                  [ {| headings := [(1%nat, py "old", py "Old")] |} ])
     = outcome 1 (parse cjk_db 3 1 (py "# A")
                    [ {| headings := [] |}; {| headings := [(2%nat, py "x", py "X")] |} ]).
Proof.
  assert (H0 : (0 < length [ {| headings := [(1%nat, py "old", py "Old")] |} ])%nat)
    by (vm_compute; lia).
  assert (H1 : (1 < length [ {| headings := [] |};
                             {| headings := [(2%nat, py "x", py "X")] |} ])%nat)
    by (vm_compute; lia).
  split; [exact H0 |]. split; [exact H1 |].
  exact (parse_starts_afresh cjk_db 3 0 1 (py "# A") _ _ H0 H1).
Defined.

Lemma first_line_hash_no_heading_witness :
  doc_lines (py "####### seven" ++ [LF] ++ py "more") = py "####### seven" :: [py "more"]
  /\ startswith (py "#") (strip (py "####### seven")) = true
  /\ re_match cjk_db re_heading (py "####### seven") = None
  /\ contains 124 (py "####### seven") = false
  /\ _paragraph cjk_db (doc_lines (py "####### seven" ++ [LF] ++ py "more")) 0
     = (py "<p></p>", 0%nat)
  /\ parse cjk_db 9 0 (py "####### seven" ++ [LF] ++ py "more") one_parser = None.
Proof.
  assert (H0 : doc_lines (py "####### seven" ++ [LF] ++ py "more")
               = py "####### seven" :: [py "more"]) by (vm_compute; reflexivity).
  assert (H1 : startswith (py "#") (strip (py "####### seven")) = true)
    by (vm_compute; reflexivity).
  assert (H2 : re_match cjk_db re_heading (py "####### seven") = None)
    by (vm_compute; reflexivity).
  assert (H3 : contains 124 (py "####### seven") = false) by (vm_compute; reflexivity).
  split; [exact H0 |]. split; [exact H1 |]. split; [exact H2 |]. split; [exact H3 |].
  exact (first_line_hash_no_heading cjk_db _ _ _ 9 0 one_parser H0 H1 H2 H3).
Defined.

Lemma first_line_indented_quote_witness :
  doc_lines ([9] ++ py "> q" ++ [LF] ++ py "x") = ([9] ++ py "> q") :: [py "x"]
  /\ startswith (py ">") (strip ([9] ++ py "> q")) = true
  /\ startswith (py ">") ([9] ++ py "> q") = false
  /\ re_sub cjk_db re_quote [] ([9] ++ py "> q") = [9] ++ py "> q"
  /\ parse cjk_db 9 0 ([9] ++ py "> q" ++ [LF] ++ py "x") one_parser = None.
Proof.
  assert (H0 : doc_lines ([9] ++ py "> q" ++ [LF] ++ py "x") = ([9] ++ py "> q") :: [py "x"])
    by (vm_compute; reflexivity).
  assert (H1 : startswith (py ">") (strip ([9] ++ py "> q")) = true)
    by (vm_compute; reflexivity).
  assert (H2 : startswith (py ">") ([9] ++ py "> q") = false) by (vm_compute; reflexivity).
  split; [exact H0 |]. split; [exact H1 |]. split; [exact H2 |].
  exact (first_line_indented_quote cjk_db _ _ _ 9 0 one_parser H0 H1 H2).
Defined.

Lemma description_is_short_and_plain_witness :
  (0 <= 6)%Z
  /\ extract_description cjk_db (py "# T" ++ [LF] ++ py "Some *text* here") 6
     = py "Some t" ++ ellipses
  /\ (Z.of_nat (length (extract_description cjk_db
                          (py "# T" ++ [LF] ++ py "Some *text* here") 6)) <= 6 + 2)%Z
  /\ extract_description cjk_db (py "# T" ++ [LF] ++ py "Some *text* here") (-3)
     = py "Some text h" ++ ellipses.
Proof.
  assert (H0 : (0 <= 6)%Z) by lia.
  split; [exact H0 |]. split; [vm_compute; reflexivity |].
  split; [| vm_compute; reflexivity].
  exact (proj1 (description_is_short_and_plain cjk_db
                  (py "# T" ++ [LF] ++ py "Some *text* here") 6) H0).
Defined.

Lemma title_of_the_body_witness :
  extract_title_from_body cjk_db (py "# My Title " ++ [LF] ++ py "body") = py "My Title".
Proof.
  destruct (title_of_the_body cjk_db (py "# My Title " ++ [LF] ++ py "body"))
    as (_ & _ & _ & H).
  rewrite (H (py " ") (py "My Title ") ([LF] ++ py "body")).
  - vm_compute. reflexivity.
  - reflexivity.
  - discriminate.
  - reflexivity.
  - reflexivity.
  - reflexivity.
  - reflexivity.
Defined.

Lemma post_toc_is_of_its_own_headings_witness :
  render_post cjk_db 3 (py "# T" ++ [LF] ++ py "text")
  = Some (h_elem 1 (py "t") (py "T") ++ [LF] ++ py "<p>text</p>",
          toc_with raw_text [(1%nat, py "t", py "T")])
  /\ exists σ' : store,
       parse cjk_db 3 0 (py "# T" ++ [LF] ++ py "text") one_parser
       = Some (h_elem 1 (py "t") (py "T") ++ [LF] ++ py "<p>text</p>", σ')
       /\ toc_with raw_text [(1%nat, py "t", py "T")]
          = toc_with raw_text (get_headings σ' 0).
Proof.
  assert (H0 : render_post cjk_db 3 (py "# T" ++ [LF] ++ py "text")
               = Some (h_elem 1 (py "t") (py "T") ++ [LF] ++ py "<p>text</p>",
                       toc_with raw_text [(1%nat, py "t", py "T")]))
    by (vm_compute; reflexivity).
  split; [exact H0 |].
  exact (proj1 (post_toc_is_of_its_own_headings cjk_db 3 _ _ _ H0)).
Defined.

Lemma text_lines_are_one_paragraph_witness :
  Forall (fun l => nonempty (strip l) = true /\ para_break cjk_db l = false)
         (doc_lines (py "one" ++ [LF] ++ py "two"))
  /\ contains 124 (get (doc_lines (py "one" ++ [LF] ++ py "two")) 0) = false
  /\ parse cjk_db 2 0 (py "one" ++ [LF] ++ py "two") one_parser
     = Some (py "<p>one two</p>", one_parser).
Proof.
  assert (H0 : Forall (fun l => nonempty (strip l) = true /\ para_break cjk_db l = false)
                      (doc_lines (py "one" ++ [LF] ++ py "two"))).
  { change (doc_lines (py "one" ++ [LF] ++ py "two")) with [py "one"; py "two"].
    repeat (constructor; [split; vm_compute; reflexivity |]). constructor. }
  assert (H1 : contains 124 (get (doc_lines (py "one" ++ [LF] ++ py "two")) 0) = false)
    by (vm_compute; reflexivity).
  split; [exact H0 |]. split; [exact H1 |].
  rewrite (text_lines_are_one_paragraph cjk_db 0 0 _ one_parser H0 H1).
  vm_compute. reflexivity.
Defined.

Lemma slugs_are_anchors_witness :
  (0 < length one_parser)%nat
  /\ parse cjk_db 2 0 (py "# Hello, World!") one_parser
     = Some (h_elem 1 (py "helloworld") (py "Hello, World!"),
             [ {| headings := [(1%nat, py "helloworld", py "Hello, World!")] |} ])
  /\ forall h,
       In h (get_headings
               [ {| headings := [(1%nat, py "helloworld", py "Hello, World!")] |} ] 0) ->
       slug_of h <> []
       /\ (forallb is_ascii (snd h) = true -> forallb slug_char (slug_of h) = true).
Proof.
  assert (H0 : (0 < length one_parser)%nat) by (vm_compute; lia).
  assert (H1 : parse cjk_db 2 0 (py "# Hello, World!") one_parser
     = Some (h_elem 1 (py "helloworld") (py "Hello, World!"),
             [ {| headings := [(1%nat, py "helloworld", py "Hello, World!")] |} ]))
    by (vm_compute; reflexivity).
  split; [exact H0 |]. split; [exact H1 |].
  exact (slugs_are_anchors cjk_db 2 0 _ one_parser _ _ H0 H1).
Defined.
